(** * Smart quiz generator: text-to-question pipeline

    A shallow embedding of the Python back end (processors.py, prompts.py,
    generator.py, gemini_generator.py, validator.py) together with the
    properties its specification states about it.

    Conventions of the embedding.
    - A Python [str] is a [string]; a character is an 8-bit [ascii], read as
      the code point of the same number (U+0000 .. U+00FF), and the character
      classes below are Python's classes restricted to that range.
    - A Python [int] is a [Z] where it can be negative (scores, the requested
      number of questions) and a [nat] where it is a length or an index.
    - Python floats are idealised as rationals ([Q]); the natural logarithm
      and the sentence-embedding model are parameters.
    - A value of a parsed JSON text is a [JSON]. The array Gemini answers
      with holds such values, of any type, and Python's operations on them
      ([len], [in], subscripts, [get], [strip], [lower]) raise where
      Python's do.
    - The text model, the Gemini service and the random number generator
      are oracles held in a [World]; every call consumes one answer, so a
      run of the program is determined by the world it starts in.
    - Code that can raise lives in the monad [M], a state monad over [World]
      whose results are [Ok v] or [Raise e]; [try_except] is Python's
      [try: ... except Exception: ...]. *)

From Stdlib Require Import ZArith QArith Qround Lqa String Ascii List Permutation
  Lia DecimalString.
From stdpp Require Import gmap strings list.

Close Scope Q_scope.
Set Default Proof Using "Type".

(** ** Python strings *)

Module Py.

Definition chars (s : string) : list ascii := list_ascii_of_string s.
Definition str (l : list ascii) : string := string_of_list_ascii l.

Definition code (c : ascii) : nat := nat_of_ascii c.
Definition between (lo hi : nat) (c : ascii) : bool :=
  (lo <=? code c) && (code c <=? hi).

(** [str.isspace] and the regex class [\s]. *)
Definition isspace (c : ascii) : bool :=
  between 9 13 c || between 28 32 c || (code c =? 133) || (code c =? 160).

Definition is_upper_az (c : ascii) : bool := between 65 90 c.
Definition is_lower_az (c : ascii) : bool := between 97 122 c.
(** The regex class [[a-zA-Z]]. *)
Definition is_alpha_az (c : ascii) : bool := is_upper_az c || is_lower_az c.
Definition is_digit (c : ascii) : bool := between 48 57 c.

(** The regex class [\w] of a [str] pattern: alphanumeric characters in
    the sense of Unicode, and the underscore. *)
Definition is_word (c : ascii) : bool :=
  is_alpha_az c || is_digit c || (code c =? 95)
  || (code c =? 170) || between 178 179 c || (code c =? 181)
  || between 185 186 c || between 188 190 c
  || between 192 214 c || between 216 246 c || between 248 255 c.

(** [str.lower], character by character. *)
Definition lower_char (c : ascii) : ascii :=
  if is_upper_az c || between 192 214 c || between 216 222 c
  then ascii_of_nat (code c + 32) else c.
Definition lower (s : string) : string := str (map lower_char (chars s)).

Fixpoint dropwhile (p : ascii -> bool) (l : list ascii) : list ascii :=
  match l with
  | [] => []
  | c :: l' => if p c then dropwhile p l' else l
  end.

Definition strip_with (p : ascii -> bool) (l : list ascii) : list ascii :=
  rev (dropwhile p (rev (dropwhile p l))).

(** [s.strip()] *)
Definition strip (s : string) : string := str (strip_with isspace (chars s)).

Definition mem_char (c : ascii) (set : string) : bool :=
  existsb (Ascii.eqb c) (chars set).

(** [s.strip(set)] *)
Definition strip_chars (set s : string) : string :=
  str (strip_with (fun c => mem_char c set) (chars s)).

(** [s.split()]: the maximal runs of characters that are not white
    space. [cur] is the current run, last character first. *)
Fixpoint split_from (cur : list ascii) (l : list ascii) : list string :=
  match l with
  | [] => match cur with [] => [] | _ => [str (rev cur)] end
  | c :: l' =>
      if isspace c
      then match cur with
           | [] => split_from [] l'
           | _ => str (rev cur) :: split_from [] l'
           end
      else split_from (c :: cur) l'
  end.
Definition split (s : string) : list string := split_from [] (chars s).

Definition len (s : string) : nat := String.length s.

(** [s.startswith(p)], [s.endswith(p)], [p in s] *)
Definition startswith (s p : string) : bool := String.prefix p s.
Definition endswith (s p : string) : bool :=
  String.prefix (String.rev p) (String.rev s).
Fixpoint contains (p s : string) : bool :=
  String.prefix p s ||
  match s with
  | EmptyString => false
  | String _ s' => contains p s'
  end.

(** [sep.join(l)] *)
Fixpoint join (sep : string) (l : list string) : string :=
  match l with
  | [] => ""
  | [s] => s
  | s :: l' => s +:+ sep +:+ join sep l'
  end.

(** [str(n)] for a natural number, and [chr(n)]. *)
Definition of_nat (n : nat) : string := NilZero.string_of_uint (Nat.to_uint n).
Definition chr (n : nat) : string := String (ascii_of_nat n) "".

(** [x in l] for a list of strings. *)
Definition mem (x : string) (l : list string) : bool :=
  bool_decide (x ∈ l).

End Py.

(** ** The outside world and the monad of effects *)

Set Warnings "-register-all".

(** A Python [float]: a finite one is idealised as the rational number it
    stands for. *)
Inductive PyFloat :=
| Finite (x : Q)
| Infinity (negative : bool)
| NaN.

(** A value as [json.loads] builds it: [None], a [bool], an [int], a
    [float], a [str], a [list], or a [dict] whose keys are of type [str].
    The members of a [dict] are listed in the order of the text; where a key
    occurs again, the [dict] holds the later value. An entry of the array
    Gemini answers with is any such value. *)
Inductive JSON :=
| JNull
| JBool (b : bool)
| JInt (n : Z)
| JFloat (x : PyFloat)
| JString (s : string)
| JArray (items : list JSON)
| JObject (members : list (string * JSON)).

(** What [_create_gemini_prompt] writes into its template: the prompt sent
    to Gemini is a fixed text around these five values. *)
Record GeminiPrompt := mkGeminiPrompt {
  p_text : list string;
  p_num_questions : Z;
  p_difficulty : string;
  p_subject_area : string;
  p_bloom_level : string
}.

(** What [model.generate_content] followed by [_parse_gemini_response] can
    yield: an exception of the service, an empty response, or the parsed
    array (empty when the text holds no JSON array). *)
Inductive GeminiReply :=
| GeminiError
| GeminiEmpty
| GeminiParsed (entries : list JSON).

Record World := mkWorld {
  (** Flan-T5: the decoded text for the n-th call on a prompt; [None] when
      tokenizer or model raise. *)
  w_model : nat -> string -> option string;
  w_model_calls : nat;
  (** Gemini: the reply to the n-th call. *)
  w_gemini : nat -> GeminiPrompt -> GeminiReply;
  w_gemini_calls : nat;
  (** The random number generator: an endless supply of naturals. *)
  w_entropy : nat -> nat;
  w_draws : nat
}.

(** The number of calls made so far to an external generation service. *)
Definition external_calls (w : World) : nat := w_model_calls w + w_gemini_calls w.

Inductive Res (A : Type) :=
| Ok (a : A)
| Raise (exn : string).
Arguments Ok {A} a.
Arguments Raise {A} exn.

Definition M (A : Type) : Type := World -> Res A * World.

Definition ret {A} (a : A) : M A := fun w => (Ok a, w).
Definition raise {A} (e : string) : M A := fun w => (Raise e, w).
Definition bind {A B} (m : M A) (k : A -> M B) : M B :=
  fun w => match m w with
           | (Ok a, w') => k a w'
           | (Raise e, w') => (Raise e, w')
           end.
Definition try_except {A} (m : M A) (handler : string -> M A) : M A :=
  fun w => match m w with
           | (Ok a, w') => (Ok a, w')
           | (Raise e, w') => handler e w'
           end.

Global Instance M_ret : MRet M := @ret.
Global Instance M_bind : MBind M := fun A B k m => bind m k.

(** Code that can raise but touches nothing outside. *)
Global Instance Res_ret : MRet Res := @Ok.
Global Instance Res_bind : MBind Res := fun A B k r =>
  match r with
  | Ok a => k a
  | Raise e => Raise e
  end.
Definition catch {A} (r : Res A) (handler : string -> Res A) : Res A :=
  match r with
  | Ok a => Ok a
  | Raise e => handler e
  end.

(** Code that touches nothing outside, run where effects are allowed. *)
Definition lift {A} (r : Res A) : M A := fun w => (r, w).

(** [for x in l: body x acc], threading the accumulator. *)
Fixpoint for_each {A S} (l : list A) (body : A -> S -> M S) (acc : S) : M S :=
  match l with
  | [] => ret acc
  | x :: l' => acc' ← body x acc; for_each l' body acc'
  end.

(** ** The [random] module *)

Module Random.

(** [_randbelow(n)] for [n > 0]. *)
Definition randbelow (n : nat) : M nat := fun w =>
  (Ok (w_entropy w (w_draws w) mod n),
   mkWorld (w_model w) (w_model_calls w) (w_gemini w) (w_gemini_calls w)
           (w_entropy w) (S (w_draws w))).

(** [x[i], x[j] = x[j], x[i]] *)
Definition swap {A} (i j : nat) (x : list A) : list A :=
  match x !! i, x !! j with
  | Some a, Some b => <[j:=a]> (<[i:=b]> x)
  | _, _ => x
  end.

(** [for i in reversed(range(1, n + 1)): j = randbelow(i + 1); swap] *)
Fixpoint shuffle_down {A} (n : nat) (x : list A) : M (list A) :=
  match n with
  | 0 => ret x
  | S n' => j ← randbelow (S n); shuffle_down n' (swap n j x)
  end.

(** [random.shuffle(x)]; the list shuffled in place is the result. *)
Definition shuffle {A} (x : list A) : M (list A) :=
  shuffle_down (length x - 1) x.

(** [random.choice(seq)] *)
Definition choice {A} (seq : list A) : M A :=
  match seq with
  | [] => raise "IndexError"
  | _ => i ← randbelow (length seq);
         match seq !! i with
         | Some a => ret a
         | None => raise "IndexError"
         end
  end.

(** [random.randint(a, b)] for [a <= b]. *)
Definition randint (a b : Z) : M Z :=
  k ← randbelow (Z.to_nat (b - a + 1)); ret (a + Z.of_nat k)%Z.

End Random.

(** ** Question records *)

(** The dictionaries the generators build. The first six keys are always
    set; the others only by some generators. *)
Record Question := mkQuestion {
  question : string;
  options : list string;
  correct_answer : string;
  explanation : string;
  difficulty : string;
  bloom_level : string;
  subject_area : option string;
  key_concept : option string;
  question_id : option Z;
  category : option string;
  created_at : option string
}.

(** The dictionary [_structure_question] of gemini_generator.py builds.
    Question, explanation and difficulty are strings, the results of
    [strip] and [lower]; options, correct answer, Bloom level and category
    are values of Gemini's reply, of whatever type they are there. *)
Record StructuredQuestion := mkStructuredQuestion {
  s_id : Z;
  s_question : string;
  s_options : JSON;
  s_correct_answer : JSON;
  s_explanation : string;
  s_difficulty : string;
  s_bloom_level : JSON;
  s_category : JSON;
  s_subject_area : string;
  s_created_at : string
}.

(** A dictionary in the list [generate_mcq] of gemini_generator.py returns:
    one that [_generate_mock_questions] built, whose values have the types
    of [Question], or one that [_structure_question] built. *)
Inductive GeminiQuestion :=
| Mocked (q : Question)
| Structured (q : StructuredQuestion).

(** [range(n)] for a Python integer. *)
Definition range (n : Z) : list nat := seq 0 (Z.to_nat n).

(** ** Python's operations on the values of a parsed JSON text *)

Module Json.

(** [d[key]] where it is set, for the members of a [dict]. *)
Fixpoint dict_get {A} (key : string) (members : list (string * A)) : option A :=
  match members with
  | [] => None
  | (k, v) :: rest =>
      match dict_get key rest with
      | Some later => Some later
      | None => if String.eqb k key then Some v else None
      end
  end.

(** The keys of a [dict], each once. *)
Definition keys {A} (members : list (string * A)) : list string :=
  remove_dups members.*1.

(** [bool], [int] and [float] are compared as numbers: [True] is 1 and
    [False] is 0. *)
Definition number (v : JSON) : option PyFloat :=
  match v with
  | JBool b => Some (Finite (inject_Z (if b then 1 else 0)))
  | JInt n => Some (Finite (inject_Z n))
  | JFloat x => Some x
  | _ => None
  end.

(** NaN is not equal to itself, but [json.loads] builds every NaN as the
    one object [json.decoder.NaN], which is the same as itself. *)
Definition same_or_equal_float (x y : PyFloat) : bool :=
  match x, y with
  | Finite a, Finite b => Qeq_bool a b
  | Infinity s, Infinity t => Bool.eqb s t
  | NaN, NaN => true
  | _, _ => false
  end.

(** [a is b or a == b], the comparison [in] makes with the entries of a
    list, and [==] makes with the entries of lists and dictionaries. *)
Fixpoint same_or_equal (a b : JSON) {struct a} : bool :=
  match a with
  | JNull => match b with JNull => true | _ => false end
  | JBool _ | JInt _ | JFloat _ =>
      match number a, number b with
      | Some x, Some y => same_or_equal_float x y
      | _, _ => false
      end
  | JString s => match b with JString t => String.eqb s t | _ => false end
  | JArray items =>
      match b with
      | JArray items' =>
          (fix all_equal (l l' : list JSON) {struct l} : bool :=
             match l, l' with
             | [], [] => true
             | x :: l, y :: l' => same_or_equal x y && all_equal l l'
             | _, _ => false
             end) items items'
      | _ => false
      end
  | JObject members =>
      match b with
      | JObject members' =>
          bool_decide (members.*1 ⊆ members'.*1)
          && bool_decide (members'.*1 ⊆ members.*1)
          && (fix all_equal (l : list (string * JSON)) {struct l} : bool :=
                match l with
                | [] => true
                | (k, v) :: rest =>
                    (if bool_decide (k ∈ rest.*1) then true
                     else match dict_get k members' with
                          | Some v' => same_or_equal v v'
                          | None => false
                          end)
                    && all_equal rest
                end) members
      | _ => false
      end
  end.

(** [len(v)] *)
Definition len (v : JSON) : Res nat :=
  match v with
  | JString s => Ok (Py.len s)
  | JArray items => Ok (length items)
  | JObject members => Ok (length (keys members))
  | _ => Raise "TypeError"
  end.

(** [x in v]: a substring of a [str], an entry of a [list], a key of a
    [dict]. A [str] takes only a [str] on the left, a [dict] only a value
    that can be hashed. *)
Definition contains (x v : JSON) : Res bool :=
  match v with
  | JString s =>
      match x with
      | JString p => Ok (Py.contains p s)
      | _ => Raise "TypeError"
      end
  | JArray items => Ok (existsb (same_or_equal x) items)
  | JObject members =>
      match x with
      | JArray _ | JObject _ => Raise "TypeError"
      | JString k => Ok (bool_decide (k ∈ members.*1))
      | _ => Ok false
      end
  | _ => Raise "TypeError"
  end.

(** [v[key]] for a key that is a [str]. *)
Definition getitem (v : JSON) (key : string) : Res JSON :=
  match v with
  | JObject members =>
      match dict_get key members with
      | Some x => Ok x
      | None => Raise "KeyError"
      end
  | _ => Raise "TypeError"
  end.

(** [v.get(key, default)] *)
Definition get (v : JSON) (key : string) (default : JSON) : Res JSON :=
  match v with
  | JObject members =>
      match dict_get key members with
      | Some x => Ok x
      | None => Ok default
      end
  | _ => Raise "AttributeError"
  end.

(** [v.strip()] and [v.lower()] *)
Definition strip (v : JSON) : Res string :=
  match v with
  | JString s => Ok (Py.strip s)
  | _ => Raise "AttributeError"
  end.
Definition lower (v : JSON) : Res string :=
  match v with
  | JString s => Ok (Py.lower s)
  | _ => Raise "AttributeError"
  end.

(** [all(key in v for key in keys)]: the tests stop at the first key that
    is not found. *)
Fixpoint all_in (required : list string) (v : JSON) : Res bool :=
  match required with
  | [] => Ok true
  | key :: required' =>
      match contains (JString key) v with
      | Ok true => all_in required' v
      | Ok false => Ok false
      | Raise e => Raise e
      end
  end.

End Json.

(** ** processors.py *)

Module Processors.
Import Py.

(** [re.sub(r'\s+', ' ', text)]: every maximal run of white space becomes
    one space. [in_run] tells that the previous character was white space. *)
Fixpoint collapse_spaces (in_run : bool) (l : list ascii) : list ascii :=
  match l with
  | [] => []
  | c :: l' =>
      if isspace c
      then if in_run then collapse_spaces true l'
           else " "%char :: collapse_spaces true l'
      else c :: collapse_spaces false l'
  end.

(** [re.sub(r'[^\w\s.!?,-]', '', text)] *)
Definition keep_basic (l : list ascii) : list ascii :=
  filter (fun c => is_word c || isspace c || mem_char c ".!?,-") l.

(** [re.sub(r'[p]{2,}', 'p', text)]: a run of two or more [p] becomes one. *)
Fixpoint squeeze (p : ascii) (in_run : bool) (l : list ascii) : list ascii :=
  match l with
  | [] => []
  | c :: l' =>
      if Ascii.eqb c p
      then if in_run then squeeze p true l' else c :: squeeze p true l'
      else c :: squeeze p false l'
  end.

(** [re.sub(r'([.!?])([A-Z])', r'\1 \2', text)] *)
Fixpoint space_after_punct (l : list ascii) : list ascii :=
  match l with
  | [] => []
  | c :: l' =>
      match l' with
      | d :: _ =>
          if mem_char c ".!?" && is_upper_az d
          then c :: " "%char :: space_after_punct l'
          else c :: space_after_punct l'
      | [] => [c]
      end
  end.

Definition clean_text (text : string) : string :=
  let text := collapse_spaces false (chars text) in
  let text := keep_basic text in
  let text := squeeze "."%char false text in
  let text := squeeze "!"%char false text in
  let text := squeeze "?"%char false text in
  let text := space_after_punct text in
  strip (str text).

(** [re.split(r'[.!?]+', s)]: the pieces between the runs of terminal
    punctuation, empty pieces at both ends included. *)
Fixpoint re_split_punct (cur : list ascii) (in_sep : bool) (l : list ascii)
  : list string :=
  match l with
  | [] => [str (rev cur)]
  | c :: l' =>
      if mem_char c ".!?"
      then if in_sep then re_split_punct [] true l'
           else str (rev cur) :: re_split_punct [] true l'
      else re_split_punct (c :: cur) false l'
  end.

Definition nonempty (s : string) : bool :=
  match s with EmptyString => false | _ => true end.

(** [[s.strip() for s in re.split(...) if s.strip()]] *)
Definition sentences_of (cleaned_text : string) : list string :=
  map strip
    (filter (fun s => nonempty (strip s))
       (re_split_punct [] false (chars cleaned_text))).

Definition chunk_text_of (current_chunk : list string) : string :=
  join ". " current_chunk +:+ ".".

(** The variables of the loop of [preprocess_text]. *)
Record ChunkState := mkChunkState {
  chunks : list string;
  current_chunk : list string;
  current_word_count : nat
}.

(** One turn of [for sentence in sentences]. *)
Definition chunk_step (st : ChunkState) (sentence : string) : ChunkState :=
  let sentence_word_count := length (split sentence) in
  if (300 <? current_word_count st + sentence_word_count)
     && negb (bool_decide (current_chunk st = []))
  then
    mkChunkState
      (if 200 <=? current_word_count st
       then chunks st ++ [chunk_text_of (current_chunk st)]
       else chunks st)
      [sentence]
      sentence_word_count
  else
    mkChunkState
      (chunks st)
      (current_chunk st ++ [sentence])
      (current_word_count st + sentence_word_count).

(** The chunks collected when the loop and the test on the last chunk are
    over, before the fall-back to the whole text. *)
Definition grouped_chunks (sentences : list string) : list string :=
  let st := fold_left chunk_step sentences (mkChunkState [] [] 0) in
  if negb (bool_decide (current_chunk st = [])) && (200 <=? current_word_count st)
  then chunks st ++ [chunk_text_of (current_chunk st)]
  else chunks st.

Definition preprocess_text (text : string) : list string :=
  let cleaned_text := clean_text text in
  let sentences := sentences_of cleaned_text in
  match grouped_chunks sentences with
  | [] => [cleaned_text]
  | chunks => chunks
  end.

(** The word counts of the chunks the loop accumulates, in order: the value
    of [current_word_count] each time a chunk is closed (a sentence would
    take it past 300 words) and when the sentences run out. These are the
    counts the source compares with 200. *)
Fixpoint accumulated_counts (cur : list string) (count : nat)
  (sentences : list string) : list nat :=
  match sentences with
  | [] => match cur with [] => [] | _ => [count] end
  | sentence :: rest =>
      let n := length (split sentence) in
      if (300 <? count + n) && negb (bool_decide (cur = []))
      then count :: accumulated_counts [sentence] n rest
      else accumulated_counts (cur ++ [sentence]) (count + n) rest
  end.

Definition stop_words : list string :=
  ["the"; "a"; "an"; "and"; "or"; "but"; "in"; "on"; "at"; "to"; "for"; "of"; "with"; "by";
   "is"; "are"; "was"; "were"; "be"; "been"; "being"; "have"; "has"; "had"; "do"; "does"; "did";
   "will"; "would"; "could"; "should"; "may"; "might"; "can"; "this"; "that"; "these"; "those";
   "i"; "you"; "he"; "she"; "it"; "we"; "they"; "me"; "him"; "her"; "us"; "them"; "my"; "your";
   "his"; "its"; "our"; "their"; "from"; "up"; "about"; "into"; "through"; "during"; "before";
   "after"; "above"; "below"; "between"; "among"; "around"; "near"; "far"; "here"; "there";
   "where"; "when"; "why"; "how"; "what"; "which"; "who"; "whom"; "whose"; "if"; "unless";
   "while"; "although"; "because"; "since"; "so"; "than"; "such"; "both"; "either"; "neither"].

(** The maximal runs of [\w] characters. [cur] is the current run, last
    character first. *)
Fixpoint word_runs (cur : list ascii) (l : list ascii) : list (list ascii) :=
  match l with
  | [] => match cur with [] => [] | _ => [rev cur] end
  | c :: l' =>
      if is_word c then word_runs (c :: cur) l'
      else match cur with
           | [] => word_runs [] l'
           | _ => rev cur :: word_runs [] l'
           end
  end.

(** [re.findall(r'\b[a-zA-Z]{2,}\b', s)]. A word boundary [\b] lies between
    a [\w] character and a character that is not one (or an end of the
    string), and every letter is a [\w] character: a match starts at the
    beginning of a maximal [\w] run, takes letters only and has to end where
    the run ends. So the matches are the [\w] runs made of two or more
    letters, and nothing is found inside a run holding a digit, an
    underscore or an accented letter. *)
Definition is_token (run : list ascii) : bool :=
  forallb is_alpha_az run && (2 <=? length run).
Definition findall_words (s : string) : list string :=
  map str (filter is_token (word_runs [] (chars s))).

(** [Counter(words)]: a dictionary, so the keys keep the order in which
    they were first seen. *)
Fixpoint count_add (word : string) (counts : list (string * nat))
  : list (string * nat) :=
  match counts with
  | [] => [(word, 1)]
  | (k, n) :: counts' =>
      if String.eqb k word then (k, S n) :: counts'
      else (k, n) :: count_add word counts'
  end.
Definition Counter (words : list string) : list (string * nat) :=
  fold_left (fun counts word => count_add word counts) words [].

Definition Qlt_bool (a b : Q) : bool := negb (Qle_bool b a).

(** [sorted(items, key=lambda x: x[1], reverse=True)]: a stable sort, the
    greatest score first; entries of equal score keep their order. *)
Fixpoint insert_desc (x : string * Q) (l : list (string * Q)) : list (string * Q) :=
  match l with
  | [] => [x]
  | y :: l' => if Qlt_bool (snd x) (snd y) then y :: insert_desc x l' else x :: l
  end.
Definition sorted_desc (l : list (string * Q)) : list (string * Q) :=
  foldr insert_desc [] l.

Section KeyConcepts.

(** [math.log] *)
Variable ln : Q -> Q.

Definition tf_idf (total_words freq : nat) : Q :=
  let tf := (inject_Z (Z.of_nat freq) / inject_Z (Z.of_nat total_words))%Q in
  let idf := if 0 <? freq
             then ln (inject_Z (Z.of_nat total_words) / inject_Z (Z.of_nat freq))%Q
             else 0%Q in
  (tf * idf)%Q.

Definition extract_key_concepts (text : string) : list string :=
  let cleaned_text := clean_text (lower text) in
  let words := findall_words cleaned_text in
  let meaningful_words :=
    filter (fun word => negb (mem word stop_words) && (2 <? len word)) words in
  let word_freq := Counter meaningful_words in
  let total_words := length meaningful_words in
  let scores := map (fun '(word, freq) => (word, tf_idf total_words freq)) word_freq in
  let top_concepts := take 10 (sorted_desc scores) in
  map fst top_concepts.

End KeyConcepts.

End Processors.

(** ** prompts.py *)

Module Prompts.
Import Py.

(** [d.get(key)] for a dictionary written as a literal. *)
Fixpoint lookup_key {V} (key : string) (d : list (string * V)) : option V :=
  match d with
  | [] => None
  | (k, v) :: d' => if String.eqb k key then Some v else lookup_key key d'
  end.

Definition QUESTION_PROMPT (text : string) : string :=
  "Create a multiple choice question testing understanding of: " +:+ text.

Definition DISTRACTOR_PROMPT (correct_answer context : string) : string :=
  "Generate 3 incorrect but plausible answers for: " +:+ correct_answer
  +:+ " Context: " +:+ context.

Definition EXPLANATION_PROMPT (answer question : string) : string :=
  "Explain why " +:+ answer +:+ " is correct for question: " +:+ question.

(** An entry of [ENHANCED_QUESTION_PROMPTS]; [template] is the format string
    applied to its two fields. *)
Record PromptConfig := mkPromptConfig {
  template : string -> string -> string;
  focus : string;
  bloom_levels : list string;
  instructions : string
}.

Definition ENHANCED_QUESTION_PROMPTS : list (string * PromptConfig) :=
  [("easy", mkPromptConfig
      (fun focus text => "Create a simple multiple choice question that tests "
                         +:+ focus +:+ " from this text: " +:+ text)
      "basic facts and recall"
      ["Remember"; "Understand"]
      "Focus on who, what, where, when questions. Use direct facts from the text.");
   ("medium", mkPromptConfig
      (fun focus text => "Create a multiple choice question that tests "
                         +:+ focus +:+ " from this text: " +:+ text)
      "conceptual understanding and application"
      ["Understand"; "Apply"]
      "Focus on why and how questions. Test comprehension and relationships between concepts.");
   ("hard", mkPromptConfig
      (fun focus text => "Create a challenging multiple choice question that tests "
                         +:+ focus +:+ " from this text: " +:+ text)
      "critical analysis and evaluation"
      ["Analyze"; "Evaluate"; "Create"]
      "Focus on analysis, synthesis, and evaluation. Require deep thinking and inference.");
   ("mixed", mkPromptConfig
      (fun focus text => "Create multiple choice questions that test "
                         +:+ focus +:+ " from this text: " +:+ text)
      "various cognitive levels from basic recall to critical analysis"
      ["Remember"; "Understand"; "Apply"; "Analyze"]
      "Create questions of varying difficulty levels, from basic facts to analytical thinking.")].

Definition ENHANCED_DISTRACTOR_PROMPTS : list (string * (string -> string -> string)) :=
  [("conceptual", fun correct_answer context =>
      "Generate 3 incorrect but conceptually related answers for '" +:+ correct_answer
      +:+ "'. Make them plausible but clearly wrong when analyzed. Context: " +:+ context);
   ("factual", fun correct_answer context =>
      "Generate 3 incorrect but factually similar answers for '" +:+ correct_answer
      +:+ "'. Use related numbers, dates, or names that could confuse students. Context: "
      +:+ context);
   ("analytical", fun correct_answer context =>
      "Generate 3 incorrect but logically structured answers for '" +:+ correct_answer
      +:+ "'. Make them sound reasonable but contain subtle errors. Context: " +:+ context)].

Definition ENHANCED_EXPLANATION_PROMPTS : list (string * (string -> string -> string)) :=
  [("basic", fun answer question =>
      "Provide a clear, simple explanation for why '" +:+ answer
      +:+ "' is the correct answer to the question: '" +:+ question
      +:+ "'. Reference the source text.");
   ("detailed", fun answer question =>
      "Provide a comprehensive explanation for why '" +:+ answer
      +:+ "' is correct for: '" +:+ question
      +:+ "'. Include relevant context and explain why other options are incorrect.");
   ("analytical", fun answer question =>
      "Provide an analytical explanation for why '" +:+ answer
      +:+ "' is the best answer to: '" +:+ question
      +:+ "'. Discuss the reasoning process and key concepts involved.")].

Definition BLOOM_QUESTION_STARTERS : list (string * list string) :=
  [("Remember", ["What is"; "Who was"; "When did"; "Where is"; "Which of the following";
                 "Define"; "List"; "Name"; "Identify"; "State"]);
   ("Understand", ["Explain why"; "Describe how"; "What does this mean"; "Summarize";
                   "Compare"; "Contrast"; "Interpret"; "Paraphrase"]);
   ("Apply", ["How would you use"; "What would happen if"; "Apply the concept";
              "Demonstrate"; "Solve"; "Show how"; "Use this information"]);
   ("Analyze", ["Why do you think"; "What evidence supports"; "What are the parts";
                "Analyze"; "Examine"; "What factors"; "Break down"]);
   ("Evaluate", ["Which is better"; "Judge the value"; "What criteria would you use";
                 "Evaluate"; "Critique"; "Justify"; "Assess"]);
   ("Create", ["Design a"; "Create a new"; "What would you propose";
               "Develop"; "Formulate"; "Construct"; "Generate"])].

Definition get_difficulty_prompt (difficulty text : string) : string :=
  let difficulty := lower difficulty in
  match lookup_key difficulty ENHANCED_QUESTION_PROMPTS with
  | Some prompt_config => template prompt_config (focus prompt_config) text
  | None => QUESTION_PROMPT text
  end.

(** [levels[0]]: the lists of the table are not empty. *)
Definition get_bloom_level_for_difficulty (difficulty : string) : string :=
  let difficulty := lower difficulty in
  match lookup_key difficulty ENHANCED_QUESTION_PROMPTS with
  | Some prompt_config => nth 0 (bloom_levels prompt_config) ""
  | None => "Understand"
  end.

Definition get_distractor_prompt (distractor_type correct_answer context : string)
  : string :=
  match lookup_key distractor_type ENHANCED_DISTRACTOR_PROMPTS with
  | Some format => format correct_answer context
  | None => DISTRACTOR_PROMPT correct_answer context
  end.

Definition get_explanation_prompt (explanation_type answer question : string)
  : string :=
  match lookup_key explanation_type ENHANCED_EXPLANATION_PROMPTS with
  | Some format => format answer question
  | None => EXPLANATION_PROMPT answer question
  end.

(** [sum(1 for keyword in keywords if keyword in text_lower)] *)
Definition count_keywords (keywords : list string) (text_lower : string) : nat :=
  length (filter (fun keyword => contains keyword text_lower) keywords).

Definition detect_subject_area (text : string) : string :=
  let text_lower := lower text in
  let science_keywords := ["experiment"; "hypothesis"; "theory"; "analysis"; "scientific";
                           "research"; "study"; "data"; "observation"; "method"] in
  let history_keywords := ["century"; "war"; "empire"; "historical"; "period"; "era";
                           "ancient"; "revolution"; "society"; "civilization"] in
  let literature_keywords := ["character"; "theme"; "plot"; "author"; "literary"; "novel";
                              "story"; "poem"; "narrative"; "symbolism"] in
  let science_count := count_keywords science_keywords text_lower in
  let history_count := count_keywords history_keywords text_lower in
  let literature_count := count_keywords literature_keywords text_lower in
  let max_count := Nat.max (Nat.max science_count history_count) literature_count in
  if 2 <=? max_count then
    if science_count =? max_count then "science"
    else if history_count =? max_count then "history"
    else if literature_count =? max_count then "literature"
    else "general"
  else "general".

End Prompts.

(** ** Regular expressions of generator.py *)

Module Regex.
Import Py.

(** A literal at the start of [l]; the rest of [l] when it is there. *)
Fixpoint literal (p l : list ascii) : option (list ascii) :=
  match p with
  | [] => Some l
  | a :: p' =>
      match l with
      | c :: l' => if Ascii.eqb c a then literal p' l' else None
      | [] => None
      end
  end.

(** The same under [re.IGNORECASE]. *)
Fixpoint literal_ci (p l : list ascii) : option (list ascii) :=
  match p with
  | [] => Some l
  | a :: p' =>
      match l with
      | c :: l' =>
          if Ascii.eqb (lower_char c) (lower_char a) then literal_ci p' l' else None
      | [] => None
      end
  end.

(** [[A-D]] under [re.IGNORECASE]. *)
Definition is_A_to_D (c : ascii) : bool := between 65 68 c || between 97 100 c.

(** [re.sub(r'^(Question:|Q:)\s*', '', s)] *)
Definition strip_label (l : list ascii) : list ascii :=
  match literal (chars "Question:") l with
  | Some rest => dropwhile isspace rest
  | None =>
      match literal (chars "Q:") l with
      | Some rest => dropwhile isspace rest
      | None => l
      end
  end.

(** Does [Options?:\s*[A-D]\..*$] match at the start of [l]? Under
    [re.DOTALL] the tail [.*$] matches whatever follows. *)
Definition options_section (l : list ascii) : bool :=
  match literal_ci (chars "Option") l with
  | Some rest =>
      let rest := match rest with
                  | c :: rest' => if Ascii.eqb (lower_char c) "s"%char then rest' else rest
                  | [] => rest
                  end in
      match rest with
      | ":"%char :: rest' =>
          match dropwhile isspace rest' with
          | c :: "."%char :: _ => is_A_to_D c
          | _ => false
          end
      | _ => false
      end
  | None => false
  end.

(** Does [Answer:\s*[A-D].*$] match at the start of [l]? *)
Definition answer_section (l : list ascii) : bool :=
  match literal_ci (chars "Answer:") l with
  | Some rest =>
      match dropwhile isspace rest with
      | c :: _ => is_A_to_D c
      | [] => false
      end
  | None => false
  end.

(** [re.sub(pattern, '', s)] for a pattern that, where it matches, matches
    up to the end of [s]: the text before the leftmost match is kept. *)
Fixpoint cut_at (matches : list ascii -> bool) (l : list ascii) : list ascii :=
  match l with
  | [] => []
  | c :: l' => if matches l then [] else c :: cut_at matches l'
  end.

End Regex.

(** ** generator.py: class QuestionGenerator *)

Module Generator.
Import Py Processors Prompts Regex.

Definition model_called (w : World) : World :=
  mkWorld (w_model w) (S (w_model_calls w)) (w_gemini w) (w_gemini_calls w)
          (w_entropy w) (w_draws w).

(** Tokenizer, [model.generate] and decoding: one call of the text model,
    which raises or yields a text. *)
Definition model_generate (prompt : string) : M string := fun w =>
  match w_model w (w_model_calls w) prompt with
  | Some generated_text => (Ok generated_text, model_called w)
  | None => (Raise "Exception", model_called w)
  end.

Definition _generate_text (prompt : string) (max_length : nat) : M string :=
  try_except
    (generated_text ← model_generate prompt;
     mret (strip generated_text))
    (fun _ => mret "Generated content").

Definition _clean_question_text (question_text : string) : string :=
  let question_text := str (strip_label (chars (strip question_text))) in
  let question_text :=
    if negb (endswith question_text "?") then question_text +:+ "?"
    else question_text in
  let question_text := str (cut_at options_section (chars question_text)) in
  let question_text := str (cut_at answer_section (chars question_text)) in
  strip question_text.

(** [while len(distractors) < 3: distractors.append(...)]; three turns are
    enough, as every turn makes the list longer. *)
Fixpoint pad_distractors (turns : nat) (distractors : list string) : list string :=
  match turns with
  | 0 => distractors
  | S turns' =>
      if length distractors <? 3
      then pad_distractors turns'
             (distractors ++ ["Additional option " +:+ of_nat (length distractors + 1)])
      else distractors
  end.

Definition _generate_enhanced_distractors
  (correct_answer context difficulty subject_area : string) : M (list string) :=
  let distractor_type :=
    if String.eqb (lower difficulty) "easy" then "factual"
    else if String.eqb (lower difficulty) "hard" then "analytical"
    else "conceptual" in
  let distractor_prompt := get_distractor_prompt distractor_type correct_answer context in
  distractors ← for_each (range 3) (fun i distractors =>
    try_except
      (distractor_text ← _generate_text distractor_prompt 50;
       let distractor := strip distractor_text in
       if nonempty distractor
          && negb (String.eqb distractor correct_answer)
          && negb (mem distractor distractors)
       then mret (distractors ++ [distractor])
       else
         let fallback := "Alternative option " +:+ of_nat (i + 1) in
         mret (distractors ++ [fallback]))
      (fun _ =>
         let fallback := "Option " +:+ chr (66 + i) in
         mret (distractors ++ [fallback]))) [];
  let distractors := pad_distractors 3 distractors in
  mret (take 3 distractors).

Fixpoint first_starter_level (question_lower : string)
  (table : list (string * list string)) : option string :=
  match table with
  | [] => None
  | (level, starters) :: table' =>
      if existsb (fun starter => startswith question_lower (lower starter)) starters
      then Some level
      else first_starter_level question_lower table'
  end.

Definition _determine_bloom_level (question_text difficulty : string) : string :=
  let question_lower := lower question_text in
  let primary_level := get_bloom_level_for_difficulty difficulty in
  match first_starter_level question_lower BLOOM_QUESTION_STARTERS with
  | Some level => level
  | None => primary_level
  end.

Definition _generate_enhanced_explanation
  (question answer context difficulty : string) : M string :=
  let explanation_type :=
    if String.eqb (lower difficulty) "easy" then "basic"
    else if String.eqb (lower difficulty) "hard" then "analytical"
    else "detailed" in
  let explanation_prompt := get_explanation_prompt explanation_type answer question in
  explanation ← _generate_text explanation_prompt 150;
  mret (strip explanation).

(** [key_terms]: the words longer than 5 characters, stripped of
    punctuation, the first ten of them. *)
Definition key_terms_of (text : string) : list string :=
  let words := split text in
  take 10 (map (strip_chars ".,!?") (filter (fun word => 5 <? len word) words)).

Definition _generate_mock_questions (text : string) (num_questions : Z)
  : M (list Question) :=
  let key_terms := key_terms_of text in
  for_each (range num_questions) (fun i questions =>
    '(term, question_text) ←
      match key_terms with
      | _ :: _ =>
          match key_terms !! (i mod length key_terms) with
          | Some term =>
              mret (term, "What is the significance of '" +:+ term
                          +:+ "' in the given context?")
          | None => raise "IndexError"
          end
      | [] =>
          mret ("main topic", "What is the main topic discussed in question "
                              +:+ of_nat (i + 1) +:+ "?")
      end;
    let correct_answer := "Key concept related to " +:+ term in
    let distractors := ["Alternative concept A"; "Alternative concept B";
                        "Alternative concept C"] in
    options ← Random.shuffle ([correct_answer] ++ distractors);
    let explanation := "Based on the provided text, the correct answer relates to the main concepts discussed." in
    let question_data :=
      mkQuestion question_text options correct_answer explanation
                 "medium" "understand" None None None None None in
    mret (questions ++ [question_data])) [].

Section ModelPath.

(** [math.log], used by [extract_key_concepts]. *)
Variable ln : Q -> Q.

(** The body of the [try] of [generate_mcq]: one question for a chunk. *)
Definition generate_question
  (chunk : string) (chunk_concepts : list string) (q_index : nat)
  (difficulty subject_area : string) : M Question :=
  concept ←
    match chunk_concepts with
    | _ :: _ =>
        match chunk_concepts !! (q_index mod length chunk_concepts) with
        | Some concept => mret concept
        | None => raise "IndexError"
        end
    | [] => mret "main concept"
    end;
  let question_prompt := get_difficulty_prompt difficulty chunk in
  question_text ← _generate_text question_prompt 100;
  let question_text := _clean_question_text question_text in
  let answer_prompt :=
    "Based on this text about " +:+ concept +:+ ", what is the correct answer to: "
    +:+ question_text +:+ "? Context: " +:+ chunk in
  correct_answer ← _generate_text answer_prompt 50;
  let correct_answer := strip correct_answer in
  distractors ← _generate_enhanced_distractors correct_answer chunk difficulty subject_area;
  options ← Random.shuffle ([correct_answer] ++ distractors);
  let bloom_level := _determine_bloom_level question_text difficulty in
  explanation ← _generate_enhanced_explanation question_text correct_answer chunk difficulty;
  mret (mkQuestion question_text options correct_answer explanation
                   difficulty bloom_level (Some subject_area) (Some concept)
                   None None None).

(** [generate_mcq]. [analyze_text_complexity] and
    [group_questions_by_topic] are left out: they are pure, cannot raise,
    and their results are only printed. The [break] of the outer loop is a
    turn that does nothing: [remaining_questions] no longer changes once it
    is at most 0, so every later turn does nothing either. *)
Definition generate_mcq (model_loaded : bool)
  (text : string) (num_questions : Z) (difficulty : string) : M (list Question) :=
  if negb model_loaded then _generate_mock_questions text num_questions
  else
    let subject_area := detect_subject_area text in
    let text_chunks := preprocess_text text in
    if length text_chunks =? 0 then raise "ZeroDivisionError"
    else
      let questions_per_chunk :=
        Z.max 1 (num_questions / Z.of_nat (length text_chunks)) in
      '(questions, _) ←
        for_each (imap (fun chunk_index chunk => (chunk_index, chunk)) text_chunks)
          (fun '(chunk_index, chunk) '(questions, remaining_questions) =>
             if (remaining_questions <=? 0)%Z
             then mret (questions, remaining_questions)
             else
               let chunk_questions :=
                 if chunk_index =? length text_chunks - 1
                 then remaining_questions
                 else Z.min questions_per_chunk remaining_questions in
               let chunk_concepts := extract_key_concepts ln chunk in
               for_each (range chunk_questions)
                 (fun q_index '(questions, remaining_questions) =>
                    try_except
                      (question_data ← generate_question chunk chunk_concepts q_index
                                         difficulty subject_area;
                       mret (questions ++ [question_data],
                             (remaining_questions - 1)%Z))
                      (fun _ => mret (questions, remaining_questions)))
                 (questions, remaining_questions))
          ([], num_questions);
      mret questions.

End ModelPath.

End Generator.

(** ** gemini_generator.py: class GeminiQuestionGenerator *)

Module Gemini.
Import Py Processors Prompts.

Definition gemini_called (w : World) : World :=
  mkWorld (w_model w) (w_model_calls w) (w_gemini w) (S (w_gemini_calls w))
          (w_entropy w) (w_draws w).

Definition _create_gemini_prompt
  (text : list string) (num_questions : Z) (difficulty subject_area : string)
  : GeminiPrompt :=
  let bloom_level := get_bloom_level_for_difficulty difficulty in
  mkGeminiPrompt text num_questions difficulty subject_area bloom_level.

(** [model.generate_content(prompt)], with the parsing of the response. *)
Definition generate_content (prompt : GeminiPrompt) : M GeminiReply := fun w =>
  match w_gemini w (w_gemini_calls w) prompt with
  | GeminiError => (Raise "Exception", gemini_called w)
  | reply => (Ok reply, gemini_called w)
  end.

(** [_structure_question]. Every operation on [q_data] and its values is
    Python's, and raises where Python's does; the handler turns whatever is
    raised into [None]. The values of the dictionary are computed in the
    order of its keys, the id first. *)
Definition _structure_question (q_data : JSON) (difficulty subject_area : string)
  : M (option StructuredQuestion) :=
  try_except
    (complete ← lift (Json.all_in ["question"; "options"; "correct_answer";
                                   "explanation"] q_data);
     if negb complete then mret None
     else
       options ← lift (Json.getitem q_data "options");
       option_count ← lift (Json.len options);
       if negb (option_count =? 4) then mret None
       else
         correct_answer ← lift (Json.getitem q_data "correct_answer");
         found ← lift (Json.contains correct_answer options);
         if negb found then mret None
         else
           id ← Random.randint 1000 9999;
           q_question ← lift (Json.getitem q_data "question");
           q_question ← lift (Json.strip q_question);
           q_explanation ← lift (Json.getitem q_data "explanation");
           q_explanation ← lift (Json.strip q_explanation);
           q_difficulty ← lift (Json.get q_data "difficulty" (JString difficulty));
           q_difficulty ← lift (Json.lower q_difficulty);
           bloom_level ← lift (Json.get q_data "bloom_level"
                                 (JString (get_bloom_level_for_difficulty difficulty)));
           category ← lift (Json.get q_data "category" (JString subject_area));
           mret (Some (mkStructuredQuestion
                   id
                   q_question
                   options
                   correct_answer
                   q_explanation
                   q_difficulty
                   bloom_level
                   category
                   subject_area
                   "2025-09-04")))
    (fun _ => mret None).

Definition _generate_mock_questions (text : string) (num_questions : Z)
  : M (list Question) :=
  let key_terms := Generator.key_terms_of text in
  for_each (range num_questions) (fun i questions =>
    question_text ←
      match key_terms with
      | _ :: _ =>
          term ← Random.choice key_terms;
          mret ("What is the significance of " +:+ term +:+ " in the given context?")
      | [] => mret "Based on the text, which statement is most accurate?"
      end;
    let options :=
      ["Option A: Related to " +:+ default "concept" (key_terms !! 0);
       "Option B: Connected to " +:+ default "topic" (key_terms !! 1);
       "Option C: Associated with " +:+ default "subject" (key_terms !! 2);
       "Option D: Linked to " +:+ default "theme" (key_terms !! 3)] in
    match options !! 0 with
    | None => raise "IndexError"
    | Some correct_answer =>
        let question :=
          mkQuestion question_text options correct_answer
            "This is a mock explanation for demonstration purposes. The correct answer relates to the key concepts in the text."
            "medium" "understand" (Some "general") None (Some (9000 + Z.of_nat i)%Z)
            (Some "Mock Questions") (Some "2025-09-04") in
        mret (questions ++ [question])
    end) [].

(** [for i, q_data in enumerate(questions_data)] with its [break] at
    [i >= num_questions]: the loop runs over the first [num_questions]
    entries. In the handler, [text] is the list of chunks [generate_mcq]
    passes, and [_generate_mock_questions] starts with [text.split()], which
    a list does not have: the call raises [AttributeError]. *)
Definition _generate_questions_with_gemini
  (text : list string) (num_questions : Z) (difficulty subject_area : string)
  : M (list StructuredQuestion) :=
  let prompt := _create_gemini_prompt text num_questions difficulty subject_area in
  try_except
    (response ← generate_content prompt;
     match response with
     | GeminiParsed questions_data =>
         for_each (take (Z.to_nat num_questions) questions_data)
           (fun q_data questions =>
              question ← _structure_question q_data difficulty subject_area;
              match question with
              | Some question => mret (questions ++ [question])
              | None => mret questions
              end) []
     | _ => mret []
     end)
    (fun _ => raise "AttributeError").

(** [generate_mcq]. [analyze_text_complexity] is left out: it is pure,
    cannot raise, and its result is only printed. The list returned is the
    one [_generate_mock_questions] or [_generate_questions_with_gemini]
    returns. *)
Definition generate_mcq (model_loaded : bool)
  (text : string) (num_questions : Z) (difficulty : string)
  : M (list GeminiQuestion) :=
  try_except
    (if negb model_loaded
     then questions ← _generate_mock_questions text num_questions;
          mret (Mocked <$> questions)
     else
       let difficulty := lower difficulty in
       let processed_text := preprocess_text text in
       let subject_area := detect_subject_area text in
       questions ← _generate_questions_with_gemini processed_text num_questions
                     difficulty subject_area;
       mret (Structured <$> questions))
    (fun _ => questions ← _generate_mock_questions text num_questions;
              mret (Mocked <$> questions)).

End Gemini.

(** ** validator.py *)

Module Validator.
Import Py.

(** The dictionary [validate_question_quality] reads: the four keys it
    looks up, each absent ([None]) or holding a value of its type. *)
Record QuestionDict := mkQuestionDict {
  get_question : option string;
  get_options : option (list string);
  get_correct_answer : option string;
  get_explanation : option string
}.

(** The dictionary of a generated question, as [q.dict()] hands it over. *)
Definition dict_of (q : Question) : QuestionDict :=
  mkQuestionDict (Some (question q)) (Some (options q))
                 (Some (correct_answer q)) (Some (explanation q)).

Inductive Metric :=
| MInt (n : Z)
| MBool (b : bool)
| MStr (s : string).

Record ValidationResult := mkValidationResult {
  score : Z;
  feedback : string;
  quality_metrics : gmap string Metric
}.

(** [a / b] on integers: true division, which raises on a zero divisor. *)
Definition true_div (a b : Z) : Res Q :=
  if (b =? 0)%Z then Raise "ZeroDivisionError"
  else Ok (inject_Z a / inject_Z b)%Q.

(** [int(x)]: truncation towards zero. *)
Definition int_of (x : Q) : Z := Z.quot (Qnum x) (Zpos (Qden x)).

Definition Qmax0 (x : Q) : Q := if Qle_bool 0 x then x else 0%Q.

(** [len(set(options))] *)
Definition distinct_count (options : list string) : nat :=
  length (remove_dups options).

Definition check_bloom_level (question_text : string) : string :=
  let question_lower := lower question_text in
  let remember_keywords := ["what"; "when"; "where"; "who"; "define"; "list"; "name"; "identify"] in
  let understand_keywords := ["explain"; "describe"; "summarize"; "interpret"; "compare"] in
  let apply_keywords := ["apply"; "demonstrate"; "solve"; "use"; "implement"] in
  let analyze_keywords := ["analyze"; "examine"; "compare"; "contrast"; "differentiate"] in
  let evaluate_keywords := ["evaluate"; "assess"; "judge"; "critique"; "justify"] in
  let create_keywords := ["create"; "design"; "develop"; "formulate"; "construct"] in
  let any keywords := existsb (fun keyword => contains keyword question_lower) keywords in
  if any create_keywords then "create"
  else if any evaluate_keywords then "evaluate"
  else if any analyze_keywords then "analyze"
  else if any apply_keywords then "apply"
  else if any understand_keywords then "understand"
  else if any remember_keywords then "remember"
  else "understand".

Section SimilarityModel.

(** The sentence-embedding model. [None]: it could not be loaded
    ([SIMILARITY_MODEL_LOADED] is false). Otherwise a function that takes
    [all_options] and yields the cosine similarity of every entry after the
    first with the first one, or [None] when encoding or the arithmetic on
    the vectors raise. *)
Variable similarity_model : option (list string -> option (list Q)).

Definition distractor_points (similarity : Q) : Q :=
  if Qle_bool (3 # 10) similarity && Qle_bool similarity (7 # 10) then 100%Q
  else if Processors.Qlt_bool similarity (3 # 10)
       then Qmax0 (100 - ((3 # 10) - similarity) * 200)%Q
       else Qmax0 (100 - (similarity - (7 # 10)) * 300)%Q.

Definition Qsum (l : list Q) : Q := foldr Qplus 0%Q l.

(** [np.mean(scores)] *)
Definition mean (scores : list Q) : Res Q :=
  match scores with
  | [] => Raise "ValueError"
  | _ => Ok (Qsum scores / inject_Z (Z.of_nat (length scores)))%Q
  end.

Definition score_distractor_quality (options : list string) (correct_answer : string)
  : Res Z :=
  match similarity_model with
  | None => Ok 70%Z
  | Some cosine_similarities =>
      catch
        (let distractors :=
           filter (fun opt => negb (String.eqb opt correct_answer)) options in
         if length distractors =? 0 then Ok 0%Z
         else
           let all_options := [correct_answer] ++ distractors in
           match cosine_similarities all_options with
           | None => Raise "Exception"
           | Some similarities =>
               let scores := map distractor_points similarities in
               match scores with
               | [] => Ok 50%Z
               | _ => m ← mean scores; Ok (int_of m)
               end
           end)
        (fun _ => Ok 70%Z)
  end.

(** The penalties of [validate_question_quality] are applied one after the
    other to the pair of [score] and [feedback]. *)
Definition penalise (violated : bool) (points : Z) (message : string)
  (acc : Z * list string) : Z * list string :=
  if violated then (fst acc - points, snd acc ++ [message])%Z else acc.

Definition validate_question_quality (question : QuestionDict) : Res ValidationResult :=
  let quality_metrics : gmap string Metric := ∅ in
  let question_text := default "" (get_question question) in
  let options := default [] (get_options question) in
  let correct_answer := default "" (get_correct_answer question) in
  let explanation := default "" (get_explanation question) in
  let acc := (100%Z, []) in
  let acc := penalise (negb (endswith question_text "?")) 10
               "Question should end with question mark" acc in
  let acc := penalise (len question_text <? 10) 20 "Question too short" acc in
  let acc := penalise (200 <? len question_text) 10 "Question too long" acc in
  let acc := penalise (negb (length options =? 4)) 30
               ("Should have 4 options, found " +:+ of_nat (length options)) acc in
  let acc := penalise (negb (mem correct_answer options)) 40
               "Correct answer not found in options" acc in
  let acc := penalise (negb (distinct_count options =? length options)) 25
               "Duplicate options found" acc in
  avg_option_length ←
    match options with
    | _ :: _ => true_div (Z.of_nat (list_sum (map len options)))
                         (Z.of_nat (length options))
    | [] => Ok 0%Q
    end;
  let acc := penalise (Processors.Qlt_bool avg_option_length 5) 15
               "Options too short" acc in
  let acc := penalise (len explanation <? 10) 10 "Explanation too short" acc in
  '(acc, quality_metrics) ←
    (if 4 <=? length options then
       distractor_score ← score_distractor_quality options correct_answer;
       Ok (penalise (distractor_score <? 50)%Z 20 "Poor quality distractors" acc,
           <["distractor_quality" := MInt distractor_score]> quality_metrics)
     else Ok (acc, quality_metrics));
  let bloom_level := check_bloom_level question_text in
  let quality_metrics := <["bloom_level" := MStr bloom_level]> quality_metrics in
  let score := Z.max 0 (Z.min 100 (fst acc)) in
  let feedback := snd acc in
  let quality_metrics :=
    <["unique_options" := MBool (distinct_count options =? length options)]>
    (<["has_question_mark" := MBool (endswith question_text "?")]>
    (<["explanation_length" := MInt (Z.of_nat (len explanation))]>
    (<["option_count" := MInt (Z.of_nat (length options))]>
    (<["question_length" := MInt (Z.of_nat (len question_text))]>
     quality_metrics)))) in
  Ok (mkValidationResult
        score
        (match feedback with
         | [] => "Good quality question"
         | _ => join "; " feedback
         end)
        quality_metrics).

(** [for question in questions: results.append(validate_question_quality(question))];
    an exception would leave the function at once. *)
Fixpoint validate_multiple_questions (questions : list QuestionDict)
  : Res (list ValidationResult) :=
  match questions with
  | [] => Ok []
  | question :: rest =>
      validation_result ← validate_question_quality question;
      results ← validate_multiple_questions rest;
      Ok (validation_result :: results)
  end.

End SimilarityModel.

End Validator.

(** ** Vocabulary of the specification *)

(** The invariants of a question record: four options, pairwise distinct,
    the correct answer one of them. *)
Definition well_formed (q : Question) : Prop :=
  length (options q) = 4 /\ correct_answer q ∈ options q /\ NoDup (options q).

(** No external generation service was called between [w] and [w']. *)
Definition no_external_call (w w' : World) : Prop :=
  external_calls w' = external_calls w.

(** A world for a run: the replies of the text model, those of Gemini, and
    the random numbers. *)
Definition world_of (model : nat -> string -> option string)
  (gemini : nat -> GeminiPrompt -> GeminiReply) (entropy : nat -> nat) : World :=
  mkWorld model 0 gemini 0 entropy 0.

(** A record of the fall-back generators: well formed, of difficulty
    "medium" and Bloom level "understand". *)
Definition mock_record (q : Question) : Prop :=
  well_formed q /\ difficulty q = "medium" /\ bloom_level q = "understand".

(** The part of [well_formed] that every generator achieves. *)
Definition has_shape (q : Question) : Prop :=
  length (options q) = 4 /\ correct_answer q ∈ options q.

(** The test [preprocess_text] makes on the last chunk, after its loop. *)
Definition close_last (st : Processors.ChunkState) : list string :=
  if negb (bool_decide (Processors.current_chunk st = []))
     && (200 <=? Processors.current_word_count st)
  then Processors.chunks st
       ++ [Processors.chunk_text_of (Processors.current_chunk st)]
  else Processors.chunks st.

(** The value an entry of Gemini's reply has for a key: [None] when the
    entry is not a dictionary, or is one without the key. *)
Definition member (key : string) (q_data : JSON) : option JSON :=
  match q_data with
  | JObject members => Json.dict_get key members
  | _ => None
  end.

(** An entry gets through the three checks of [_structure_question]: it is
    a dictionary with the four required keys, its options have length 4,
    and its correct answer is in them, by Python's [len] and [in]. *)
Definition passes_checks (q_data : JSON) : bool :=
  match member "question" q_data, member "options" q_data,
        member "correct_answer" q_data, member "explanation" q_data with
  | Some _, Some options, Some correct_answer, Some _ =>
      match Json.len options, Json.contains correct_answer options with
      | Ok 4, Ok true => true
      | _, _ => false
      end
  | _, _, _, _ => false
  end.

(** The values [_structure_question] calls [strip] and [lower] on are
    strings: the question, the explanation, and the difficulty where the
    entry has one. *)
Definition texts_are_strings (q_data : JSON) : bool :=
  match member "question" q_data, member "explanation" q_data with
  | Some (JString _), Some (JString _) =>
      match member "difficulty" q_data with
      | None | Some (JString _) => true
      | Some _ => false
      end
  | _, _ => false
  end.

(** The entries [_structure_question] makes a question of. *)
Definition kept (q_data : JSON) : bool :=
  passes_checks q_data && texts_are_strings q_data.

(** The question [q] is the one [_structure_question] builds from the
    entry [q_data], key by key, for the difficulty and the subject it is
    given. *)
Definition built_from (difficulty subject_area : string)
  (q_data : JSON) (q : StructuredQuestion) : Prop :=
  (1000 <= s_id q <= 9999)%Z
  /\ (exists text, member "question" q_data = Some (JString text)
                   /\ s_question q = Py.strip text)
  /\ member "options" q_data = Some (s_options q)
  /\ member "correct_answer" q_data = Some (s_correct_answer q)
  /\ (exists text, member "explanation" q_data = Some (JString text)
                   /\ s_explanation q = Py.strip text)
  /\ (exists text, default (JString difficulty) (member "difficulty" q_data)
                   = JString text
                   /\ s_difficulty q = Py.lower text)
  /\ s_bloom_level q
     = default (JString (Prompts.get_bloom_level_for_difficulty difficulty))
               (member "bloom_level" q_data)
  /\ s_category q = default (JString subject_area) (member "category" q_data)
  /\ s_subject_area q = subject_area
  /\ s_created_at q = "2025-09-04".

(** Four options with the correct answer among them, by Python's [len]
    and [in]. *)
Definition four_with_answer (q : StructuredQuestion) : Prop :=
  Json.len (s_options q) = Ok 4
  /\ Json.contains (s_correct_answer q) (s_options q) = Ok true.


(** The metrics [validate_question_quality] records for every question. *)
Definition always_metrics : list string :=
  ["question_length"; "option_count"; "explanation_length";
   "has_question_mark"; "unique_options"; "bloom_level"].

(** ** Inputs of the scenarios *)

Definition mitochondria_text : string :=
  "The mitochondria is the powerhouse of the cell. It produces ATP through respiration.".

Definition paris_options : list string := ["Paris"; "Paris"; "London"; "Berlin"].

Definition two_options : Validator.QuestionDict :=
  Validator.mkQuestionDict (Some "What is 2 + 2?") (Some ["3"; "4"]) (Some "4")
                           (Some "Two and two make four.").

Definition three_options : JSON :=
  JObject [("question", JString "Which city is the capital of France?");
           ("options", JArray [JString "Paris"; JString "London"; JString "Berlin"]);
           ("correct_answer", JString "Paris");
           ("explanation", JString "Paris is the capital of France.")].

Definition four_options : JSON :=
  JObject [("question", JString "Which city is the capital of Italy?");
           ("options", JArray [JString "Paris"; JString "London";
                               JString "Berlin"; JString "Rome"]);
           ("correct_answer", JString "Rome");
           ("explanation", JString "Rome is the capital of Italy.")].


(** No service answers: the text model raises, Gemini sends nothing. *)
Definition silent_world : World :=
  world_of (fun _ _ => None) (fun _ _ => GeminiEmpty) (fun n => n).

(** A text model that answers every prompt with the same words. *)
Definition repeating_model : World :=
  world_of (fun _ _ => Some "Alternative option 2") (fun _ _ => GeminiEmpty) (fun n => n).

(** Gemini answers with one entry of three options and one of four. *)
Definition gemini_world : World :=
  world_of (fun _ _ => None) (fun _ _ => GeminiParsed [three_options; four_options])
           (fun n => n).


(** A generated question text that carries its options. *)
Definition with_options : string :=
  "Which planet is largest Options: A. Mars B. Jupiter".

(** * Further parts of the code *)

(** ** processors.py, the other functions *)

Module Planning.

(** The dictionary [determine_optimal_question_count] returns. *)
Record QuestionCount := mkQuestionCount {
  recommended : Z;
  maximum : Z;
  minimum : Z
}.

Definition determine_optimal_question_count (text_length : Z) : QuestionCount :=
  let '(recommended, max_reasonable) :=
    if (text_length <? 200)%Z then (2, 3)%Z
    else if (text_length <? 500)%Z then (3, 5)%Z
    else if (text_length <? 1000)%Z then (5, 8)%Z
    else if (text_length <? 2000)%Z then (8, 12)%Z
    else (10, 15)%Z in
  mkQuestionCount recommended max_reasonable (Z.max 1 (recommended / 2)).

End Planning.

(** ** prompts.py, the constants the properties name *)

Module PromptTables.

Definition BLOOM_LEVELS : list string :=
  ["Remember"; "Understand"; "Apply"; "Analyze"; "Evaluate"; "Create"].

(** The keyword lists of [detect_subject_area]. *)
Definition science_keywords : list string :=
  ["experiment"; "hypothesis"; "theory"; "analysis"; "scientific";
   "research"; "study"; "data"; "observation"; "method"].
Definition history_keywords : list string :=
  ["century"; "war"; "empire"; "historical"; "period"; "era";
   "ancient"; "revolution"; "society"; "civilization"].
Definition literature_keywords : list string :=
  ["character"; "theme"; "plot"; "author"; "literary"; "novel";
   "story"; "poem"; "narrative"; "symbolism"].

(** How many keywords of a list the lower-cased text contains. *)
Definition keyword_count (keywords : list string) (text : string) : nat :=
  Prompts.count_keywords keywords (Py.lower text).

End PromptTables.

(** The space character. *)
Definition space : ascii := " "%char.

(** ** generator.py, vocabulary of the model path *)

(** The strings [_generate_enhanced_distractors] puts in the place of a
    distractor it refuses. *)
Definition fallback_distractors : list string :=
  ["Alternative option 1"; "Alternative option 2"; "Alternative option 3"].

(** The text model never answers with the words of a replacement. *)
Definition never_fallback (w : World) : Prop :=
  forall k prompt raw,
    w_model w k prompt = Some raw -> Py.strip raw ∉ fallback_distractors.

(** From [w] to [w'] the text model was called [n] times, Gemini was not,
    and the text model is the same. *)
Definition model_calls (n : nat) (w w' : World) : Prop :=
  external_calls w' = external_calls w + n /\ w_model w' = w_model w.

(** A text model that answers every prompt with "Paris". *)
Definition paris_model : World :=
  world_of (fun _ _ => Some "Paris") (fun _ _ => GeminiEmpty) (fun n => n).

(** ** gemini_generator.py, vocabulary of the Gemini path *)

(** The prompt [generate_mcq] sends to Gemini for a text. *)
Definition gemini_prompt_of (text : string) (num_questions : Z) (requested : string)
  : GeminiPrompt :=
  Gemini._create_gemini_prompt (Processors.preprocess_text text) num_questions
    (Py.lower requested) (Prompts.detect_subject_area text).

(** What [_structure_question] guarantees of the record it builds: an id
    of four digits, a lower-case difficulty, question and explanation
    without white space around them, and the subject it was given. *)
Definition structured (subject : string) (q : StructuredQuestion) : Prop :=
  (1000 <= s_id q <= 9999)%Z
  /\ Py.lower (s_difficulty q) = s_difficulty q
  /\ Py.strip (s_question q) = s_question q
  /\ Py.strip (s_explanation q) = s_explanation q
  /\ s_subject_area q = subject.

(** Gemini's service raises at every call. *)
Definition failing_gemini : World :=
  world_of (fun _ _ => None) (fun _ _ => GeminiError) (fun n => n).

(** ** validator.py, vocabulary of the penalties *)

Definition first_char (s : string) : option ascii :=
  match s with
  | String c _ => Some c
  | EmptyString => None
  end.

(** The state of score and feedback in [validate_question_quality] once a
    check has failed: at least 10 points are lost, and the first message
    starts with a character that is not a capital G. *)
Definition penalised (acc : Z * list string) : Prop :=
  (acc.1 <= 90)%Z
  /\ exists m rest c, acc.2 = m :: rest /\ first_char m = Some c /\ c <> "G"%char.

(** No check has failed so far, or one has. *)
Definition score_matches_feedback (acc : Z * list string) : Prop :=
  acc = (100%Z, []) \/ penalised acc.

(** ** generator.py, vocabulary of the cleaning of a question *)

(** [re.search]: the pattern matches at some position of [l]. *)
Fixpoint has_match (matches : list ascii -> bool) (l : list ascii) : bool :=
  match l with
  | [] => false
  | _ :: l' => matches l || has_match matches l'
  end.

(** The text holds a generated section of options, or of the answer. *)
Definition has_options_section (s : string) : bool :=
  has_match Regex.options_section (Py.chars s).
Definition has_answer_section (s : string) : bool :=
  has_match Regex.answer_section (Py.chars s).

(** The parts of the two patterns: the optional "s", the colon followed by
    [\s*[A-D]\.], and [\s*[A-D]]. *)
Definition skip_s (rest : list ascii) : list ascii :=
  match rest with
  | c :: rest' => if Ascii.eqb (Py.lower_char c) "s"%char then rest' else rest
  | [] => rest
  end.
Definition letter_dot (l : list ascii) : bool :=
  match Py.dropwhile Py.isspace l with
  | c :: d :: _ => Ascii.eqb d "."%char && Regex.is_A_to_D c
  | _ => false
  end.
Definition colon_then (l : list ascii) : bool :=
  match l with
  | c :: rest' => Ascii.eqb c ":"%char && letter_dot rest'
  | [] => false
  end.
Definition letter (l : list ascii) : bool :=
  match Py.dropwhile Py.isspace l with
  | c :: _ => Regex.is_A_to_D c
  | [] => false
  end.

(** A pattern that, once it matches a text, matches every longer text. *)
Definition extends (matches : list ascii -> bool) : Prop :=
  forall l x, matches l = true -> matches (l ++ x) = true.

(** A pattern that a question mark at the end of the text cannot complete. *)
Definition unmarked (matches : list ascii -> bool) : Prop :=
  matches [] = false
  /\ forall l, matches (l ++ ["?"%char]) = true -> matches l = true.

(** ** main.py: the endpoints *)

Module Main.

(** [QuestionRequest] of models.py. *)
Record QuestionRequest := mkQuestionRequest {
  text : string;
  num_questions : Z;
  question_type : string;
  difficulty : string
}.

Record RequestParams := mkRequestParams {
  params_num_questions : Z;
  params_question_type : string;
  params_difficulty : string
}.

(** The dictionary [generate_questions] returns. *)
Record GenerateResponse := mkGenerateResponse {
  questions : list GeminiQuestion;
  total_generated : nat;
  request_params : RequestParams
}.

(** The dictionary [validate_questions] returns. *)
Record ValidateResponse := mkValidateResponse {
  overall_score : Q;
  individual_results : list Validator.ValidationResult;
  total_questions : nat;
  avg_score : Q
}.

(** [raise HTTPException(status_code=...)]: the exception, named with its
    status code. *)
Definition HTTPException (status_code : nat) : string :=
  "HTTPException " +:+ Py.of_nat status_code.

(** [round(x)] on an idealised float: to the nearest integer, a tie to the
    even one. *)
Definition round_half_even (x : Q) : Z :=
  let f := Qfloor x in
  let r := (x - inject_Z f)%Q in
  if Processors.Qlt_bool r (1 # 2) then f
  else if Processors.Qlt_bool (1 # 2) r then (f + 1)%Z
  else if Z.even f then f else (f + 1)%Z.

(** [round(x, 2)] *)
Definition round2 (x : Q) : Q := (inject_Z (round_half_even (x * 100)) / 100)%Q.

(** [sum(result["score"] for result in validation_results)] *)
Definition sum_scores (results : list Validator.ValidationResult) : Z :=
  foldr Z.add 0%Z (Validator.score <$> results).

Section Endpoints.

(** [question_generator.is_model_loaded()], fixed when the module is loaded. *)
Variable model_loaded : bool.
(** [save_question] of database.py: whatever it does to the world, and
    whether it returns an id or raises. *)
Variable save_question : GeminiQuestion -> M Z.
(** The sentence-embedding model of validator.py. *)
Variable similarity_model : option (list string -> option (list Q)).

(** [POST /api/generate-questions]. [HTTPException] is an [Exception]: the
    handler at the end catches the ones raised by the checks as well. *)
Definition generate_questions (request : QuestionRequest) : M GenerateResponse :=
  try_except
    (if negb model_loaded then raise (HTTPException 503)
     else if Py.len (Py.strip (text request)) <? 50 then raise (HTTPException 400)
     else if ((num_questions request <? 1) || (20 <? num_questions request))%Z
          then raise (HTTPException 400)
     else
       generated ← Gemini.generate_mcq model_loaded (text request)
                      (num_questions request) (difficulty request);
       _ ← for_each generated
             (fun question (_ : unit) =>
                try_except (_ ← save_question question; mret tt)
                           (fun _ => mret tt)) tt;
       mret (mkGenerateResponse generated (length generated)
               (mkRequestParams (num_questions request) (question_type request)
                                (difficulty request))))
    (fun _ => raise (HTTPException 500)).

(** [POST /api/validate-questions] *)
Definition validate_questions (request_questions : list Question)
  : Res ValidateResponse :=
  catch
    (let questions_data := Validator.dict_of <$> request_questions in
     validation_results ←
       Validator.validate_multiple_questions similarity_model questions_data;
     overall ← Validator.true_div (sum_scores validation_results)
                                  (Z.of_nat (length validation_results));
     Ok (mkValidateResponse (round2 overall) validation_results
                            (length validation_results) (round2 overall)))
    (fun _ => Raise (HTTPException 500)).

End Endpoints.

End Main.

(** ** processors.py, vocabulary of the chunks *)

(** The number of words [preprocess_text] counts for a group of sentences:
    the sum of [len(sentence.split())]. *)
Definition word_count (group : list string) : nat :=
  list_sum (map (fun sentence => length (Py.split sentence)) group).

(** A group of sentences that makes a chunk: at least 200 words, and at
    most 300 unless the group is one long sentence. *)
Definition full_group (group : list string) : Prop :=
  200 <= word_count group
  /\ (word_count group <= 300 \/ length group = 1).

(** The groups lie in the text one after the other: each is a run of
    consecutive sentences, and the next one begins after the end of the
    one before. *)
Fixpoint consecutive_runs (groups : list (list string)) (sentences : list string)
  : Prop :=
  match groups with
  | [] => True
  | group :: groups' =>
      exists before after,
        sentences = before ++ group ++ after /\ consecutive_runs groups' after
  end.

(** The state of the loop of [preprocess_text] after the sentences [seen]:
    the count is the number of words of the current chunk, which has at
    most 300 words unless it is one sentence; the chunks closed so far are
    the texts of full groups; and the sentences seen are those before the
    current chunk, where the groups lie one after the other, followed by
    the current chunk. *)
Definition chunk_invariant (seen : list string) (st : Processors.ChunkState) : Prop :=
  Processors.current_word_count st = word_count (Processors.current_chunk st)
  /\ (word_count (Processors.current_chunk st) <= 300
      \/ length (Processors.current_chunk st) <= 1)
  /\ exists groups before,
       Processors.chunks st = Processors.chunk_text_of <$> groups
       /\ Forall full_group groups
       /\ seen = before ++ Processors.current_chunk st
       /\ consecutive_runs groups before.

(** ** processors.py: group_questions_by_topic *)

Module Grouping.
Import Py.

(** A dictionary from topics to lists of questions; the keys are in the
    order in which they were first set, the order [items()] goes through. *)
Definition TopicGroups : Type := list (string * list Question).

(** [d[k] = v] *)
Fixpoint dict_set (k : string) (v : list Question) (d : TopicGroups) : TopicGroups :=
  match d with
  | [] => [(k, v)]
  | (k', v') :: d' =>
      if String.eqb k' k then (k', v) :: d' else (k', v') :: dict_set k v d'
  end.

(** [d[k].append(question)], which raises [KeyError] for a missing key. *)
Fixpoint dict_append (k : string) (question : Question) (d : TopicGroups)
  : Res TopicGroups :=
  match d with
  | [] => Raise "KeyError"
  | (k', v') :: d' =>
      if String.eqb k' k then Ok ((k', v' ++ [question]) :: d')
      else d'' ← dict_append k question d'; Ok ((k', v') :: d'')
  end.

(** The inner loop with its [break]: the first concept found in the
    question text. *)
Definition first_concept (concepts : list string) (question_text : string)
  : option string :=
  find (fun concept => contains concept question_text) concepts.

(** One turn of [for question in questions]. *)
Definition assign (concepts : list string) (topic_groups : TopicGroups)
  (q : Question) : Res TopicGroups :=
  let question_text := lower (question q) in
  match first_concept concepts question_text with
  | Some concept => dict_append concept q topic_groups
  | None => dict_append "general" q topic_groups
  end.

Fixpoint assign_all (concepts : list string) (questions : list Question)
  (topic_groups : TopicGroups) : Res TopicGroups :=
  match questions with
  | [] => Ok topic_groups
  | q :: rest =>
      topic_groups ← assign concepts topic_groups q;
      assign_all concepts rest topic_groups
  end.

Definition is_empty (questions : list Question) : bool :=
  match questions with [] => true | _ => false end.

Section KeyConcepts.

(** [math.log] *)
Variable ln : Q -> Q.

Definition group_questions_by_topic (questions : list Question) (text : string)
  : Res TopicGroups :=
  let key_concepts := Processors.extract_key_concepts ln text in
  let topic_groups :=
    fold_left (fun d concept => dict_set concept [] d) (take 5 key_concepts) [] in
  let topic_groups := dict_set "general" [] topic_groups in
  topic_groups ← assign_all (take 5 key_concepts) questions topic_groups;
  Ok (filter (fun '(topic, questions) => negb (is_empty questions)) topic_groups).

End KeyConcepts.

End Grouping.

(** The topic a question is filed under: the first of the concepts found
    in its lower-cased text, "general" when there is none. *)
Definition topic_of (concepts : list string) (q : Question) : string :=
  default "general" (Grouping.first_concept concepts (Py.lower (question q))).

(** The questions of a topic, in their order. *)
Definition questions_of (concepts : list string) (questions : list Question)
  (topic : string) : list Question :=
  filter (fun q => topic_of concepts q = topic) questions.

(** The dictionary that holds, for each key, the questions of that topic. *)
Definition grouped (concepts : list string) (questions : list Question)
  (keys : list string) : Grouping.TopicGroups :=
  map (fun topic => (topic, questions_of concepts questions topic)) keys.

(** The keys of a dictionary after [d[k] = ...]. *)
Definition add_key (k : string) (keys : list string) : list string :=
  if bool_decide (k ∈ keys) then keys else keys ++ [k].

(** ** processors.py, vocabulary of the punctuation *)

(** The character [p] occurs twice in a row in [l]. *)
Fixpoint has_double (p : ascii) (l : list ascii) : bool :=
  match l with
  | a :: l' =>
      match l' with
      | b :: _ => (Ascii.eqb a p && Ascii.eqb b p) || has_double p l'
      | [] => false
      end
  | [] => false
  end.

(** ** processors.py: analyze_text_complexity *)

Module Complexity.
Import Py.

(** The dictionary [analyze_text_complexity] returns. *)
Record TextComplexity := mkTextComplexity {
  word_count : nat;
  sentence_count : nat;
  avg_words_per_sentence : Q;
  vocabulary_complexity : Q;
  difficulty : string;
  complexity_level : string;
  key_concepts : list string
}.

(** [a / b if b > 0 else 0] on two lengths. *)
Definition ratio (a b : nat) : Q :=
  if 0 <? b then (inject_Z (Z.of_nat a) / inject_Z (Z.of_nat b))%Q else 0%Q.

(** [round(x, 1)] *)
Definition round1 (x : Q) : Q := (inject_Z (Main.round_half_even (x * 10)) / 10)%Q.

Section KeyConcepts.

(** [math.log] *)
Variable ln : Q -> Q.

Definition analyze_text_complexity (text : string) : TextComplexity :=
  let words := split text in
  let sentences := Processors.sentences_of text in
  let word_count := length words in
  let sentence_count := length sentences in
  let avg_words_per_sentence := ratio word_count sentence_count in
  let unique_words := length (remove_dups (map lower words)) in
  let vocabulary_complexity := ratio unique_words word_count in
  let complexity :=
    if Processors.Qlt_bool 20 avg_words_per_sentence
       && Processors.Qlt_bool (6 # 10) vocabulary_complexity
    then "high"
    else if Processors.Qlt_bool 15 avg_words_per_sentence
            && Processors.Qlt_bool (4 # 10) vocabulary_complexity
    then "medium"
    else "low" in
  mkTextComplexity
    word_count
    sentence_count
    (round1 avg_words_per_sentence)
    (Main.round2 vocabulary_complexity)
    complexity
    complexity
    (Processors.extract_key_concepts ln text).

End KeyConcepts.

End Complexity.

(** * Properties *)

Set Warnings "-clear-no-such-hyp".

Ltac monad_unfold :=
  unfold mbind, mret, M_bind, M_ret, Res_bind, Res_ret, bind, ret, raise,
         try_except, catch in *.

(** ** The monad, loops and random choices *)

Lemma bind_ok {A B} (m : M A) (k : A -> M B) w a w' :
  m w = (Ok a, w') -> (x ← m; k x) w = k a w'.
Proof. intros H. monad_unfold. by rewrite H. Qed.

Lemma try_except_ok {A} (m : M A) handler w a w' :
  m w = (Ok a, w') -> try_except m handler w = (Ok a, w').
Proof. intros H. unfold try_except. by rewrite H. Qed.

Lemma try_except_total {A} (m : M A) (handler : string -> M A) w :
  (forall e w1, exists a w2, handler e w1 = (Ok a, w2)) ->
  exists a w', try_except m handler w = (Ok a, w').
Proof.
  intros Hh. unfold try_except.
  destruct (m w) as [[a|e] w1]; [by eexists _, _|apply Hh].
Qed.

(** A loop whose body keeps an invariant, indexed by the number of turns
    made, and never raises: the loop does not raise either, and the
    invariant holds when it ends. *)
Lemma for_each_invariant {A S} (body : A -> S -> M S)
  (I : nat -> S -> World -> Prop) (l : list A) :
  (forall k x acc w, l !! k = Some x -> I k acc w ->
     exists acc' w', body x acc w = (Ok acc', w') /\ I (Datatypes.S k) acc' w') ->
  forall acc w, I 0 acc w ->
     exists acc' w', for_each l body acc w = (Ok acc', w') /\ I (length l) acc' w'.
Proof.
  revert I. induction l as [|x l IH]; intros I Hbody acc w HI; simpl.
  - by eexists _, _.
  - destruct (Hbody 0 x acc w eq_refl HI) as (acc1 & w1 & Hx & HI1).
    rewrite (bind_ok _ _ _ _ _ Hx).
    apply (IH (fun k => I (Datatypes.S k))); [|done].
    intros k y acc2 w2 Hk. by apply Hbody.
Qed.

Lemma length_range n : length (range n) = Z.to_nat n.
Proof. unfold range. apply length_seq. Qed.

Lemma randbelow_spec n w :
  exists k w', Random.randbelow n w = (Ok k, w') /\ no_external_call w w'
               /\ (0 < n -> k < n).
Proof.
  eexists _, _. repeat split. intros Hn. apply Nat.mod_upper_bound. lia.
Qed.

Lemma swap_perm {A} (i j : nat) (x : list A) : Random.swap i j x ≡ₚ x.
Proof.
  unfold Random.swap.
  destruct (x !! i) as [a|] eqn:Hi; [|done].
  destruct (x !! j) as [b|] eqn:Hj; [|done].
  by apply Permutation_insert_swap.
Qed.

Lemma shuffle_down_spec {A} n (x : list A) w :
  exists x' w', Random.shuffle_down n x w = (Ok x', w')
                /\ x' ≡ₚ x /\ no_external_call w w'.
Proof.
  revert x w. induction n as [|n IH]; intros x w; simpl.
  - by eexists _, _.
  - destruct (randbelow_spec (S (S n)) w) as (j & w1 & Hj & Hq & _).
    rewrite (bind_ok _ _ _ _ _ Hj).
    destruct (IH (Random.swap (S n) j x) w1) as (x' & w' & Hx & Hp & Hq').
    exists x', w'. split; [done|]. split.
    + by rewrite Hp, swap_perm.
    + unfold no_external_call in *. congruence.
Qed.

(** [random.shuffle] permutes its list. *)
Lemma shuffle_spec {A} (x : list A) w :
  exists x' w', Random.shuffle x w = (Ok x', w')
                /\ x' ≡ₚ x /\ no_external_call w w'.
Proof. apply shuffle_down_spec. Qed.

(** [random.choice] of a list that is not empty yields one of its entries. *)
Lemma choice_spec {A} (l : list A) w :
  l <> [] ->
  exists a w', Random.choice l w = (Ok a, w') /\ a ∈ l /\ no_external_call w w'.
Proof.
  intros Hne. unfold Random.choice.
  destruct l as [|x l]; [done|].
  destruct (randbelow_spec (length (x :: l)) w) as (i & w1 & Hi & Hq & Hlt).
  rewrite (bind_ok _ _ _ _ _ Hi).
  specialize (Hlt ltac:(simpl; lia)).
  destruct (lookup_lt_is_Some_2 _ _ Hlt) as [a Ha].
  rewrite Ha. exists a, w1. repeat split; [|done].
  by eapply list_elem_of_lookup_2.
Qed.

Lemma randint_spec a b w :
  exists k w', Random.randint a b w = (Ok k, w') /\ no_external_call w w'.
Proof.
  unfold Random.randint.
  destruct (randbelow_spec (Z.to_nat (b - a + 1)) w) as (k & w1 & Hk & Hq & _).
  rewrite (bind_ok _ _ _ _ _ Hk). by eexists _, _.
Qed.

(** ** The fall-back generators *)

Lemma well_formed_perm q (l : list string) :
  options q ≡ₚ l -> length l = 4 -> correct_answer q ∈ l -> NoDup l -> well_formed q.
Proof. intros Hp Hl Hc Hn. unfold well_formed. by rewrite Hp. Qed.

Ltac distinct_strings :=
  repeat (apply NoDup_cons; split); try apply NoDup_nil_2;
  rewrite ?elem_of_cons, ?elem_of_nil; intros H;
  repeat (destruct H as [H|H]; try discriminate H); done.

Lemma generator_mock_options term :
  NoDup ["Key concept related to " +:+ term; "Alternative concept A";
         "Alternative concept B"; "Alternative concept C"].
Proof. distinct_strings. Qed.

Lemma gemini_mock_options a b c d :
  NoDup ["Option A: Related to " +:+ a; "Option B: Connected to " +:+ b;
         "Option C: Associated with " +:+ c; "Option D: Linked to " +:+ d].
Proof. distinct_strings. Qed.

(** [_generate_mock_questions] of generator.py never raises, calls no
    service and yields as many records as asked for. *)
Lemma Generator_mock_spec text n w :
  exists qs w', Generator._generate_mock_questions text n w = (Ok qs, w')
    /\ length qs = Z.to_nat n /\ Forall mock_record qs /\ no_external_call w w'.
Proof.
  unfold Generator._generate_mock_questions.
  rewrite <- (length_range n).
  apply (for_each_invariant _
           (fun k qs w' => length qs = k /\ Forall mock_record qs
                           /\ no_external_call w w')).
  2: { by repeat split. }
  intros k i qs w1 _ (Hlen & Hall & Hq).
  assert (exists term qt,
    (match Generator.key_terms_of text with
     | _ :: _ =>
         match Generator.key_terms_of text
               !! (i mod length (Generator.key_terms_of text)) with
         | Some term =>
             mret (term, "What is the significance of '" +:+ term
                         +:+ "' in the given context?")
         | None => raise "IndexError"
         end
     | [] =>
         mret ("main topic", "What is the main topic discussed in question "
                              +:+ Py.of_nat (i + 1) +:+ "?")
     end : M (string * string)) w1 = (Ok (term, qt), w1)) as (term & qt & Hterm).
  { destruct (Generator.key_terms_of text) as [|t ts] eqn:Hk; [by eexists _, _|].
    destruct (lookup_lt_is_Some_2 (t :: ts) (i mod length (t :: ts))) as [term Ht].
    { apply Nat.mod_upper_bound. simpl. lia. }
    rewrite Ht. by eexists _, _. }
  rewrite (bind_ok _ _ _ _ _ Hterm). simpl.
  destruct (shuffle_spec
              (["Key concept related to " +:+ term] ++
               ["Alternative concept A"; "Alternative concept B";
                "Alternative concept C"]) w1)
    as (opts & w2 & Hs & Hp & Hq2).
  rewrite (bind_ok _ _ _ _ _ Hs).
  eexists _, _. split; [reflexivity|]. repeat split.
  - rewrite length_app. simpl. lia.
  - apply Forall_app. split; [done|]. apply Forall_singleton.
    split; [|done].
    eapply well_formed_perm; [exact Hp|done| |apply generator_mock_options].
    simpl. apply list_elem_of_here.
  - unfold no_external_call in *. congruence.
Qed.

(** The same for [_generate_mock_questions] of gemini_generator.py. *)
Lemma Gemini_mock_spec text n w :
  exists qs w', Gemini._generate_mock_questions text n w = (Ok qs, w')
    /\ length qs = Z.to_nat n /\ Forall mock_record qs /\ no_external_call w w'.
Proof.
  unfold Gemini._generate_mock_questions.
  rewrite <- (length_range n).
  apply (for_each_invariant _
           (fun k qs w' => length qs = k /\ Forall mock_record qs
                           /\ no_external_call w w')).
  2: { by repeat split. }
  intros k i qs w1 _ (Hlen & Hall & Hq).
  assert (exists qt w2,
    (match Generator.key_terms_of text with
     | _ :: _ =>
         term ← Random.choice (Generator.key_terms_of text);
         mret ("What is the significance of " +:+ term +:+ " in the given context?")
     | [] => mret "Based on the text, which statement is most accurate?"
     end : M string) w1 = (Ok qt, w2) /\ no_external_call w1 w2)
    as (qt & w2 & Hqt & Hq2).
  { destruct (Generator.key_terms_of text) as [|t ts] eqn:Hk; [by eexists _, _|].
    destruct (choice_spec (t :: ts) w1) as (term & w2 & Hc & _ & Hq2); [done|].
    rewrite (bind_ok _ _ _ _ _ Hc). by eexists _, _. }
  rewrite (bind_ok _ _ _ _ _ Hqt). simpl.
  eexists _, _. split; [reflexivity|]. repeat split.
  - rewrite length_app. simpl. lia.
  - apply Forall_app. split; [done|]. apply Forall_singleton.
    split; [|done].
    repeat split; simpl; [apply list_elem_of_here|apply gemini_mock_options].
  - unfold no_external_call in *. congruence.
Qed.

(** Without the model, [generate_mcq] of gemini_generator.py returns the
    list of [_generate_mock_questions]. *)
Lemma gemini_mock_path text n requested w qs w' :
  Gemini._generate_mock_questions text n w = (Ok qs, w') ->
  Gemini.generate_mcq false text n requested w = (Ok (Mocked <$> qs), w').
Proof.
  intros H. unfold Gemini.generate_mcq. cbn [negb].
  apply try_except_ok. by rewrite (bind_ok _ _ _ _ _ H).
Qed.

(** C2. When the generation service is not available ([model_loaded] is
    false), [generate_mcq] of either generator, for every text, the empty
    one included, and every [num_questions >= 1], does not raise, returns
    exactly [num_questions] records, each with four pairwise distinct
    options and its correct answer among them, and calls no external
    generation service. *)
Theorem fallback_generation (ln : Q -> Q) text (num_questions : Z) difficulty w :
  (1 <= num_questions)%Z ->
  (exists qs w',
      Generator.generate_mcq ln false text num_questions difficulty w = (Ok qs, w')
      /\ Z.of_nat (length qs) = num_questions
      /\ Forall well_formed qs
      /\ no_external_call w w')
  /\ (exists qs w',
      Gemini.generate_mcq false text num_questions difficulty w
      = (Ok (Mocked <$> qs), w')
      /\ Z.of_nat (length qs) = num_questions
      /\ Forall well_formed qs
      /\ no_external_call w w').
Proof.
  intros Hn. split.
  - destruct (Generator_mock_spec text num_questions w)
      as (qs & w' & H & Hl & Hall & Hq).
    exists qs, w'. unfold Generator.generate_mcq. simpl.
    repeat split; [done|lia| |done].
    eapply Forall_impl; [exact Hall|]. by intros q [? _].
  - destruct (Gemini_mock_spec text num_questions w)
      as (qs & w' & H & Hl & Hall & Hq).
    exists qs, w'. split; [by apply gemini_mock_path|].
    repeat split; [lia| |done].
    eapply Forall_impl; [exact Hall|]. by intros q [? _].
Qed.

(** The scenario of the specification: five questions of difficulty
    "medium", here for the empty text. *)
Lemma fallback_generation_witness :
  (1 <= 5)%Z
  /\ (exists qs w',
        Generator.generate_mcq (fun x => x) false "" 5 "medium" silent_world = (Ok qs, w')
        /\ Z.of_nat (length qs) = 5%Z
        /\ Forall well_formed qs
        /\ no_external_call silent_world w')
  /\ (exists qs w',
        Gemini.generate_mcq false "" 5 "medium" silent_world
        = (Ok (Mocked <$> qs), w')
        /\ Z.of_nat (length qs) = 5%Z
        /\ Forall well_formed qs
        /\ no_external_call silent_world w').
Proof.
  split; [lia|].
  apply (fallback_generation (fun x => x) "" 5 "medium" silent_world). lia.
Defined.

(** C10. In the fall-back path every record has difficulty "medium" and
    Bloom level "understand", and the difficulty asked for has no effect:
    whatever it is, [generate_mcq] returns the same records. *)
Theorem fallback_ignores_difficulty (ln : Q -> Q) text (num_questions : Z) requested w :
  (exists qs w',
      Generator.generate_mcq ln false text num_questions requested w = (Ok qs, w')
      /\ Forall (fun q => difficulty q = "medium"
                          /\ bloom_level q = "understand") qs
      /\ forall other,
           Generator.generate_mcq ln false text num_questions other w = (Ok qs, w'))
  /\ (exists qs w',
      Gemini.generate_mcq false text num_questions requested w
      = (Ok (Mocked <$> qs), w')
      /\ Forall (fun q => difficulty q = "medium"
                          /\ bloom_level q = "understand") qs
      /\ forall other,
           Gemini.generate_mcq false text num_questions other w
           = (Ok (Mocked <$> qs), w')).
Proof.
  split.
  - destruct (Generator_mock_spec text num_questions w)
      as (qs & w' & H & _ & Hall & _).
    exists qs, w'. unfold Generator.generate_mcq. simpl.
    split; [exact H|]. split; [|intros _; exact H].
    eapply Forall_impl; [exact Hall|]. by intros q (_ & ? & ?).
  - destruct (Gemini_mock_spec text num_questions w)
      as (qs & w' & H & _ & Hall & _).
    exists qs, w'. split; [by apply gemini_mock_path|].
    split; [|intros other; by apply gemini_mock_path].
    eapply Forall_impl; [exact Hall|]. by intros q (_ & ? & ?).
Qed.

(** ** Chunking *)

Lemma grouped_chunks_eq sentences :
  Processors.grouped_chunks sentences
  = close_last (fold_left Processors.chunk_step sentences
                  (Processors.mkChunkState [] [] 0)).
Proof. reflexivity. Qed.

Lemma snoc_not_nil {A} (l : list A) x : l ++ [x] <> [].
Proof. by destruct l. Qed.

(** The loop emits no chunk exactly when it starts without one and none of
    the chunks it accumulates reaches 200 words. *)
Lemma close_last_nil sentences st :
  close_last (fold_left Processors.chunk_step sentences st) = []
  <-> Processors.chunks st = []
      /\ Forall (fun c => c < 200)
           (Processors.accumulated_counts (Processors.current_chunk st)
              (Processors.current_word_count st) sentences).
Proof.
  revert st. induction sentences as [|s ss IH]; intros [cs cur n];
    cbn [fold_left Processors.accumulated_counts Processors.chunks
         Processors.current_chunk Processors.current_word_count].
  - unfold close_last;
      cbn [Processors.chunks Processors.current_chunk Processors.current_word_count].
    destruct cur as [|c cur].
    + rewrite bool_decide_eq_true_2 by done. cbn [negb andb].
      split; [intros ->; by split|by intros [-> _]].
    + rewrite bool_decide_eq_false_2 by done. cbn [negb andb].
      destruct (200 <=? n) eqn:Hn.
      * apply Nat.leb_le in Hn. split.
        -- intros H. by apply snoc_not_nil in H.
        -- intros [_ H]. rewrite Forall_singleton in H. lia.
      * apply Nat.leb_gt in Hn. split.
        -- intros ->. split; [done|]. by apply Forall_singleton.
        -- by intros [-> _].
  - rewrite IH. unfold Processors.chunk_step;
      cbn [Processors.chunks Processors.current_chunk Processors.current_word_count].
    destruct ((300 <? n + length (Py.split s)) && negb (bool_decide (cur = [])));
      cbn [Processors.chunks Processors.current_chunk Processors.current_word_count];
      [|done].
    destruct (200 <=? n) eqn:Hn.
    + apply Nat.leb_le in Hn. split.
      * intros [H _]. by apply snoc_not_nil in H.
      * intros [_ H]. rewrite Forall_cons in H. destruct H as [H _]. lia.
    + apply Nat.leb_gt in Hn. split.
      * intros [-> H]. split; [done|]. by apply Forall_cons.
      * intros [-> H]. rewrite Forall_cons in H. destruct H as [_ H]. by split.
Qed.

(** [preprocess_text] never returns an empty list, so [generate_mcq] can
    divide by the number of chunks. *)
Lemma preprocess_text_not_nil text : Processors.preprocess_text text <> [].
Proof.
  unfold Processors.preprocess_text.
  by destruct (Processors.grouped_chunks
                 (Processors.sentences_of (Processors.clean_text text))).
Qed.

(** C4. For every text that is not empty [preprocess_text] returns a list
    of chunks that is not empty; and when none of the chunks it accumulates
    reaches 200 words, it returns exactly one chunk, the cleaned text. *)
Theorem preprocess_text_short text :
  (text <> "" -> Processors.preprocess_text text <> [])
  /\ (Forall (fun c => c < 200)
        (Processors.accumulated_counts [] 0
           (Processors.sentences_of (Processors.clean_text text)))
      -> Processors.preprocess_text text = [Processors.clean_text text]).
Proof.
  split; [intros _; apply preprocess_text_not_nil|].
  intros H. unfold Processors.preprocess_text.
  rewrite grouped_chunks_eq.
  assert (close_last
            (fold_left Processors.chunk_step
               (Processors.sentences_of (Processors.clean_text text))
               (Processors.mkChunkState [] [] 0)) = []) as ->; [|done].
  by apply close_last_nil.
Qed.

(** The scenario of the specification: two sentences, 13 words, and the
    cleaned text is the text itself. *)
Lemma preprocess_text_short_witness :
  mitochondria_text <> ""
  /\ Forall (fun c => c < 200)
       (Processors.accumulated_counts [] 0
          (Processors.sentences_of (Processors.clean_text mitochondria_text)))
  /\ Processors.preprocess_text mitochondria_text <> []
  /\ Processors.preprocess_text mitochondria_text
     = [Processors.clean_text mitochondria_text]
  /\ Processors.clean_text mitochondria_text = mitochondria_text.
Proof.
  assert (Forall (fun c => c < 200)
            (Processors.accumulated_counts [] 0
               (Processors.sentences_of (Processors.clean_text mitochondria_text))))
    as H.
  { vm_compute. repeat constructor. }
  split; [done|]. split; [exact H|].
  split; [by apply (proj1 (preprocess_text_short mitochondria_text))|].
  split; [exact (proj2 (preprocess_text_short mitochondria_text) H)|].
  by vm_compute.
Defined.

(** ** Key concepts *)

Lemma insert_desc_perm x l : Processors.insert_desc x l ≡ₚ x :: l.
Proof.
  induction l as [|y l IH]; simpl; [done|].
  destruct (Processors.Qlt_bool x.2 y.2); [|done].
  rewrite IH. apply Permutation_swap.
Qed.

Lemma sorted_desc_perm l : Processors.sorted_desc l ≡ₚ l.
Proof.
  unfold Processors.sorted_desc. induction l as [|x l IH]; simpl; [done|].
  by rewrite insert_desc_perm, IH.
Qed.

(** Counting one more word keeps the keys distinct and adds at most that
    word. *)
Lemma count_add_keys word counts :
  (forall k, k ∈ (Processors.count_add word counts).*1 -> k = word \/ k ∈ counts.*1)
  /\ (NoDup counts.*1 -> NoDup (Processors.count_add word counts).*1).
Proof.
  induction counts as [|[k n] counts (IH2 & IH3)]; simpl.
  - split.
    + intros k Hk. left. by apply list_elem_of_singleton in Hk.
    + intros _. apply NoDup_singleton.
  - destruct (String.eqb_spec k word) as [->|Hne]; simpl.
    + split; [by right|done].
    + split.
      * intros k' Hk'. apply elem_of_cons in Hk' as [->|Hk'].
        -- right. apply list_elem_of_here.
        -- destruct (IH2 k' Hk'); [by left|right; by apply list_elem_of_further].
      * intros Hnd. apply NoDup_cons in Hnd as [Hk Hnd].
        apply NoDup_cons. split; [|by apply IH3].
        intros Hin. destruct (IH2 k Hin); [congruence|done].
Qed.

Lemma Counter_from_keys words counts :
  NoDup counts.*1 ->
  NoDup (fold_left (fun counts word => Processors.count_add word counts)
           words counts).*1
  /\ forall k,
       k ∈ (fold_left (fun counts word => Processors.count_add word counts)
              words counts).*1 ->
       k ∈ counts.*1 \/ k ∈ words.
Proof.
  revert counts. induction words as [|w words IH]; intros counts Hnd; simpl.
  - split; [done|]. by left.
  - destruct (count_add_keys w counts) as (H2 & H3).
    destruct (IH (Processors.count_add w counts) (H3 Hnd)) as [IHa IHb].
    split; [done|]. intros k Hk.
    destruct (IHb k Hk) as [Hk'|Hk'].
    + destruct (H2 k Hk') as [->|?]; [right; apply list_elem_of_here|by left].
    + right. by apply list_elem_of_further.
Qed.

(** The keys of a [Counter] are distinct and are among the words counted. *)
Lemma Counter_keys words :
  NoDup (Processors.Counter words).*1
  /\ forall k, k ∈ (Processors.Counter words).*1 -> k ∈ words.
Proof.
  destruct (Counter_from_keys words []) as [H1 H2]; [apply NoDup_nil_2|].
  split; [done|]. intros k Hk.
  destruct (H2 k Hk) as [H|H]; [by apply elem_of_nil in H|done].
Qed.

Lemma chars_str l : Py.chars (Py.str l) = l.
Proof. apply list_ascii_of_string_of_list_ascii. Qed.

Lemma len_str l : Py.len (Py.str l) = length l.
Proof. unfold Py.len, Py.str. induction l; simpl; congruence. Qed.

(** What [re.findall] finds is made of letters and has two of them or more. *)
Lemma findall_words_token s t :
  t ∈ Processors.findall_words s ->
  Forall (fun c => Py.is_alpha_az c = true) (Py.chars t) /\ 2 <= Py.len t.
Proof.
  unfold Processors.findall_words. intros Ht.
  apply list_elem_of_fmap in Ht as (run & -> & Hrun).
  apply list_elem_of_filter in Hrun as [Htok _].
  unfold Processors.is_token in Htok. apply andb_prop_elim in Htok as [Hall Hlen].
  rewrite chars_str, len_str. split.
  - apply Forall_forall. intros c Hc.
    apply Is_true_eq_true in Hall. rewrite forallb_forall in Hall.
    apply Hall. by apply list_elem_of_In.
  - apply Is_true_eq_true in Hlen. by apply Nat.leb_le in Hlen.
Qed.

(** C9. For every text [extract_key_concepts] returns at most 10 terms,
    without duplicates, and each of them is a token of the cleaned,
    lower-cased text (found by [re.findall]), made of letters only, at
    least two of them, and not a stop word. *)
Theorem extract_key_concepts_spec (ln : Q -> Q) (text : string) :
  length (Processors.extract_key_concepts ln text) <= 10
  /\ NoDup (Processors.extract_key_concepts ln text)
  /\ forall term, term ∈ Processors.extract_key_concepts ln text ->
       term ∈ Processors.findall_words (Processors.clean_text (Py.lower text))
       /\ (term ∉ Processors.stop_words)
       /\ Forall (fun c => Py.is_alpha_az c = true) (Py.chars term)
       /\ 2 <= Py.len term.
Proof.
  unfold Processors.extract_key_concepts.
  set (words := Processors.findall_words (Processors.clean_text (Py.lower text))).
  match goal with |- context [Processors.Counter ?l] => set (meaningful := l) end.
  set (scores := map _ (Processors.Counter meaningful)).
  assert (scores.*1 = (Processors.Counter meaningful).*1) as Hkeys.
  { unfold scores. rewrite <- list_fmap_compose. apply list_fmap_ext.
    by intros _ [k n] _. }
  destruct (Counter_keys meaningful) as [Hnd Hin].
  assert ((Processors.sorted_desc scores).*1 ≡ₚ (Processors.Counter meaningful).*1)
    as Hperm.
  { by rewrite sorted_desc_perm, Hkeys. }
  change (map fst (take 10 (Processors.sorted_desc scores)))
    with (take 10 (Processors.sorted_desc scores)).*1.
  rewrite fmap_take.
  split; [|split].
  - rewrite length_take. lia.
  - eapply sublist_NoDup; [|apply sublist_take]. by rewrite Hperm.
  - intros term Hterm.
    apply elem_of_take in Hterm as (i & Hi & _).
    apply list_elem_of_lookup_2 in Hi as Hterm. rewrite Hperm in Hterm.
    apply Hin in Hterm. unfold meaningful in Hterm.
    apply list_elem_of_filter in Hterm as [Hp Hw].
    apply andb_prop_elim in Hp as [Hstop _].
    destruct (findall_words_token _ _ Hw) as [Ha Hl].
    repeat split; try done.
    unfold Py.mem in Hstop. apply negb_prop_elim in Hstop.
    intros Hs. apply Hstop. by apply bool_decide_pack.
Qed.

(** The text of the chunking scenario: six terms, "cell" one of them. *)
Lemma extract_key_concepts_spec_witness :
  "cell" ∈ Processors.extract_key_concepts (fun x => x) mitochondria_text
  /\ "cell" ∈ Processors.findall_words
                (Processors.clean_text (Py.lower mitochondria_text))
  /\ ("cell" ∉ Processors.stop_words)
  /\ Forall (fun c => Py.is_alpha_az c = true) (Py.chars "cell")
  /\ 2 <= Py.len "cell".
Proof.
  assert ("cell" ∈ Processors.extract_key_concepts (fun x => x) mitochondria_text)
    as H.
  { vm_compute. do 2 apply list_elem_of_further. apply list_elem_of_here. }
  split; [exact H|].
  exact (proj2 (proj2 (extract_key_concepts_spec (fun x => x) mitochondria_text))
           "cell" H).
Defined.

(** ** The validator *)

(** [score_distractor_quality] never raises: what its body raises is caught. *)
Lemma score_distractor_quality_ok sim options correct :
  exists d, Validator.score_distractor_quality sim options correct = Ok d.
Proof.
  unfold Validator.score_distractor_quality.
  destruct sim as [cosine|]; [|by eexists].
  unfold catch.
  match goal with |- context [match ?x with Ok _ => _ | Raise _ => _ end] =>
    destruct x end; by eexists.
Qed.

(** The division for the mean option length has a divisor that is not 0. *)
Lemma avg_option_length_ok (options : list string) :
  exists avg,
    match options with
    | _ :: _ => Validator.true_div (Z.of_nat (list_sum (map Py.len options)))
                                   (Z.of_nat (length options))
    | [] => Ok 0%Q
    end = Ok avg.
Proof.
  destruct options as [|o options]; [by eexists|].
  unfold Validator.true_div.
  destruct (Z.eqb_spec (Z.of_nat (length (o :: options))) 0) as [H|H];
    [simpl in H; lia|by eexists].
Qed.

(** [validate_question_quality] never raises. *)
Lemma validate_question_quality_ok sim question :
  exists result, Validator.validate_question_quality sim question = Ok result.
Proof.
  unfold Validator.validate_question_quality.
  destruct (avg_option_length_ok (default [] (Validator.get_options question)))
    as [avg Havg].
  cbv zeta. monad_unfold. rewrite Havg.
  destruct (4 <=? length (default [] (Validator.get_options question)));
    [|by eexists].
  destruct (score_distractor_quality_ok sim
              (default [] (Validator.get_options question))
              (default "" (Validator.get_correct_answer question))) as [d Hd].
  rewrite Hd. by eexists.
Qed.

(** C3. For every question dictionary, whatever its question text, its
    list of options (the empty one included), its correct answer and its
    explanation, and whether or not a key is missing,
    [validate_question_quality] does not raise and returns a result whose
    score is an integer between 0 and 100. *)
Theorem validate_question_quality_total
  (sim : option (list string -> option (list Q))) (question : Validator.QuestionDict) :
  exists result, Validator.validate_question_quality sim question = Ok result
                 /\ (0 <= Validator.score result <= 100)%Z.
Proof.
  unfold Validator.validate_question_quality.
  destruct (avg_option_length_ok (default [] (Validator.get_options question)))
    as [avg Havg].
  cbv zeta. monad_unfold. rewrite Havg.
  destruct (4 <=? length (default [] (Validator.get_options question))).
  - destruct (score_distractor_quality_ok sim
                (default [] (Validator.get_options question))
                (default "" (Validator.get_correct_answer question))) as [d Hd].
    rewrite Hd. eexists. split; [reflexivity|]. cbn [Validator.score]. lia.
  - eexists. split; [reflexivity|]. cbn [Validator.score]. lia.
Qed.

Lemma paris_facts :
  (length paris_options =? 4) = true
  /\ Py.mem "Paris" paris_options = true
  /\ (Validator.distinct_count paris_options =? length paris_options) = false
  /\ (4 <=? length paris_options) = true
  /\ match paris_options with
     | _ :: _ => Validator.true_div (Z.of_nat (list_sum (map Py.len paris_options)))
                                    (Z.of_nat (length paris_options))
     | [] => Ok 0%Q
     end = Ok (22 # 4)%Q
  /\ Processors.Qlt_bool (22 # 4) 5 = false.
Proof. by vm_compute. Qed.

(** C7. Options "Paris", "Paris", "London", "Berlin" with correct answer
    "Paris": when nothing else is wrong (the question ends with a question
    mark and has 10 to 200 characters, the explanation has at least 10, the
    distractor sub-score is at least 50), [validate_question_quality] takes
    off the 25 points of the duplicate options only: the score is 75 and the
    feedback is "Duplicate options found". *)
Theorem validate_duplicate_options sim question_text explanation d :
  Py.endswith question_text "?" = true ->
  10 <= Py.len question_text <= 200 ->
  10 <= Py.len explanation ->
  Validator.score_distractor_quality sim paris_options "Paris" = Ok d ->
  (50 <= d)%Z ->
  exists result,
    Validator.validate_question_quality sim
      (Validator.mkQuestionDict (Some question_text) (Some paris_options)
                                (Some "Paris") (Some explanation)) = Ok result
    /\ Validator.score result = 75%Z
    /\ Validator.feedback result = "Duplicate options found"
    /\ Py.contains "Duplicate options found" (Validator.feedback result) = true.
Proof.
  intros Hq [Hlo Hhi] He Hd Hd50.
  destruct paris_facts as (F1 & F2 & F3 & F4 & F5 & F6).
  unfold Validator.validate_question_quality.
  cbv zeta.
  cbn [default from_option id Validator.get_question Validator.get_options
       Validator.get_correct_answer Validator.get_explanation].
  monad_unfold.
  rewrite F5, F4, Hd, Hq, F1, F2, F3, F6.
  rewrite (proj2 (Nat.ltb_ge (Py.len question_text) 10)) by lia.
  rewrite (proj2 (Nat.ltb_ge 200 (Py.len question_text))) by lia.
  rewrite (proj2 (Nat.ltb_ge (Py.len explanation) 10)) by lia.
  rewrite (proj2 (Z.ltb_ge d 50)) by lia.
  eexists. split; [reflexivity|].
  cbn [Validator.score Validator.feedback]. by vm_compute.
Qed.

(** The embedding model is absent, so the sub-score is the default, 70. *)
Lemma validate_duplicate_options_witness :
  exists result,
    Validator.validate_question_quality None
      (Validator.mkQuestionDict (Some "What is the capital of France?")
         (Some paris_options) (Some "Paris")
         (Some "Paris is the capital of France.")) = Ok result
    /\ Validator.score result = 75%Z
    /\ Validator.feedback result = "Duplicate options found"
    /\ Py.contains "Duplicate options found" (Validator.feedback result) = true.
Proof.
  apply (validate_duplicate_options None "What is the capital of France?"
           "Paris is the capital of France." 70%Z).
  - reflexivity.
  - vm_compute. lia.
  - vm_compute. lia.
  - reflexivity.
  - lia.
Defined.

(** C8, as the specification states it, fails: with two options the
    result has no "distractor_quality" metric. *)
Lemma quality_metrics_missing_key :
  exists result,
    Validator.validate_question_quality None two_options = Ok result
    /\ Validator.quality_metrics result !! "distractor_quality" = None.
Proof. eexists. split; [reflexivity|]. by vm_compute. Qed.

(** C8, amended. For every question dictionary the quality metrics hold
    question_length, option_count, explanation_length, has_question_mark,
    unique_options and bloom_level; they hold distractor_quality exactly
    when the question has at least four options. *)
Theorem quality_metrics_keys sim question :
  exists result,
    Validator.validate_question_quality sim question = Ok result
    /\ (forall key, key ∈ always_metrics ->
          is_Some (Validator.quality_metrics result !! key))
    /\ (is_Some (Validator.quality_metrics result !! "distractor_quality")
        <-> 4 <= length (default [] (Validator.get_options question))).
Proof.
  unfold Validator.validate_question_quality.
  destruct (avg_option_length_ok (default [] (Validator.get_options question)))
    as [avg Havg].
  cbv zeta. monad_unfold. rewrite Havg.
  destruct (4 <=? length (default [] (Validator.get_options question))) eqn:H4.
  - destruct (score_distractor_quality_ok sim
                (default [] (Validator.get_options question))
                (default "" (Validator.get_correct_answer question))) as [d Hd].
    rewrite Hd. eexists. split; [reflexivity|].
    cbn [Validator.quality_metrics]. split.
    + intros key Hkey. unfold always_metrics in Hkey.
      repeat (apply elem_of_cons in Hkey as [->|Hkey]; [by simplify_map_eq|]).
      by apply elem_of_nil in Hkey.
    + apply Nat.leb_le in H4. split; [done|]. intros _. by simplify_map_eq.
  - eexists. split; [reflexivity|].
    cbn [Validator.quality_metrics]. split.
    + intros key Hkey. unfold always_metrics in Hkey.
      repeat (apply elem_of_cons in Hkey as [->|Hkey]; [by simplify_map_eq|]).
      by apply elem_of_nil in Hkey.
    + apply Nat.leb_gt in H4. split; [|lia].
      simplify_map_eq. by intros [? ?].
Qed.

(** Two options: the six metrics are there, distractor_quality is not. *)
Lemma quality_metrics_keys_witness :
  "bloom_level" ∈ always_metrics
  /\ exists result,
       Validator.validate_question_quality None two_options = Ok result
       /\ is_Some (Validator.quality_metrics result !! "bloom_level")
       /\ (is_Some (Validator.quality_metrics result !! "distractor_quality")
           <-> 4 <= length (default [] (Validator.get_options two_options))).
Proof.
  assert ("bloom_level" ∈ always_metrics) as H.
  { unfold always_metrics. do 5 apply list_elem_of_further. apply list_elem_of_here. }
  split; [exact H|].
  destruct (quality_metrics_keys None two_options) as (result & Hres & Hkeys & Hd).
  exists result. split; [exact Hres|]. split; [exact (Hkeys _ H)|exact Hd].
Defined.

(** *** What the feedback reports *)

Lemma append_cons c a b : String c a +:+ b = String c (a +:+ b).
Proof. reflexivity. Qed.

Lemma prefix_nil s : String.prefix "" s = true.
Proof. by destruct s. Qed.













(** [validate_multiple_questions] yields one result for each question, in
    order. *)
Lemma validate_multiple_questions_spec sim questions :
  exists results,
    Validator.validate_multiple_questions sim questions = Ok results
    /\ Forall2 (fun question result =>
                  Validator.validate_question_quality sim question = Ok result)
         questions results.
Proof.
  induction questions as [|question rest (results & Hrest & Hall)].
  - exists []. split; [done|]. apply Forall2_nil_2.
  - destruct (validate_question_quality_ok sim question) as (result & Hres).
    exists (result :: results). split.
    + cbn [Validator.validate_multiple_questions]. monad_unfold.
      by rewrite Hres, Hrest.
    + by apply Forall2_cons.
Qed.

(** ** The Gemini path *)

Lemma randint_range a b w :
  (a <= b)%Z ->
  exists k w', Random.randint a b w = (Ok k, w') /\ no_external_call w w'
               /\ (a <= k <= b)%Z.
Proof.
  intros Hab. unfold Random.randint.
  destruct (randbelow_spec (Z.to_nat (b - a + 1)) w) as (k & w1 & Hk & Hq & Hlt).
  rewrite (bind_ok _ _ _ _ _ Hk). eexists _, _. split; [reflexivity|].
  split; [done|]. specialize (Hlt ltac:(lia)). lia.
Qed.

(** A key has a value in a dictionary exactly when it is one of its keys. *)
Lemma dict_get_None {A} key (members : list (string * A)) :
  Json.dict_get key members = None <-> key ∉ members.*1.
Proof.
  induction members as [|[k v] rest IH]; simpl.
  - split; [intros _; apply not_elem_of_nil|done].
  - rewrite not_elem_of_cons, <- IH.
    destruct (Json.dict_get key rest) as [later|].
    + split; [done|]. by intros [_ ?].
    + destruct (String.eqb_spec k key) as [->|Hne].
      * split; [done|]. by intros [? _].
      * split; [intros _; split; [congruence|done]|done].
Qed.

Lemma contains_key key members :
  Json.contains (JString key) (JObject members)
  = Ok (match Json.dict_get key members with Some _ => true | None => false end).
Proof.
  cbn [Json.contains]. f_equal.
  destruct (Json.dict_get key members) eqn:H.
  - apply bool_decide_eq_true_2.
    destruct (decide (key ∈ members.*1)) as [|Hno]; [done|].
    apply dict_get_None in Hno. congruence.
  - apply bool_decide_eq_false_2. by apply dict_get_None.
Qed.

(** The first check of [_structure_question], on a dictionary. *)
Lemma all_in_object members :
  Json.all_in ["question"; "options"; "correct_answer"; "explanation"]
              (JObject members)
  = Ok (match Json.dict_get "question" members, Json.dict_get "options" members,
              Json.dict_get "correct_answer" members,
              Json.dict_get "explanation" members with
        | Some _, Some _, Some _, Some _ => true
        | _, _, _, _ => false
        end).
Proof.
  cbn [Json.all_in]. rewrite !contains_key.
  by destruct (Json.dict_get "question" members),
              (Json.dict_get "options" members),
              (Json.dict_get "correct_answer" members),
              (Json.dict_get "explanation" members).
Qed.

(** On a value that is no dictionary the first check fails, or the lookup
    of the options raises. *)
Lemma structure_question_other q_data difficulty subject_area w :
  (forall members, q_data <> JObject members) ->
  Gemini._structure_question q_data difficulty subject_area w = (Ok None, w).
Proof.
  intros Hno. unfold Gemini._structure_question, lift. monad_unfold.
  destruct (Json.all_in _ q_data) as [[|]|e]; [|done|done].
  cbn [negb]. destruct q_data; try done. by destruct (Hno members).
Qed.

(** [_structure_question] never raises and calls no service; it builds a
    question, key by key from the entry, exactly for the entries that are
    [kept], and yields [None] for the others. *)
Lemma structure_question_spec q_data difficulty subject_area w :
  exists r w',
    Gemini._structure_question q_data difficulty subject_area w = (Ok r, w')
    /\ no_external_call w w'
    /\ (if kept q_data
        then exists q, r = Some q
                       /\ built_from difficulty subject_area q_data q
                       /\ four_with_answer q
        else r = None).
Proof.
  assert (forall w1, no_external_call w w1 ->
            exists r w', (Ok (@None StructuredQuestion), w1) = (Ok r, w')
              /\ no_external_call w w' /\ r = None) as Hdrop.
  { intros w1 Hq. by exists None, w1. }
  destruct q_data as [| | | | | |members];
    try (rewrite structure_question_other by done; by apply Hdrop).
  unfold kept, passes_checks, texts_are_strings, built_from, member.
  unfold Gemini._structure_question, lift. monad_unfold.
  rewrite all_in_object. cbn [Json.getitem Json.get].
  destruct (Json.dict_get "question" members) as [q_question|];
    [|by apply Hdrop].
  destruct (Json.dict_get "options" members) as [options|];
    [|by apply Hdrop].
  destruct (Json.dict_get "correct_answer" members) as [correct_answer|];
    [|by apply Hdrop].
  destruct (Json.dict_get "explanation" members) as [q_explanation|];
    [|by apply Hdrop].
  cbn [negb].
  destruct (Json.len options) as [[|[|[|[|[|n]]]]]|e] eqn:Hlen;
    cbn [Nat.eqb negb andb]; try by apply Hdrop.
  destruct (Json.contains correct_answer options) as [[|]|e] eqn:Hin;
    cbn [negb andb]; try by apply Hdrop.
  destruct (randint_range 1000 9999 w ltac:(lia)) as (id & w1 & Hid & Hq & Hrange).
  rewrite Hid.
  destruct q_question as [| | | |q_question| |]; cbn [Json.strip];
    try by apply Hdrop.
  destruct q_explanation as [| | | |q_explanation| |]; cbn [Json.strip];
    try by apply Hdrop.
  destruct (Json.dict_get "difficulty" members) as [[| | | |q_difficulty| |]|];
    cbn [Json.lower]; try by apply Hdrop.
  all: destruct (Json.dict_get "bloom_level" members) as [bloom_level|];
    destruct (Json.dict_get "category" members) as [category|].
  all: eexists _, _; (split; [reflexivity|]); (split; [done|]).
  all: eexists; (split; [reflexivity|]); (split; [|done]).
  all: cbn [s_id s_question s_options s_correct_answer s_explanation s_difficulty
            s_bloom_level s_category s_subject_area s_created_at default].
  all: split; [done|]; split; [by eexists|]; split; [done|]; split; [done|].
  all: split; [by eexists|]; split; [by eexists|]; done.
Qed.

(** The loop over the parsed entries never raises and calls no service; it
    builds the questions of the entries that are [kept], in their order,
    and nothing of the others. *)
Lemma structure_loop_spec (entries : list JSON) difficulty subject_area w :
  exists qs w',
    for_each entries
      (fun q_data questions =>
         question ← Gemini._structure_question q_data difficulty subject_area;
         match question with
         | Some question => mret (questions ++ [question])
         | None => mret questions
         end) [] w = (Ok qs, w')
    /\ no_external_call w w'
    /\ Forall2 (built_from difficulty subject_area) (filter kept entries) qs
    /\ Forall four_with_answer qs.
Proof.
  pose (I := fun (k : nat) (qs : list StructuredQuestion) (w' : World) =>
    no_external_call w w'
    /\ Forall2 (built_from difficulty subject_area) (filter kept (take k entries)) qs
    /\ Forall four_with_answer qs).
  destruct (for_each_invariant
    (fun q_data questions =>
         question ← Gemini._structure_question q_data difficulty subject_area;
         match question with
         | Some question => mret (questions ++ [question])
         | None => mret questions
         end) I entries) with (acc := @nil StructuredQuestion) (w := w)
    as (qs & w' & Hrun & Hq & Hbuilt & Hall).
  - unfold I. intros k q_data qs w1 Hk (Hq & Hbuilt & Hall).
    destruct (structure_question_spec q_data difficulty subject_area w1)
      as (r & w2 & Hr & Hq2 & Hcase).
    rewrite (bind_ok _ _ _ _ _ Hr).
    assert (no_external_call w w2) as Hq3.
    { unfold no_external_call in *. congruence. }
    rewrite (take_S_r _ _ _ Hk), filter_app, filter_cons, filter_nil.
    destruct (kept q_data).
    + destruct Hcase as (q & -> & Hq_data & Hshape).
      eexists _, _. split; [reflexivity|]. split; [done|]. split.
      * rewrite decide_True by done. apply Forall2_app; [done|].
        by apply Forall2_cons.
      * apply Forall_app. split; [done|]. by apply Forall_singleton.
    + subst r. eexists _, _. split; [reflexivity|]. split; [done|].
      split; [|done].
      rewrite decide_False by (by intros []). by rewrite app_nil_r.
  - unfold I. split; [done|]. split; [|done]. rewrite take_0. apply Forall2_nil_2.
  - exists qs, w'. rewrite firstn_all in Hbuilt. by repeat split.
Qed.

Lemma generate_content_parsed prompt entries w :
  w_gemini w (w_gemini_calls w) prompt = GeminiParsed entries ->
  Gemini.generate_content prompt w
  = (Ok (GeminiParsed entries), Gemini.gemini_called w).
Proof. intros H. unfold Gemini.generate_content. by rewrite H. Qed.

Lemma gemini_called_calls w :
  external_calls (Gemini.gemini_called w) = external_calls w + 1.
Proof. unfold external_calls, Gemini.gemini_called. simpl. lia. Qed.

(** What [generate_mcq] makes of an array Gemini answers with: one call of
    Gemini, and the questions of the entries [kept] among the first
    [n]. *)
Lemma gemini_reply_parsed text n requested entries w :
  w_gemini w (w_gemini_calls w) (gemini_prompt_of text n requested)
  = GeminiParsed entries ->
  exists qs w',
    Gemini.generate_mcq true text n requested w = (Ok (Structured <$> qs), w')
    /\ external_calls w' = external_calls w + 1
    /\ Forall2 (built_from (Py.lower requested) (Prompts.detect_subject_area text))
         (filter kept (take (Z.to_nat n) entries)) qs
    /\ Forall four_with_answer qs.
Proof.
  unfold gemini_prompt_of. intros H.
  destruct (structure_loop_spec (take (Z.to_nat n) entries)
              (Py.lower requested) (Prompts.detect_subject_area text)
              (Gemini.gemini_called w))
    as (qs & w' & Hrun & Hq & Hbuilt & Hall).
  exists qs, w'. split; [|split; [|done]].
  - unfold Gemini.generate_mcq. cbn [negb]. cbv zeta.
    apply try_except_ok.
    assert (Gemini._generate_questions_with_gemini
              (Processors.preprocess_text text) n (Py.lower requested)
              (Prompts.detect_subject_area text) w = (Ok qs, w')) as Hgen.
    { unfold Gemini._generate_questions_with_gemini. cbv zeta.
      apply try_except_ok.
      rewrite (bind_ok _ _ _ _ _ (generate_content_parsed _ _ _ H)).
      exact Hrun. }
    by rewrite (bind_ok _ _ _ _ _ Hgen).
  - unfold no_external_call in Hq. rewrite Hq. apply gemini_called_calls.
Qed.




(** ** The model path of generator.py *)

Lemma generate_text_total prompt max_length w :
  exists s w', Generator._generate_text prompt max_length w = (Ok s, w').
Proof.
  unfold Generator._generate_text. apply try_except_total.
  intros e w1. by eexists _, _.
Qed.

Lemma pad_distractors_full turns (distractors : list string) :
  length distractors = 3 -> Generator.pad_distractors turns distractors = distractors.
Proof. intros H. destruct turns; [done|]. simpl. by rewrite H. Qed.

(** [_generate_enhanced_distractors] never raises and yields three
    distractors. *)
Lemma generate_enhanced_distractors_total
  correct_answer context difficulty subject_area w :
  exists distractors w',
    Generator._generate_enhanced_distractors correct_answer context difficulty
      subject_area w = (Ok distractors, w')
    /\ length distractors = 3.
Proof.
  unfold Generator._generate_enhanced_distractors. cbv zeta.
  set (prompt := Prompts.get_distractor_prompt _ _ _).
  match goal with |- context [for_each ?l ?b ?a] =>
    destruct (for_each_invariant b (fun k ds _ => length ds = k) l)
      with (acc := a) (w := w) as (ds & w' & Hrun & Hlen)
  end.
  - intros k i ds w1 _ Hlen.
    unfold try_except.
    destruct (generate_text_total prompt 50 w1) as (s & w2 & Hs).
    rewrite (bind_ok _ _ _ _ _ Hs).
    match goal with |- context [if ?c then _ else _] => destruct c end;
      eexists _, _; (split; [reflexivity|]); rewrite length_app; simpl; lia.
  - done.
  - rewrite (bind_ok _ _ _ _ _ Hrun).
    rewrite length_range in Hlen. change (Z.to_nat 3) with 3 in Hlen.
    rewrite pad_distractors_full by done.
    eexists _, _. split; [reflexivity|]. rewrite length_take. lia.
Qed.

(** The body of the [try] never raises, and its question has four options,
    the correct answer among them. *)
Lemma generate_question_total
  chunk chunk_concepts q_index difficulty subject_area w :
  exists q w',
    Generator.generate_question chunk chunk_concepts q_index difficulty
      subject_area w = (Ok q, w')
    /\ has_shape q.
Proof.
  unfold Generator.generate_question.
  assert (exists concept,
    (match chunk_concepts with
     | _ :: _ =>
         match chunk_concepts !! (q_index mod length chunk_concepts) with
         | Some concept => mret concept
         | None => raise "IndexError"
         end
     | [] => mret "main concept"
     end : M string) w = (Ok concept, w)) as (concept & Hc).
  { destruct chunk_concepts as [|c cs]; [by eexists|].
    destruct (lookup_lt_is_Some_2 (c :: cs) (q_index mod length (c :: cs)))
      as [x Hx].
    { apply Nat.mod_upper_bound. simpl. lia. }
    rewrite Hx. by eexists. }
  rewrite (bind_ok _ _ _ _ _ Hc). cbv zeta.
  destruct (generate_text_total (Prompts.get_difficulty_prompt difficulty chunk)
              100 w) as (qt & w1 & Hqt).
  rewrite (bind_ok _ _ _ _ _ Hqt).
  match goal with |- context [Generator._generate_text ?p 50] =>
    destruct (generate_text_total p 50 w1) as (ca & w2 & Hca) end.
  rewrite (bind_ok _ _ _ _ _ Hca).
  destruct (generate_enhanced_distractors_total (Py.strip ca) chunk difficulty
              subject_area w2) as (ds & w3 & Hds & Hlen).
  rewrite (bind_ok _ _ _ _ _ Hds).
  destruct (shuffle_spec ([Py.strip ca] ++ ds) w3) as (opts & w4 & Hs & Hp & _).
  rewrite (bind_ok _ _ _ _ _ Hs).
  unfold Generator._generate_enhanced_explanation. cbv zeta.
  match goal with |- context [Generator._generate_text ?p 150] =>
    destruct (generate_text_total p 150 w4) as (ex & w5 & Hex) end.
  rewrite (bind_ok _ _ _ _ _ (bind_ok _ _ _ _ _ Hex)).
  eexists _, _. split; [reflexivity|]. split; cbn [options correct_answer].
  - rewrite Hp, length_app. simpl. lia.
  - rewrite Hp. apply elem_of_app. left. apply list_elem_of_here.
Qed.

(** With the model loaded, [generate_mcq] never raises, and every question
    it returns has four options with the correct answer among them. That
    the options are distinct does not follow, see below. *)
Lemma generate_mcq_model_path ln text num_questions difficulty w :
  exists qs w',
    Generator.generate_mcq ln true text num_questions difficulty w = (Ok qs, w')
    /\ Forall has_shape qs.
Proof.
  unfold Generator.generate_mcq. cbn [negb]. cbv zeta.
  destruct (length (Processors.preprocess_text text) =? 0) eqn:Hlen.
  { apply Nat.eqb_eq, length_zero_iff_nil in Hlen.
    by apply preprocess_text_not_nil in Hlen. }
  match goal with |- context [for_each ?l ?b ?a] =>
    destruct (for_each_invariant b
                (fun _ (acc : list Question * Z) _ => Forall has_shape acc.1) l)
      with (acc := a) (w := w) as ([qs rest] & w' & Hrun & Hall)
  end.
  - intros k [chunk_index chunk] [questions remaining] w1 _ Hall.
    destruct (remaining <=? 0)%Z; [by eexists _, _|].
    match goal with |- context [for_each ?l ?b ?a] =>
      apply (for_each_invariant b
               (fun _ (acc : list Question * Z) _ => Forall has_shape acc.1) l)
    end; [|done].
    intros j q_index [questions' remaining'] w2 _ Hall'.
    unfold try_except.
    match goal with |- context [Generator.generate_question ?c ?cs ?i ?d ?s] =>
      destruct (generate_question_total c cs i d s w2) as (q & w3 & Hq & Hshape)
    end.
    rewrite (bind_ok _ _ _ _ _ Hq).
    eexists _, _. split; [reflexivity|].
    apply Forall_app. split; [done|]. by apply Forall_singleton.
  - done.
  - rewrite (bind_ok _ _ _ _ _ Hrun). by eexists _, _.
Qed.

(** C1 does not hold of the code. The text model answers every prompt with
    "Alternative option 2". That is the correct answer, so the first two
    distractors are refused and replaced by "Alternative option 1" and
    "Alternative option 2": the replacement is not compared with the correct
    answer, and the question returned has the same option twice. *)
Theorem generate_mcq_duplicate_options (ln : Q -> Q) :
  exists q w',
    Generator.generate_mcq ln true "Cells." 1 "medium" repeating_model = (Ok [q], w')
    /\ correct_answer q = "Alternative option 2"
    /\ options q = ["Alternative option 2"; "Alternative option 3";
                    "Alternative option 1"; "Alternative option 2"]
    /\ options q !! 0 = options q !! 3
    /\ ~ NoDup (options q)
    /\ ~ well_formed q.
Proof.
  eexists _, _. split; [by vm_compute|]. cbn [correct_answer options].
  split; [done|]. split; [done|]. split; [done|].
  assert (~ NoDup ["Alternative option 2"; "Alternative option 3";
                   "Alternative option 1"; "Alternative option 2"]) as H.
  { intros H. apply NoDup_cons in H as [H _]. apply H.
    do 2 apply list_elem_of_further. apply list_elem_of_here. }
  split; [done|]. by intros (_ & _ & ?).
Qed.

(** C5 does not hold of the code. The question mark is added before the
    generated "Options:" section is cut off, and goes with it. *)
Theorem clean_question_text_loses_mark :
  Generator._clean_question_text with_options = "Which planet is largest"
  /\ Py.endswith (Generator._clean_question_text with_options) "?" = false.
Proof. by vm_compute. Qed.

(** * Properties of the further parts *)

(** ** Planning the number of questions *)

(** X1. For every text length, [determine_optimal_question_count] gives
    [1 <= minimum <= recommended < maximum <= 15]. *)
Theorem question_count_ordered (text_length : Z) :
  let c := Planning.determine_optimal_question_count text_length in
  (1 <= Planning.minimum c <= Planning.recommended c)%Z
  /\ (Planning.recommended c < Planning.maximum c <= 15)%Z.
Proof.
  unfold Planning.determine_optimal_question_count.
  repeat (match goal with |- context [(?a <? ?b)%Z] => destruct (a <? b)%Z end);
    vm_compute; repeat split; congruence.
Qed.

(** X2. A longer text never gets a smaller recommended, maximum or minimum
    number of questions. *)
Theorem question_count_monotone (a b : Z) :
  (a <= b)%Z ->
  let ca := Planning.determine_optimal_question_count a in
  let cb := Planning.determine_optimal_question_count b in
  (Planning.recommended ca <= Planning.recommended cb)%Z
  /\ (Planning.maximum ca <= Planning.maximum cb)%Z
  /\ (Planning.minimum ca <= Planning.minimum cb)%Z.
Proof.
  intros Hab. unfold Planning.determine_optimal_question_count.
  repeat (match goal with |- context [(?x <? ?y)%Z] =>
            destruct (Z.ltb_spec x y) end);
    cbn; try lia; vm_compute; repeat split; congruence.
Qed.

(** A page of 150 characters and one of 1500. *)
Lemma question_count_monotone_witness :
  (150 <= 1500)%Z
  /\ (Planning.recommended (Planning.determine_optimal_question_count 150)
      <= Planning.recommended (Planning.determine_optimal_question_count 1500))%Z
  /\ (Planning.maximum (Planning.determine_optimal_question_count 150)
      <= Planning.maximum (Planning.determine_optimal_question_count 1500))%Z
  /\ (Planning.minimum (Planning.determine_optimal_question_count 150)
      <= Planning.minimum (Planning.determine_optimal_question_count 1500))%Z.
Proof.
  split; [lia|]. apply (question_count_monotone 150 1500). lia.
Defined.

(** ** The subject of a text *)

(** X3. [detect_subject_area] answers a subject only when the text holds
    at least two of its keywords, and settles ties in the order science,
    history, literature: "science" when its count is at least 2 and no
    other count is greater; "history" when its count is at least 2,
    greater than that of science and not less than that of literature;
    "literature" when its count is at least 2 and greater than both;
    "general" otherwise. *)
Theorem detect_subject_area_cases (text : string) :
  let s := PromptTables.keyword_count PromptTables.science_keywords text in
  let h := PromptTables.keyword_count PromptTables.history_keywords text in
  let l := PromptTables.keyword_count PromptTables.literature_keywords text in
  Prompts.detect_subject_area text =
    if decide (2 <= s /\ h <= s /\ l <= s) then "science"
    else if decide (2 <= h /\ l <= h) then "history"
    else if decide (2 <= l) then "literature"
    else "general".
Proof.
  cbv zeta. unfold Prompts.detect_subject_area, PromptTables.keyword_count.
  cbv zeta.
  change ["experiment"; "hypothesis"; "theory"; "analysis"; "scientific";
          "research"; "study"; "data"; "observation"; "method"]
    with PromptTables.science_keywords.
  change ["century"; "war"; "empire"; "historical"; "period"; "era";
          "ancient"; "revolution"; "society"; "civilization"]
    with PromptTables.history_keywords.
  change ["character"; "theme"; "plot"; "author"; "literary"; "novel";
          "story"; "poem"; "narrative"; "symbolism"]
    with PromptTables.literature_keywords.
  set (s := Prompts.count_keywords PromptTables.science_keywords _).
  set (h := Prompts.count_keywords PromptTables.history_keywords _).
  set (l := Prompts.count_keywords PromptTables.literature_keywords _).
  destruct (Nat.leb_spec 2 (Nat.max (Nat.max s h) l)) as [Hm|Hm].
  - destruct (Nat.eqb_spec s (Nat.max (Nat.max s h) l)) as [Hs|Hs].
    { rewrite decide_True by lia. done. }
    rewrite decide_False by lia.
    destruct (Nat.eqb_spec h (Nat.max (Nat.max s h) l)) as [Hh|Hh].
    { rewrite decide_True by lia. done. }
    rewrite decide_False by lia.
    destruct (Nat.eqb_spec l (Nat.max (Nat.max s h) l)) as [Hl|Hl]; [|lia].
    rewrite decide_True by lia. done.
  - rewrite !decide_False by lia. done.
Qed.

(** *** Stripping *)

Lemma rev_is_reverse {A} (l : list A) : rev l = reverse l.
Proof. induction l as [|x l IH]; [done|]. simpl. by rewrite reverse_cons, IH. Qed.

Lemma dropwhile_split p l : exists a, l = a ++ Py.dropwhile p l.
Proof.
  induction l as [|c l [a IH]]; simpl; [by exists []|].
  destruct (p c); [|by exists []]. exists (c :: a). simpl. by rewrite <- IH.
Qed.

Lemma dropwhile_head p l c : head (Py.dropwhile p l) = Some c -> p c = false.
Proof.
  induction l as [|a l IH]; simpl; [done|].
  destruct (p a) eqn:Ha; [done|]. simpl. by intros [= <-].
Qed.

(** What [strip] keeps is a stretch of the text. *)
Lemma strip_with_infix p l : exists a b, l = a ++ Py.strip_with p l ++ b.
Proof.
  unfold Py.strip_with.
  destruct (dropwhile_split p l) as [a Ha].
  destruct (dropwhile_split p (rev (Py.dropwhile p l))) as [b Hb].
  exists a, (rev b).
  rewrite <- rev_app_distr, <- Hb, rev_involutive. exact Ha.
Qed.

Lemma strip_with_elem p l c : c ∈ Py.strip_with p l -> c ∈ l.
Proof.
  destruct (strip_with_infix p l) as (a & b & H). intros Hc. rewrite H.
  apply elem_of_app. right. apply elem_of_app. by left.
Qed.

(** What [strip] keeps neither begins nor ends with a stripped character. *)
Lemma strip_with_ends p l :
  (forall c, head (Py.strip_with p l) = Some c -> p c = false)
  /\ (forall c, last (Py.strip_with p l) = Some c -> p c = false).
Proof.
  unfold Py.strip_with.
  set (X := Py.dropwhile p l).
  set (Y := Py.dropwhile p (rev X)).
  split; intros c Hc.
  - rewrite rev_is_reverse, head_reverse in Hc.
    destruct (dropwhile_split p (rev X)) as [b Hb]. fold Y in Hb.
    assert (last (rev X) = Some c) as HX.
    { rewrite Hb. destruct Y as [|y Y']; [done|]. by rewrite last_app_cons. }
    rewrite rev_is_reverse, last_reverse in HX.
    by apply (dropwhile_head p l).
  - rewrite rev_is_reverse, last_reverse in Hc.
    by apply (dropwhile_head p (rev X)).
Qed.

(** *** The stages of [Processors.clean_text] *)

Lemma collapse_spaces_elem b l c :
  c ∈ Processors.collapse_spaces b l -> c = space \/ (c ∈ l /\ Py.isspace c = false).
Proof.
  revert b. induction l as [|a l IH]; intros b; simpl; [by intros ?%elem_of_nil|].
  destruct (Py.isspace a) eqn:Ha.
  - destruct b.
    + intros H. destruct (IH _ H) as [?|[? ?]]; [by left|right]. split; [|done].
      by apply list_elem_of_further.
    + intros [->|H]%elem_of_cons; [by left|].
      destruct (IH _ H) as [?|[? ?]]; [by left|right]. split; [|done].
      by apply list_elem_of_further.
  - intros [->|H]%elem_of_cons.
    + right. split; [apply list_elem_of_here|done].
    + destruct (IH _ H) as [?|[? ?]]; [by left|right]. split; [|done].
      by apply list_elem_of_further.
Qed.

Lemma squeeze_elem p b l c : c ∈ Processors.squeeze p b l -> c ∈ l.
Proof.
  revert b. induction l as [|a l IH]; intros b; simpl; [done|].
  destruct (Ascii.eqb a p).
  - destruct b.
    + intros H. apply list_elem_of_further. by eapply IH.
    + intros [->|H]%elem_of_cons; [apply list_elem_of_here|].
      apply list_elem_of_further. by eapply IH.
  - intros [->|H]%elem_of_cons; [apply list_elem_of_here|].
    apply list_elem_of_further. by eapply IH.
Qed.

Lemma space_after_punct_elem l c :
  c ∈ Processors.space_after_punct l -> c = space \/ c ∈ l.
Proof.
  induction l as [|a l IH]; [by intros ?%elem_of_nil|].
  cbn [Processors.space_after_punct]. destruct l as [|d l'].
  - intros H. by right.
  - destruct (Py.mem_char a ".!?" && Py.is_upper_az d).
    + intros [->|[->|H]%elem_of_cons]%elem_of_cons.
      * right. apply list_elem_of_here.
      * by left.
      * destruct (IH H) as [?|?]; [by left|right]. by apply list_elem_of_further.
    + intros [->|H]%elem_of_cons; [right; apply list_elem_of_here|].
      destruct (IH H) as [?|?]; [by left|right]. by apply list_elem_of_further.
Qed.

(** A character of the cleaned text is a space, or a character of the
    text that is not white space and is a word character or one of
    [. ! ? , -]. *)
Lemma clean_text_elem text c :
  c ∈ Py.chars (Processors.clean_text text) ->
  c = space
  \/ (c ∈ Py.chars text /\ Py.isspace c = false
      /\ (Py.is_word c || Py.mem_char c ".!?,-") = true).
Proof.
  unfold Processors.clean_text, Py.strip. rewrite !chars_str.
  intros H%strip_with_elem.
  apply space_after_punct_elem in H as [H|H]; [by left|].
  do 3 apply squeeze_elem in H.
  unfold Processors.keep_basic in H. apply list_elem_of_filter in H as [Hk H].
  apply collapse_spaces_elem in H as [H|[H Hs]]; [by left|].
  right. split; [done|]. split; [done|].
  rewrite Hs in Hk. rewrite orb_false_r in Hk. by apply Is_true_eq_true.
Qed.

(** X4. The cleaned text is made of spaces, word characters and the
    punctuation marks [. ! ? , -] only: tabs and line breaks have become
    spaces and every other character is gone. *)
Theorem clean_text_alphabet text :
  Forall (fun c => c = space \/ (Py.is_word c || Py.mem_char c ".!?,-") = true)
    (Py.chars (Processors.clean_text text)).
Proof.
  apply Forall_forall. intros c Hc.
  destruct (clean_text_elem text c Hc) as [?|(_ & _ & ?)]; [by left|by right].
Qed.

(** X5. The cleaned text neither begins nor ends with white space. *)
Theorem clean_text_stripped text :
  (forall c, head (Py.chars (Processors.clean_text text)) = Some c -> Py.isspace c = false)
  /\ (forall c, last (Py.chars (Processors.clean_text text)) = Some c -> Py.isspace c = false).
Proof. unfold Processors.clean_text, Py.strip. rewrite chars_str. apply strip_with_ends. Qed.

(** The text about the mitochondria begins with "T" and ends with ".". *)
Lemma clean_text_stripped_witness :
  head (Py.chars (Processors.clean_text mitochondria_text)) = Some "T"%char
  /\ Py.isspace "T"%char = false
  /\ last (Py.chars (Processors.clean_text mitochondria_text)) = Some "."%char
  /\ Py.isspace "."%char = false.
Proof.
  assert (head (Py.chars (Processors.clean_text mitochondria_text)) = Some "T"%char)
    as Hh by (by vm_compute).
  assert (last (Py.chars (Processors.clean_text mitochondria_text)) = Some "."%char)
    as Hl by (by vm_compute).
  split; [exact Hh|]. split.
  { exact (proj1 (clean_text_stripped mitochondria_text) _ Hh). }
  split; [exact Hl|].
  exact (proj2 (clean_text_stripped mitochondria_text) _ Hl).
Defined.

(** *** Key concepts are lower case *)

Lemma lower_char_not_upper c : Py.is_upper_az (Py.lower_char c) = false.
Proof. destruct c as [[] [] [] [] [] [] [] []]; by vm_compute. Qed.

Lemma lower_char_idem c : Py.lower_char (Py.lower_char c) = Py.lower_char c.
Proof. destruct c as [[] [] [] [] [] [] [] []]; by vm_compute. Qed.

Lemma word_runs_elem cur l run c :
  run ∈ Processors.word_runs cur l -> c ∈ run -> c ∈ cur \/ c ∈ l.
Proof.
  revert cur. induction l as [|a l IH]; intros cur; simpl.
  - destruct cur as [|x cur]; [by intros ?%elem_of_nil|].
    intros ->%list_elem_of_singleton Hc. left.
    apply list_elem_of_In, in_rev, list_elem_of_In in Hc. exact Hc.
  - destruct (Py.is_word a).
    + intros Hr Hc. destruct (IH _ Hr Hc) as [[->|H]%elem_of_cons|H].
      * right. apply list_elem_of_here.
      * by left.
      * right. by apply list_elem_of_further.
    + destruct cur as [|x cur].
      * intros Hr Hc. destruct (IH _ Hr Hc) as [H|H]; [by left|].
        right. by apply list_elem_of_further.
      * intros [->|Hr]%elem_of_cons Hc.
        -- left. apply list_elem_of_In, in_rev, list_elem_of_In in Hc. exact Hc.
        -- destruct (IH _ Hr Hc) as [H|H]; [by apply elem_of_nil in H|].
           right. by apply list_elem_of_further.
Qed.

(** A key concept is one of the meaningful words: a token found in the
    cleaned lower-cased text, no stop word, longer than two characters. *)
Lemma scored_keys {B} (g : nat -> B) (counts : list (string * nat)) :
  (map (fun '(word, freq) => (word, g freq)) counts).*1 = counts.*1.
Proof.
  rewrite <- list_fmap_compose. apply list_fmap_ext. by intros _ [k n] _.
Qed.

Lemma key_concept_meaningful (ln : Q -> Q) text term :
  term ∈ Processors.extract_key_concepts ln text ->
  term ∈ Processors.findall_words (Processors.clean_text (Py.lower text))
  /\ 3 <= Py.len term.
Proof.
  unfold Processors.extract_key_concepts.
  match goal with |- context [Processors.Counter ?l] => set (meaningful := l) end.
  match goal with |- context [Processors.sorted_desc ?l] => set (scores := l) end.
  change (map fst (take 10 (Processors.sorted_desc scores)))
    with (take 10 (Processors.sorted_desc scores)).*1.
  rewrite fmap_take. intros Hterm.
  apply elem_of_take in Hterm as (i & Hi & _).
  apply list_elem_of_lookup_2 in Hi.
  rewrite sorted_desc_perm in Hi.
  unfold scores in Hi. rewrite scored_keys in Hi.
  apply Counter_keys in Hi. unfold meaningful in Hi.
  apply list_elem_of_filter in Hi as [Hp Hw].
  apply andb_prop_elim in Hp as [_ Hlen].
  apply Is_true_eq_true, Nat.ltb_lt in Hlen. split; [done|lia].
Qed.

(** X6. Every key concept has at least three characters, all of them lower
    case letters a to z. *)
Theorem key_concepts_lower_case (ln : Q -> Q) text term :
  term ∈ Processors.extract_key_concepts ln text ->
  3 <= Py.len term
  /\ Forall (fun c => Py.is_lower_az c = true) (Py.chars term).
Proof.
  intros Hterm.
  destruct (key_concept_meaningful ln text term Hterm) as [Hw Hlen].
  split; [done|].
  destruct (findall_words_token _ _ Hw) as [Halpha _].
  unfold Processors.findall_words in Hw.
  apply list_elem_of_fmap in Hw as (run & -> & Hrun).
  apply list_elem_of_filter in Hrun as [_ Hrun].
  rewrite chars_str in *.
  apply Forall_forall. intros c Hc.
  rewrite Forall_forall in Halpha. specialize (Halpha c Hc).
  destruct (word_runs_elem _ _ _ _ Hrun Hc) as [H|H]; [by apply elem_of_nil in H|].
  apply clean_text_elem in H as [->|(H & _)]; [done|].
  unfold Py.lower in H. rewrite chars_str in H.
  apply list_elem_of_fmap in H as (c0 & -> & _).
  unfold Py.is_alpha_az in Halpha. rewrite lower_char_not_upper in Halpha.
  exact Halpha.
Qed.

(** "cell" is a key concept of the text about the mitochondria. *)
Lemma key_concepts_lower_case_witness :
  "cell" ∈ Processors.extract_key_concepts (fun x => x) mitochondria_text
  /\ 3 <= Py.len "cell"
  /\ Forall (fun c => Py.is_lower_az c = true) (Py.chars "cell").
Proof.
  assert ("cell" ∈ Processors.extract_key_concepts (fun x => x) mitochondria_text)
    as H.
  { vm_compute. do 2 apply list_elem_of_further. apply list_elem_of_here. }
  split; [exact H|].
  exact (key_concepts_lower_case (fun x => x) mitochondria_text "cell" H).
Defined.

(** ** The model path of generator.py, question by question *)

Lemma dropwhile_fixed p l :
  (forall c, head l = Some c -> p c = false) -> Py.dropwhile p l = l.
Proof.
  destruct l as [|a l]; [done|]. intros H. simpl. by rewrite (H a eq_refl).
Qed.

(** Stripping twice is stripping once. *)
Lemma strip_with_idem p l : Py.strip_with p (Py.strip_with p l) = Py.strip_with p l.
Proof.
  destruct (strip_with_ends p l) as [Hh Hl].
  set (s := Py.strip_with p l) in *.
  unfold Py.strip_with at 1.
  rewrite (dropwhile_fixed p s Hh).
  rewrite (dropwhile_fixed p (rev s)); [apply rev_involutive|].
  intros c Hc. apply Hl. by rewrite rev_is_reverse, head_reverse in Hc.
Qed.

Lemma strip_idem s : Py.strip (Py.strip s) = Py.strip s.
Proof. unfold Py.strip. by rewrite chars_str, strip_with_idem. Qed.

Lemma model_calls_trans n m w1 w2 w3 :
  model_calls n w1 w2 -> model_calls m w2 w3 -> model_calls (n + m) w1 w3.
Proof. intros [H1 H2] [H3 H4]. split; [lia|congruence]. Qed.

Lemma never_fallback_frame w w' :
  w_model w' = w_model w -> never_fallback w -> never_fallback w'.
Proof. intros H Hn k p raw. rewrite H. apply Hn. Qed.

(** [_generate_text] never raises: it calls the model once and yields its
    stripped answer, or "Generated content" when the model raises. *)
Lemma generate_text_spec prompt max_length w :
  exists s w',
    Generator._generate_text prompt max_length w = (Ok s, w')
    /\ model_calls 1 w w'
    /\ (s = "Generated content"
        \/ exists k raw, w_model w k prompt = Some raw /\ s = Py.strip raw).
Proof.
  unfold Generator._generate_text, try_except, Generator.model_generate.
  monad_unfold.
  destruct (w_model w (w_model_calls w) prompt) as [raw|] eqn:Hraw.
  - eexists _, _. split; [reflexivity|]. split.
    + split; [|done]. unfold external_calls. simpl. lia.
    + right. by exists (w_model_calls w), raw.
  - eexists _, _. split; [reflexivity|]. split; [|by left].
    split; [|done]. unfold external_calls. simpl. lia.
Qed.

Lemma randbelow_frame n w :
  exists k w', Random.randbelow n w = (Ok k, w') /\ model_calls 0 w w'.
Proof. eexists _, _. split; [reflexivity|]. split; [|done]. unfold external_calls. simpl. lia. Qed.

Lemma shuffle_down_frame {A} n (x : list A) w :
  exists x' w', Random.shuffle_down n x w = (Ok x', w')
                /\ x' ≡ₚ x /\ model_calls 0 w w'.
Proof.
  revert x w. induction n as [|n IH]; intros x w; simpl.
  - eexists _, _. split; [reflexivity|]. split; [done|]. split; [lia|done].
  - destruct (randbelow_frame (S (S n)) w) as (j & w1 & Hj & Hq).
    rewrite (bind_ok _ _ _ _ _ Hj).
    destruct (IH (Random.swap (S n) j x) w1) as (x' & w' & Hx & Hp & Hq').
    exists x', w'. split; [done|]. split.
    + by rewrite Hp, swap_perm.
    + apply (model_calls_trans 0 0 _ _ _ Hq Hq').
Qed.

Lemma shuffle_frame {A} (x : list A) w :
  exists x' w', Random.shuffle x w = (Ok x', w')
                /\ x' ≡ₚ x /\ model_calls 0 w w'.
Proof. apply shuffle_down_frame. Qed.

Lemma nonempty_true s : Processors.nonempty s = true <-> s <> "".
Proof. destruct s; simpl; split; congruence. Qed.

(** The replacement for the distractor of index [i]. *)
Lemma fallback_at i :
  i < 3 ->
  fallback_distractors !! i = Some ("Alternative option " +:+ Py.of_nat (i + 1))
  /\ "Alternative option " +:+ Py.of_nat (i + 1) ∉ take i fallback_distractors.
Proof.
  intros Hi. destruct i as [|[|[|i]]]; [| | |lia]; split; try by vm_compute.
  - by intros ?%elem_of_nil.
  - intros [H|H%elem_of_nil]%elem_of_cons; [|done]. by vm_compute in H.
  - intros [H|[H|H%elem_of_nil]%elem_of_cons]%elem_of_cons; [| |done];
      by vm_compute in H.
Qed.

(** [_generate_enhanced_distractors] never raises, calls the model three
    times and yields three distractors, none of them empty. When the model
    never answers with the words of a replacement and the correct answer is
    not such words either, the distractors are distinct and differ from the
    correct answer. *)
Lemma generate_enhanced_distractors_spec
  correct_answer context difficulty subject_area w :
  exists distractors w',
    Generator._generate_enhanced_distractors correct_answer context difficulty
      subject_area w = (Ok distractors, w')
    /\ length distractors = 3
    /\ model_calls 3 w w'
    /\ Forall (fun d => d <> "") distractors
    /\ (never_fallback w -> correct_answer ∉ fallback_distractors ->
        NoDup (correct_answer :: distractors)).
Proof.
  unfold Generator._generate_enhanced_distractors. cbv zeta.
  set (prompt := Prompts.get_distractor_prompt _ _ _).
  pose (I := fun (k : nat) (ds : list string) (w' : World) =>
    length ds = k /\ model_calls k w w' /\ Forall (fun d => d <> "") ds
    /\ (never_fallback w -> correct_answer ∉ fallback_distractors ->
        NoDup ds /\ (correct_answer ∉ ds)
        /\ forall d, d ∈ ds -> d ∈ fallback_distractors ->
                     d ∈ take k fallback_distractors)).
  match goal with |- context [for_each ?l ?b ?a] =>
    destruct (for_each_invariant b I l) with (acc := a) (w := w)
      as (ds & w' & Hrun & Hlen & Hcalls & Hne & Hcond)
  end.
  - unfold I. intros k i ds w1 Hk (Hlen & Hcalls & Hne & Hcond).
    unfold range in Hk. apply lookup_seq in Hk as [-> Hk3]. simpl in Hk3.
    change (Z.to_nat 3) with 3 in Hk3.
    unfold try_except.
    destruct (generate_text_spec prompt 50 w1) as (s & w2 & Hs & Hc1 & Hsrc).
    rewrite (bind_ok _ _ _ _ _ Hs).
    assert (model_calls (S k) w w2) as Hcalls2.
    { replace (S k) with (k + 1) by lia. by eapply model_calls_trans. }
    destruct (fallback_at k Hk3) as [Hfb Hfresh].
    destruct (Processors.nonempty (Py.strip s)
              && negb (String.eqb (Py.strip s) correct_answer)
              && negb (Py.mem (Py.strip s) ds)) eqn:Hacc.
    + apply andb_true_iff in Hacc as [Hacc Hmem].
      apply andb_true_iff in Hacc as [Hnon Hneq].
      apply nonempty_true in Hnon.
      apply negb_true_iff, String.eqb_neq in Hneq.
      apply negb_true_iff in Hmem. unfold Py.mem in Hmem.
      apply bool_decide_eq_false_1 in Hmem.
      eexists _, _. split; [reflexivity|]. split; [rewrite length_app; simpl; lia|].
      split; [done|]. split; [apply Forall_app; split; [done|by apply Forall_singleton]|].
      intros Hnf Hca. destruct (Hcond Hnf Hca) as (Hnd & Hnin & Hfall).
      assert (Py.strip s ∉ fallback_distractors) as Hnotfb.
      { destruct Hsrc as [->|(j & raw & Hraw & ->)].
        - intros H. by vm_compute in H; repeat (apply elem_of_cons in H as [H|H];
            [discriminate H|]); apply elem_of_nil in H.
        - rewrite strip_idem. destruct Hcalls as [_ Hm].
          apply (Hnf j prompt raw). by rewrite <- Hm. }
      split; [|split].
      * apply NoDup_app. split; [done|]. split; [|apply NoDup_singleton].
        intros x Hx ->%list_elem_of_singleton. done.
      * intros [H|H%list_elem_of_singleton]%elem_of_app; [done|]. by subst.
      * intros d [Hd|Hd%list_elem_of_singleton]%elem_of_app Hdf; [|by subst].
        specialize (Hfall d Hd Hdf).
        apply elem_of_take in Hfall as (j & Hj & Hjk).
        apply elem_of_take. exists j. split; [done|lia].
    + eexists _, _. split; [reflexivity|]. split; [rewrite length_app; simpl; lia|].
      split; [done|]. split.
      { apply Forall_app; split; [done|]. apply Forall_singleton.
        destruct k as [|[|[|k]]]; by vm_compute. }
      intros Hnf Hca. destruct (Hcond Hnf Hca) as (Hnd & Hnin & Hfall).
      assert ("Alternative option " +:+ Py.of_nat (k + 1) ∈ fallback_distractors)
        as Hin by (by eapply list_elem_of_lookup_2).
      split; [|split].
      * apply NoDup_app. split; [done|]. split; [|apply NoDup_singleton].
        intros x Hx ->%list_elem_of_singleton.
        apply Hfresh. by apply Hfall.
      * intros [H|H%list_elem_of_singleton]%elem_of_app; [done|]. by subst.
      * intros d [Hd|Hd%list_elem_of_singleton]%elem_of_app Hdf; [|subst d].
        -- specialize (Hfall d Hd Hdf).
           apply elem_of_take in Hfall as (j & Hj & Hjk).
           apply elem_of_take. exists j. split; [done|lia].
        -- apply elem_of_take. exists k. split; [done|lia].
  - unfold I. split; [done|]. split; [split; [lia|done]|]. split; [done|].
    intros _ _. split; [apply NoDup_nil_2|].
    split; [by intros ?%elem_of_nil|by intros d ?%elem_of_nil].
  - rewrite (bind_ok _ _ _ _ _ Hrun).
    rewrite length_range in Hlen, Hcalls. change (Z.to_nat 3) with 3 in *.
    rewrite pad_distractors_full by done.
    rewrite take_ge by lia.
    eexists _, _. split; [reflexivity|]. split; [done|]. split; [done|].
    split; [done|]. intros Hnf Hca.
    destruct (Hcond Hnf Hca) as (Hnd & Hnin & _).
    by apply NoDup_cons.
Qed.

Lemma first_starter_level_key question_lower table level :
  Generator.first_starter_level question_lower table = Some level ->
  level ∈ table.*1.
Proof.
  induction table as [|[l starters] table IH]; simpl; [done|].
  destruct (existsb _ starters).
  - intros [= ->]. apply list_elem_of_here.
  - intros H. apply list_elem_of_further. by apply IH.
Qed.

Lemma get_bloom_level_for_difficulty_range difficulty :
  Prompts.get_bloom_level_for_difficulty difficulty
    ∈ ["Remember"; "Understand"; "Analyze"].
Proof.
  unfold Prompts.get_bloom_level_for_difficulty. cbv zeta.
  unfold Prompts.ENHANCED_QUESTION_PROMPTS. cbn [Prompts.lookup_key].
  repeat (match goal with |- context [String.eqb ?a ?b] =>
            destruct (String.eqb a b) end;
          [cbn; rewrite !elem_of_cons; auto|]).
  cbn. rewrite !elem_of_cons. auto.
Qed.

Lemma determine_bloom_level_range question_text difficulty :
  Generator._determine_bloom_level question_text difficulty
    ∈ PromptTables.BLOOM_LEVELS.
Proof.
  unfold Generator._determine_bloom_level. cbv zeta.
  destruct (Generator.first_starter_level _ _) as [level|] eqn:H.
  - apply first_starter_level_key in H. exact H.
  - pose proof (get_bloom_level_for_difficulty_range difficulty) as Hr.
    unfold PromptTables.BLOOM_LEVELS.
    rewrite !elem_of_cons in Hr. rewrite !elem_of_cons.
    destruct Hr as [->|[->|[->|Hr]]]; auto. by apply elem_of_nil in Hr.
Qed.

(** One question of the model path: it is made without raising, with six
    calls of the model; it has four options, none empty but possibly the
    correct answer, with the correct answer among them, the difficulty asked
    for, a Bloom level of [BLOOM_LEVELS] and the subject of the text. When
    the model never answers with the words of a replacement, the options
    are distinct. *)
Lemma generate_question_spec
  chunk chunk_concepts q_index requested subject w :
  exists q w',
    Generator.generate_question chunk chunk_concepts q_index requested
      subject w = (Ok q, w')
    /\ model_calls 6 w w'
    /\ has_shape q
    /\ difficulty q = requested
    /\ bloom_level q ∈ PromptTables.BLOOM_LEVELS
    /\ subject_area q = Some subject
    /\ (never_fallback w -> well_formed q).
Proof.
  unfold Generator.generate_question.
  assert (exists concept,
    (match chunk_concepts with
     | _ :: _ =>
         match chunk_concepts !! (q_index mod length chunk_concepts) with
         | Some concept => mret concept
         | None => raise "IndexError"
         end
     | [] => mret "main concept"
     end : M string) w = (Ok concept, w)) as (concept & Hc).
  { destruct chunk_concepts as [|c cs]; [by eexists|].
    destruct (lookup_lt_is_Some_2 (c :: cs) (q_index mod length (c :: cs)))
      as [x Hx].
    { apply Nat.mod_upper_bound. simpl. lia. }
    rewrite Hx. by eexists. }
  rewrite (bind_ok _ _ _ _ _ Hc). cbv zeta.
  destruct (generate_text_spec (Prompts.get_difficulty_prompt requested chunk)
              100 w) as (qt & w1 & Hqt & Hc1 & _).
  rewrite (bind_ok _ _ _ _ _ Hqt).
  match goal with |- context [Generator._generate_text ?p 50] =>
    destruct (generate_text_spec p 50 w1) as (ca & w2 & Hca & Hc2 & Hsrc) end.
  rewrite (bind_ok _ _ _ _ _ Hca).
  destruct (generate_enhanced_distractors_spec (Py.strip ca) chunk requested
              subject w2) as (ds & w3 & Hds & Hlen & Hc3 & _ & Hdistinct).
  rewrite (bind_ok _ _ _ _ _ Hds).
  destruct (shuffle_frame ([Py.strip ca] ++ ds) w3) as (opts & w4 & Hs & Hp & Hc4).
  rewrite (bind_ok _ _ _ _ _ Hs).
  unfold Generator._generate_enhanced_explanation. cbv zeta.
  match goal with |- context [Generator._generate_text ?p 150] =>
    destruct (generate_text_spec p 150 w4) as (ex & w5 & Hex & Hc5 & _) end.
  rewrite (bind_ok _ _ _ _ _ (bind_ok _ _ _ _ _ Hex)).
  eexists _, _. split; [reflexivity|].
  assert (model_calls 2 w w2) as H02 by apply (model_calls_trans 1 1 _ _ _ Hc1 Hc2).
  assert (model_calls 5 w w4) as H04.
  { apply (model_calls_trans 2 3 _ _ _ H02).
    apply (model_calls_trans 3 0 _ _ _ Hc3 Hc4). }
  split; [apply (model_calls_trans 5 1 _ _ _ H04 Hc5)|].
  assert (length opts = 4 /\ Py.strip ca ∈ opts) as [Hl Hin].
  { split.
    - rewrite (Permutation_length Hp), length_app. simpl. lia.
    - rewrite Hp. apply elem_of_app. left. apply list_elem_of_here. }
  split; [by split|]. split; [done|].
  split; [apply determine_bloom_level_range|]. split; [done|].
  intros Hnf. split; [exact Hl|]. split; [exact Hin|].
  cbn [options]. rewrite Hp. simpl. apply Hdistinct.
  - eapply never_fallback_frame; [|exact Hnf]. apply H02.
  - destruct Hsrc as [->|(j & raw & Hraw & ->)].
    + intros H. vm_compute in H.
      repeat (apply elem_of_cons in H as [H|H]; [discriminate H|]).
      by apply elem_of_nil in H.
    + rewrite strip_idem. destruct Hc1 as [_ Hm]. rewrite Hm in Hraw.
      by eapply Hnf.
Qed.

(** What the model path promises of a question made for a text, asked with
    a difficulty, in a run that starts in [w]. *)
Lemma generate_mcq_model_spec ln text (num_questions : Z) requested w :
  exists qs w',
    Generator.generate_mcq ln true text num_questions requested w = (Ok qs, w')
    /\ length qs = Z.to_nat num_questions
    /\ model_calls (6 * Z.to_nat num_questions) w w'
    /\ Forall (fun q =>
                 has_shape q /\ difficulty q = requested
                 /\ bloom_level q ∈ PromptTables.BLOOM_LEVELS
                 /\ subject_area q = Some (Prompts.detect_subject_area text)
                 /\ (never_fallback w -> well_formed q)) qs.
Proof.
  set (good := fun q =>
                 has_shape q /\ difficulty q = requested
                 /\ bloom_level q ∈ PromptTables.BLOOM_LEVELS
                 /\ subject_area q = Some (Prompts.detect_subject_area text)
                 /\ (never_fallback w -> well_formed q)).
  unfold Generator.generate_mcq. cbn [negb]. cbv zeta.
  set (chunks := Processors.preprocess_text text).
  assert (length chunks <> 0) as Hchunks.
  { intros H%length_zero_iff_nil. by apply preprocess_text_not_nil in H. }
  rewrite (proj2 (Nat.eqb_neq _ _) Hchunks).
  set (n := num_questions).
  pose (I := fun (k : nat) (acc : list Question * Z) (w' : World) =>
    Forall good acc.1
    /\ model_calls (6 * length acc.1) w w'
    /\ acc.2 = (n - Z.of_nat (length acc.1))%Z
    /\ ((n <= 0)%Z -> acc.1 = [])
    /\ (0 <= acc.2 \/ n <= 0)%Z
    /\ (k = length chunks -> (acc.2 <= 0)%Z)).
  match goal with |- context [for_each ?l ?b ?a] =>
    destruct (for_each_invariant b I l) with (acc := a) (w := w)
      as ([qs rest] & w' & Hrun & Hall & Hcalls & Hrest & Hneg & Hpos & Hlast)
  end.
  - unfold I. intros k [chunk_index chunk] [qs rem] w1 Hk
      (Hall & Hcalls & Hrem & Hneg & Hpos & _).
    cbn [fst snd] in *.
    apply list_lookup_imap_Some in Hk as (chunk' & Hk & [= -> ->]).
    apply lookup_lt_Some in Hk as Hklt.
    destruct (Z.leb_spec rem 0) as [Hle|Hgt].
    { eexists _, _. split; [reflexivity|]. cbn [fst snd].
      split; [done|]. split; [done|]. split; [done|]. split; [done|].
      split; [done|]. intros _. exact Hle. }
    assert (0 < n)%Z as Hn by lia.
    set (cq := if k =? length chunks - 1 then rem
               else Z.min (Z.max 1 (n / Z.of_nat (length chunks))) rem).
    assert (0 <= cq <= rem)%Z as Hcq.
    { unfold cq. destruct (k =? length chunks - 1); lia. }
    assert (k = length chunks - 1 -> cq = rem) as Hcqlast.
    { intros ->. unfold cq. by rewrite Nat.eqb_refl. }
    pose (J := fun (j : nat) (acc : list Question * Z) (w' : World) =>
      Forall good acc.1
      /\ model_calls (6 * length acc.1) w w'
      /\ length acc.1 = length qs + j
      /\ acc.2 = (rem - Z.of_nat j)%Z).
    match goal with |- context [for_each ?l ?b ?a] =>
      destruct (for_each_invariant b J l) with (acc := a) (w := w1)
        as ([qs' rem'] & w2 & Hrun & Hall' & Hcalls' & Hlen' & Hrem')
    end.
    + unfold J. intros j q_index [qs' rem'] w2 _ (Hall' & Hcalls' & Hlen' & Hrem').
      cbn [fst snd] in *. unfold try_except.
      match goal with |- context [Generator.generate_question ?c ?cs ?i ?d ?s] =>
        destruct (generate_question_spec c cs i d s w2)
          as (q & w3 & Hq & Hc & Hs & Hd & Hb & Hsub & Hwf)
      end.
      rewrite (bind_ok _ _ _ _ _ Hq).
      eexists _, _. split; [reflexivity|]. cbn [fst snd].
      rewrite length_app. cbn [length]. split; [|split; [|split]].
      * apply Forall_app. split; [done|]. apply Forall_singleton.
        unfold good. split; [exact Hs|]. split; [exact Hd|].
        split; [exact Hb|]. split; [exact Hsub|].
        intros Hnf. apply Hwf. eapply never_fallback_frame; [|exact Hnf].
        apply Hcalls'.
      * destruct Hcalls' as [E1 M1], Hc as [E2 M2]. split; [lia|congruence].
      * lia.
      * lia.
    + unfold J. cbn [fst snd]. split; [done|]. split; [done|]. split; lia.
    + rewrite length_range in Hlen', Hrem'. cbn [fst snd] in *.
      exists (qs', rem'), w2. split; [exact Hrun|]. cbn [fst snd].
      split; [done|]. split; [done|]. split; [lia|]. split; [lia|].
      split; [lia|]. intros HS.
      assert (k = length chunks - 1) as Hkl by lia.
      rewrite (Hcqlast Hkl) in Hrem'. lia.
  - unfold I. cbn [fst snd length]. split; [done|].
    split; [split; [lia|done]|]. split; [lia|]. split; [done|].
    split; [destruct (Z.leb_spec 0 n); [by left|right; lia]|].
    intros H. by rewrite <- H in Hchunks.
  - rewrite (bind_ok _ _ _ _ _ Hrun). cbn [fst snd] in *.
    rewrite length_imap in Hlast. specialize (Hlast eq_refl).
    eexists _, _. split; [reflexivity|].
    assert (length qs = Z.to_nat n) as Hlen.
    { destruct (Z.leb_spec n 0) as [Hn|Hn]; [rewrite (Hneg Hn); simpl; lia|lia]. }
    split; [exact Hlen|]. split; [by rewrite <- Hlen|done].
Qed.

(** X7. With the model loaded, [generate_mcq] of generator.py never raises
    and never comes up short: it returns exactly [num_questions] questions
    (none when the number is negative) and calls the text model six times
    for each of them. *)
Theorem model_path_exact_count ln text (num_questions : Z) requested w :
  exists qs w',
    Generator.generate_mcq ln true text num_questions requested w = (Ok qs, w')
    /\ length qs = Z.to_nat num_questions
    /\ external_calls w' = external_calls w + 6 * Z.to_nat num_questions.
Proof.
  destruct (generate_mcq_model_spec ln text num_questions requested w)
    as (qs & w' & Hrun & Hlen & [Hcalls _] & _).
  by exists qs, w'.
Qed.

(** X8. Every question of the model path carries the difficulty that was
    asked for, a Bloom level that is one of the six [BLOOM_LEVELS], and the
    subject [detect_subject_area] finds in the whole text. *)
Theorem model_path_fields ln text (num_questions : Z) requested w :
  exists qs w',
    Generator.generate_mcq ln true text num_questions requested w = (Ok qs, w')
    /\ Forall (fun q =>
                 difficulty q = requested
                 /\ bloom_level q ∈ PromptTables.BLOOM_LEVELS
                 /\ subject_area q = Some (Prompts.detect_subject_area text)) qs.
Proof.
  destruct (generate_mcq_model_spec ln text num_questions requested w)
    as (qs & w' & Hrun & _ & _ & Hall).
  exists qs, w'. split; [done|].
  eapply Forall_impl; [exact Hall|]. by intros q (_ & ? & ? & ? & _).
Qed.

(** X9. When the text model never answers with the words of a replacement
    distractor ("Alternative option 1", "2" or "3", white space around them
    aside), every question of the model path is well formed: four options,
    pairwise distinct, the correct answer one of them. *)
Theorem model_path_well_formed ln text (num_questions : Z) requested w :
  never_fallback w ->
  exists qs w',
    Generator.generate_mcq ln true text num_questions requested w = (Ok qs, w')
    /\ Forall well_formed qs.
Proof.
  intros Hnf.
  destruct (generate_mcq_model_spec ln text num_questions requested w)
    as (qs & w' & Hrun & _ & _ & Hall).
  exists qs, w'. split; [done|].
  eapply Forall_impl; [exact Hall|]. intros q (_ & _ & _ & _ & Hwf). by apply Hwf.
Qed.

(** A model that answers "Paris" to every prompt. *)
Lemma model_path_well_formed_witness :
  never_fallback paris_model
  /\ exists qs w',
       Generator.generate_mcq (fun x => x) true "Cells." 1 "medium" paris_model
       = (Ok qs, w')
       /\ Forall well_formed qs.
Proof.
  assert (never_fallback paris_model) as H.
  { intros k prompt raw [= <-] Hin. vm_compute in Hin.
    repeat (apply elem_of_cons in Hin as [Hin|Hin]; [discriminate Hin|]).
    by apply elem_of_nil in Hin. }
  split; [exact H|].
  exact (model_path_well_formed (fun x => x) "Cells." 1 "medium" paris_model H).
Defined.

(** ** The Gemini path, reply by reply *)

Lemma lower_idem s : Py.lower (Py.lower s) = Py.lower s.
Proof.
  unfold Py.lower. rewrite chars_str, map_map. f_equal.
  apply map_ext. intros c. apply lower_char_idem.
Qed.

(** What is built from an entry is [structured]. *)
Lemma built_from_structured requested subject q_data q :
  built_from requested subject q_data q -> structured subject q.
Proof.
  intros (Hid & (qt & _ & Hqt) & _ & _ & (ex & _ & Hex) & (d & _ & Hd) & _ & _ & Hs & _).
  unfold structured. rewrite Hqt, Hex, Hd.
  split; [done|]. split; [apply lower_idem|].
  split; [apply strip_idem|]. split; [apply strip_idem|done].
Qed.

(** The three replies of Gemini, and what [generate_mcq] does with each. *)
Lemma gemini_reply_error text n requested w :
  w_gemini w (w_gemini_calls w) (gemini_prompt_of text n requested) = GeminiError ->
  Gemini.generate_mcq true text n requested w
  = (questions ← Gemini._generate_mock_questions text n; mret (Mocked <$> questions))
      (Gemini.gemini_called w).
Proof.
  unfold gemini_prompt_of. intros H.
  unfold Gemini.generate_mcq, Gemini._generate_questions_with_gemini.
  cbn [negb]. cbv zeta. unfold Gemini.generate_content.
  monad_unfold. by rewrite H.
Qed.

Lemma gemini_reply_empty text n requested w :
  w_gemini w (w_gemini_calls w) (gemini_prompt_of text n requested) = GeminiEmpty ->
  Gemini.generate_mcq true text n requested w = (Ok [], Gemini.gemini_called w).
Proof.
  unfold gemini_prompt_of. intros H.
  unfold Gemini.generate_mcq, Gemini._generate_questions_with_gemini.
  cbn [negb]. cbv zeta. unfold Gemini.generate_content.
  monad_unfold. by rewrite H.
Qed.

(** X10. [generate_mcq] of gemini_generator.py never returns more questions
    than were asked for, and it calls Gemini exactly once when the model is
    loaded and not at all when it is not, whatever Gemini answers. *)
Theorem gemini_at_most_requested model_loaded text (num_questions : Z) requested w :
  exists qs w',
    Gemini.generate_mcq model_loaded text num_questions requested w = (Ok qs, w')
    /\ length qs <= Z.to_nat num_questions
    /\ external_calls w'
       = external_calls w + (if model_loaded then 1 else 0).
Proof.
  destruct model_loaded.
  - destruct (w_gemini w (w_gemini_calls w)
                (gemini_prompt_of text num_questions requested)) as [| |entries] eqn:H.
    + destruct (Gemini_mock_spec text num_questions (Gemini.gemini_called w))
        as (qs & w' & Hrun & Hlen & _ & Hq).
      exists (Mocked <$> qs), w'.
      rewrite (gemini_reply_error _ _ _ _ H), (bind_ok _ _ _ _ _ Hrun).
      split; [done|]. split; [rewrite length_fmap; lia|].
      unfold no_external_call in Hq. rewrite Hq. apply gemini_called_calls.
    + exists [], (Gemini.gemini_called w). rewrite (gemini_reply_empty _ _ _ _ H).
      split; [done|]. split; [simpl; lia|apply gemini_called_calls].
    + destruct (gemini_reply_parsed _ _ _ _ _ H)
        as (qs & w' & Hrun & Hq & Hbuilt & _).
      exists (Structured <$> qs), w'. split; [done|]. split; [|done].
      apply Forall2_length in Hbuilt. rewrite length_fmap, <- Hbuilt.
      etrans; [apply length_filter|]. rewrite length_take. lia.
  - destruct (Gemini_mock_spec text num_questions w)
      as (qs & w' & Hrun & Hlen & _ & Hq).
    exists (Mocked <$> qs), w'. split; [by apply gemini_mock_path|].
    split; [rewrite length_fmap; lia|].
    unfold no_external_call in Hq. lia.
Qed.

(** X11. When the call of Gemini raises, [generate_mcq] answers with
    exactly what the fall-back generator makes of the text after that call:
    [num_questions] well-formed records of difficulty "medium" and Bloom
    level "understand". *)
Theorem gemini_error_falls_back text (num_questions : Z) requested w :
  w_gemini w (w_gemini_calls w) (gemini_prompt_of text num_questions requested)
  = GeminiError ->
  exists qs w',
    Gemini._generate_mock_questions text num_questions (Gemini.gemini_called w)
    = (Ok qs, w')
    /\ Gemini.generate_mcq true text num_questions requested w
       = (Ok (Mocked <$> qs), w')
    /\ length qs = Z.to_nat num_questions
    /\ Forall mock_record qs.
Proof.
  intros H. rewrite (gemini_reply_error _ _ _ _ H).
  destruct (Gemini_mock_spec text num_questions (Gemini.gemini_called w))
    as (qs & w' & Hrun & Hlen & Hall & _).
  exists qs, w'. by rewrite (bind_ok _ _ _ _ _ Hrun).
Qed.

(** Gemini raises at every call; two questions are asked for. *)
Lemma gemini_error_falls_back_witness :
  exists qs w',
    Gemini._generate_mock_questions mitochondria_text 2
      (Gemini.gemini_called failing_gemini)
    = (Ok qs, w')
    /\ Gemini.generate_mcq true mitochondria_text 2 "hard" failing_gemini
       = (Ok (Mocked <$> qs), w')
    /\ length qs = 2
    /\ Forall mock_record qs.
Proof.
  exact (gemini_error_falls_back mitochondria_text 2 "hard" failing_gemini eq_refl).
Defined.

(** X12. Every question [generate_mcq] builds from a reply of Gemini has an
    id between 1000 and 9999, a difficulty in lower case, a question text
    and an explanation with no white space around them, and the subject
    [detect_subject_area] finds in the text. *)
Theorem gemini_questions_structured text (num_questions : Z) requested entries w :
  w_gemini w (w_gemini_calls w) (gemini_prompt_of text num_questions requested)
  = GeminiParsed entries ->
  exists qs w',
    Gemini.generate_mcq true text num_questions requested w
    = (Ok (Structured <$> qs), w')
    /\ Forall (structured (Prompts.detect_subject_area text)) qs.
Proof.
  intros H.
  destruct (gemini_reply_parsed _ _ _ _ _ H) as (qs & w' & Hrun & _ & Hbuilt & _).
  exists qs, w'. split; [done|].
  clear Hrun. induction Hbuilt as [|q_data q kept_entries qs Hq _ IH];
    [apply Forall_nil_2|].
  apply Forall_cons. split; [by eapply built_from_structured|exact IH].
Qed.

(** Gemini answers with an entry of three options and one of four. *)
Lemma gemini_questions_structured_witness :
  exists qs w',
    Gemini.generate_mcq true "Rome is the capital of Italy." 2 "MEDIUM" gemini_world
    = (Ok (Structured <$> qs), w')
    /\ Forall (structured (Prompts.detect_subject_area "Rome is the capital of Italy."))
         qs.
Proof.
  exact (gemini_questions_structured "Rome is the capital of Italy." 2 "MEDIUM"
           [three_options; four_options] gemini_world eq_refl).
Defined.

(** X13. When Gemini sends an empty response, or a text that holds no JSON
    array or an empty one, [generate_mcq] returns no question at all: the
    fall-back generator is not used. *)
Theorem gemini_empty_reply text (num_questions : Z) requested w :
  w_gemini w (w_gemini_calls w) (gemini_prompt_of text num_questions requested)
    ∈ [GeminiEmpty; GeminiParsed []] ->
  fst (Gemini.generate_mcq true text num_questions requested w) = Ok [].
Proof.
  intros H. apply elem_of_cons in H as [H|H].
  - by rewrite (gemini_reply_empty _ _ _ _ H).
  - apply list_elem_of_singleton in H.
    destruct (gemini_reply_parsed _ _ _ _ _ H) as (qs & w' & Hrun & _ & Hbuilt & _).
    rewrite Hrun. rewrite take_nil in Hbuilt.
    by apply Forall2_nil_inv_l in Hbuilt as ->.
Qed.

(** Gemini sends nothing; five questions are asked for. *)
Lemma gemini_empty_reply_witness :
  fst (Gemini.generate_mcq true mitochondria_text 5 "easy" silent_world) = Ok [].
Proof.
  apply (gemini_empty_reply mitochondria_text 5 "easy" silent_world).
  apply list_elem_of_here.
Defined.

(** ** The validator: the range of the distractor score *)

Lemma Qle_bool_false x y : Qle_bool x y = false -> (y < x)%Q.
Proof.
  intros H. apply Qnot_le_lt. intros Hle. apply Qle_bool_iff in Hle. congruence.
Qed.

Lemma Qmax0_range x : (x <= 100)%Q -> (0 <= Validator.Qmax0 x <= 100)%Q.
Proof.
  intros Hx. unfold Validator.Qmax0. destruct (Qle_bool 0 x) eqn:H.
  - apply Qle_bool_iff in H. by split.
  - split; [apply Qle_refl|]. by compute.
Qed.

Lemma distractor_points_range s :
  (0 <= Validator.distractor_points s <= 100)%Q.
Proof.
  unfold Validator.distractor_points.
  destruct (Qle_bool (3 # 10) s) eqn:H3; cbn [andb].
  - destruct (Qle_bool s (7 # 10)) eqn:H7.
    + split; by compute.
    + unfold Processors.Qlt_bool. rewrite H3. cbn [negb].
      apply Qle_bool_false in H7. apply Qmax0_range. lra.
  - unfold Processors.Qlt_bool. rewrite H3. cbn [negb].
    apply Qle_bool_false in H3. apply Qmax0_range. lra.
Qed.

Lemma Qsum_range (l : list Q) :
  Forall (fun x => (0 <= x <= 100)%Q) l ->
  (0 <= Validator.Qsum l <= 100 * inject_Z (Z.of_nat (length l)))%Q.
Proof.
  induction 1 as [|x l [Hx0 Hx1] _ [IH0 IH1]].
  - split; by compute.
  - cbn [Validator.Qsum foldr length]. fold (Validator.Qsum l).
    rewrite Nat2Z.inj_succ, <- Z.add_1_r, inject_Z_plus.
    change (inject_Z 1) with 1%Q. split; lra.
Qed.

Lemma int_of_range x : (0 <= x <= 100)%Q -> (0 <= Validator.int_of x <= 100)%Z.
Proof.
  intros [H0 H1]. unfold Validator.int_of. unfold Qle in H0, H1. simpl in H0, H1.
  rewrite Z.quot_div_nonneg by lia. split.
  - apply Z.div_pos; lia.
  - apply Z.div_le_upper_bound; lia.
Qed.

Lemma mean_range (x : Q) (l : list Q) :
  Forall (fun y => (0 <= y <= 100)%Q) (x :: l) ->
  exists m, Validator.mean (x :: l) = Ok m /\ (0 <= m <= 100)%Q.
Proof.
  intros H. eexists. split; [reflexivity|].
  destruct (Qsum_range _ H) as [H0 H1].
  assert (0 < inject_Z (Z.of_nat (length (x :: l))))%Q as Hpos.
  { change 0%Q with (inject_Z 0). rewrite <- Zlt_Qlt. simpl. lia. }
  split.
  - apply Qle_shift_div_l; [exact Hpos|]. lra.
  - apply Qle_shift_div_r; [exact Hpos|]. lra.
Qed.

(** X14. [score_distractor_quality] never raises and its score is an
    integer from 0 to 100, whatever the similarities the embedding model
    reports, whether it is loaded or not, and whether it raises or not. *)
Theorem distractor_score_range sim (options : list string) (correct : string) :
  exists d,
    Validator.score_distractor_quality sim options correct = Ok d
    /\ (0 <= d <= 100)%Z.
Proof.
  unfold Validator.score_distractor_quality.
  destruct sim as [cosine|]; [|exists 70%Z; split; [done|lia]].
  cbv zeta.
  destruct (length (filter _ options) =? 0);
    [exists 0%Z; split; [done|lia]|].
  destruct (cosine _) as [similarities|]; [|exists 70%Z; split; [done|lia]].
  destruct similarities as [|s similarities];
    [exists 50%Z; split; [done|lia]|].
  cbn [map].
  destruct (mean_range (Validator.distractor_points s)
              (map Validator.distractor_points similarities)) as (m & Hm & Hr).
  { apply Forall_cons. split; [apply distractor_points_range|].
    apply Forall_forall. intros y Hy. apply list_elem_of_In in Hy.
    apply in_map_iff in Hy as (s' & <- & _). apply distractor_points_range. }
  monad_unfold. cbn [map] in Hm. rewrite Hm.
  exists (Validator.int_of m). split; [done|]. by apply int_of_range.
Qed.

(** ** The validator: a full score and the feedback *)

Lemma penalise_matches violated points message c acc :
  (10 <= points)%Z -> first_char message = Some c -> c <> "G"%char ->
  score_matches_feedback acc ->
  score_matches_feedback (Validator.penalise violated points message acc).
Proof.
  intros Hp Hm Hc Hacc. unfold Validator.penalise.
  destruct violated; [|done]. right.
  destruct Hacc as [->|(Hle & m & rest & c' & Hfb & Hm' & Hc')].
  - split; [simpl; lia|]. by exists message, [], c.
  - split; [simpl; lia|]. exists m, (rest ++ [message]), c'.
    simpl. by rewrite Hfb.
Qed.

Lemma first_char_append s t c :
  first_char s = Some c -> first_char (s +:+ t) = Some c.
Proof. by destruct s. Qed.

Lemma first_char_join sep m rest c :
  first_char m = Some c -> first_char (Py.join sep (m :: rest)) = Some c.
Proof.
  intros H. destruct rest as [|y rest]; [done|].
  change (Py.join sep (m :: y :: rest)) with (m +:+ sep +:+ Py.join sep (y :: rest)).
  by apply first_char_append.
Qed.

(** What the invariant gives at the end: the clamped score is 100 exactly
    when the feedback is the sentence for a question with no fault. *)
Lemma matches_final (acc : Z * list string) :
  score_matches_feedback acc ->
  Z.max 0 (Z.min 100 acc.1) = 100%Z
  <-> match acc.2 with
      | [] => "Good quality question"
      | _ => Py.join "; " acc.2
      end = "Good quality question".
Proof.
  intros [->|(Hle & m & rest & c & Hfb & Hm & Hc)]; [done|].
  rewrite Hfb. split; [lia|]. intros H.
  pose proof (first_char_join "; " m rest c Hm) as Hj. rewrite H in Hj.
  simpl in Hj. congruence.
Qed.

(** X15. The score of [validate_question_quality] is 100 exactly when its
    feedback is "Good quality question": a check that fails always costs
    points and always leaves a message, and no message can be taken for
    that sentence. *)
Theorem full_score_iff_good_feedback sim question :
  exists result,
    Validator.validate_question_quality sim question = Ok result
    /\ (Validator.score result = 100%Z
        <-> Validator.feedback result = "Good quality question").
Proof.
  unfold Validator.validate_question_quality.
  destruct (avg_option_length_ok (default [] (Validator.get_options question)))
    as [avg Havg].
  cbv zeta. monad_unfold. rewrite Havg.
  set (opts := default [] (Validator.get_options question)).
  set (ca := default "" (Validator.get_correct_answer question)).
  set (acc8 := Validator.penalise (Py.len _ <? 10) 10 "Explanation too short" _).
  assert (score_matches_feedback acc8) as H8.
  { unfold acc8.
    apply (penalise_matches _ _ _ "E"%char); [lia|done|done|].
    apply (penalise_matches _ _ _ "O"%char); [lia|done|done|].
    apply (penalise_matches _ _ _ "D"%char); [lia|done|done|].
    apply (penalise_matches _ _ _ "C"%char); [lia|done|done|].
    apply (penalise_matches _ _ _ "S"%char); [lia|done|done|].
    apply (penalise_matches _ _ _ "Q"%char); [lia|done|done|].
    apply (penalise_matches _ _ _ "Q"%char); [lia|done|done|].
    apply (penalise_matches _ _ _ "Q"%char); [lia|done|done|].
    by left. }
  destruct (4 <=? length opts).
  - destruct (score_distractor_quality_ok sim opts ca) as [d ->].
    eexists. split; [reflexivity|].
    cbn [Validator.score Validator.feedback].
    apply matches_final.
    by apply (penalise_matches _ _ _ "P"%char); [lia|done|done|].
  - eexists. split; [reflexivity|].
    cbn [Validator.score Validator.feedback].
    by apply matches_final.
Qed.

(** ** The validator: the Bloom level of a question with "compare" *)

(** X16. "compare" is a keyword of the level "understand" and of the level
    "analyze", and "analyze" is tested first: a question whose lower-cased
    text contains "compare" is never classified "understand" by
    [check_bloom_level], but "analyze" or, with another keyword, "create"
    or "evaluate". *)
Theorem compare_never_understand question_text :
  Py.contains "compare" (Py.lower question_text) = true ->
  Validator.check_bloom_level question_text ∈ ["create"; "evaluate"; "analyze"].
Proof.
  intros H. unfold Validator.check_bloom_level. cbv zeta.
  destruct (existsb _ ["create"; "design"; "develop"; "formulate"; "construct"]);
    [apply list_elem_of_here|].
  destruct (existsb _ ["evaluate"; "assess"; "judge"; "critique"; "justify"]);
    [apply list_elem_of_further, list_elem_of_here|].
  cbn [existsb]. rewrite H, !orb_true_r. cbn [orb].
  do 2 apply list_elem_of_further. apply list_elem_of_here.
Qed.

Lemma compare_never_understand_witness :
  Validator.check_bloom_level "Compare and describe the two cell types."
    ∈ ["create"; "evaluate"; "analyze"].
Proof.
  apply (compare_never_understand "Compare and describe the two cell types.").
  reflexivity.
Defined.

(** ** The cleaning of a generated question *)

(** *** The two patterns, part by part *)

Lemma options_section_eq l :
  Regex.options_section l
  = match Regex.literal_ci (Py.chars "Option") l with
    | Some rest => colon_then (skip_s rest)
    | None => false
    end.
Proof.
  unfold Regex.options_section.
  destruct (Regex.literal_ci _ l) as [rest|]; [|done].
  change (match rest with
          | [] => rest
          | c :: rest' => if Ascii.eqb (Py.lower_char c) "s" then rest' else rest
          end) with (skip_s rest).
  destruct (skip_s rest) as [|c r]; [done|].
  unfold colon_then, letter_dot.
  destruct c as [[] [] [] [] [] [] [] []]; try reflexivity.
  cbn [Ascii.eqb Bool.eqb andb].
  destruct (Py.dropwhile Py.isspace r) as [|a [|d rr]]; try reflexivity.
  destruct d as [[] [] [] [] [] [] [] []]; reflexivity.
Qed.

Lemma answer_section_eq l :
  Regex.answer_section l
  = match Regex.literal_ci (Py.chars "Answer:") l with
    | Some rest => letter rest
    | None => false
    end.
Proof. reflexivity. Qed.

Lemma literal_ci_app p l x rest :
  Regex.literal_ci p l = Some rest ->
  Regex.literal_ci p (l ++ x) = Some (rest ++ x).
Proof.
  revert l. induction p as [|a p IH]; intros l; simpl.
  - by intros [= ->].
  - destruct l as [|c l]; [done|]. simpl.
    destruct (Ascii.eqb _ _); [apply IH|done].
Qed.

Lemma literal_ci_snoc p l q rest :
  Forall (fun a => Ascii.eqb (Py.lower_char q) (Py.lower_char a) = false) p ->
  Regex.literal_ci p (l ++ [q]) = Some rest ->
  exists rest', Regex.literal_ci p l = Some rest' /\ rest = rest' ++ [q].
Proof.
  intros Hp. revert l. induction Hp as [|a p Ha _ IH]; intros l; simpl.
  - intros [= <-]. by exists l.
  - destruct l as [|c l]; simpl.
    + by rewrite Ha.
    + destruct (Ascii.eqb (Py.lower_char c) _); [apply IH|done].
Qed.

Lemma dropwhile_app p l x :
  Py.dropwhile p l <> [] -> Py.dropwhile p (l ++ x) = Py.dropwhile p l ++ x.
Proof.
  induction l as [|c l IH]; simpl; [done|].
  destruct (p c); [exact IH|done].
Qed.

Lemma dropwhile_app_all p l x :
  Py.dropwhile p l = [] -> Py.dropwhile p (l ++ x) = Py.dropwhile p x.
Proof.
  induction l as [|c l IH]; simpl; [done|].
  destruct (p c); [exact IH|done].
Qed.

Lemma skip_s_app r x : r <> [] -> skip_s (r ++ x) = skip_s r ++ x.
Proof.
  destruct r as [|c r]; [done|]. intros _. simpl.
  by destruct (Ascii.eqb _ _).
Qed.

Lemma letter_dot_app l x : letter_dot l = true -> letter_dot (l ++ x) = true.
Proof.
  unfold letter_dot. intros H.
  rewrite dropwhile_app by (by destruct (Py.dropwhile Py.isspace l)).
  by destruct (Py.dropwhile Py.isspace l) as [|c [|d rr]].
Qed.

Lemma letter_app l x : letter l = true -> letter (l ++ x) = true.
Proof.
  unfold letter. intros H.
  rewrite dropwhile_app by (by destruct (Py.dropwhile Py.isspace l)).
  by destruct (Py.dropwhile Py.isspace l).
Qed.

Lemma colon_then_app l x : colon_then l = true -> colon_then (l ++ x) = true.
Proof.
  destruct l as [|c l]; [done|]. simpl.
  intros [-> H]%andb_true_iff. by rewrite (letter_dot_app _ _ H).
Qed.

Lemma letter_dot_snoc l : letter_dot (l ++ ["?"%char]) = true -> letter_dot l = true.
Proof.
  unfold letter_dot.
  destruct (Py.dropwhile Py.isspace l) as [|c rr] eqn:Hd.
  - by rewrite (dropwhile_app_all _ _ _ Hd).
  - rewrite dropwhile_app, Hd by (by rewrite Hd).
    by destruct rr.
Qed.

Lemma letter_snoc l : letter (l ++ ["?"%char]) = true -> letter l = true.
Proof.
  unfold letter.
  destruct (Py.dropwhile Py.isspace l) as [|c rr] eqn:Hd.
  - by rewrite (dropwhile_app_all _ _ _ Hd).
  - by rewrite dropwhile_app, Hd by (by rewrite Hd).
Qed.

Lemma colon_then_snoc l : colon_then (l ++ ["?"%char]) = true -> colon_then l = true.
Proof.
  destruct l as [|c l]; [done|]. simpl.
  intros [-> H]%andb_true_iff. by rewrite (letter_dot_snoc _ H).
Qed.

Lemma options_section_extends : extends Regex.options_section.
Proof.
  intros l x. rewrite !options_section_eq.
  destruct (Regex.literal_ci _ l) as [rest|] eqn:Hl; [|done].
  rewrite (literal_ci_app _ _ x _ Hl). intros H.
  rewrite skip_s_app by (by destruct rest).
  by apply colon_then_app.
Qed.

Lemma answer_section_extends : extends Regex.answer_section.
Proof.
  intros l x. rewrite !answer_section_eq.
  destruct (Regex.literal_ci _ l) as [rest|] eqn:Hl; [|done].
  rewrite (literal_ci_app _ _ x _ Hl). apply letter_app.
Qed.

Lemma options_section_unmarked : unmarked Regex.options_section.
Proof.
  split; [done|]. intros l. rewrite !options_section_eq.
  destruct (Regex.literal_ci _ (l ++ _)) as [rest|] eqn:Hl; [|done].
  apply literal_ci_snoc in Hl as (rest' & -> & ->).
  2: { repeat constructor. }
  destruct rest' as [|c rest']; [done|].
  rewrite skip_s_app by done.
  apply colon_then_snoc.
Qed.

Lemma answer_section_unmarked : unmarked Regex.answer_section.
Proof.
  split; [done|]. intros l. rewrite !answer_section_eq.
  destruct (Regex.literal_ci _ (l ++ _)) as [rest|] eqn:Hl; [|done].
  apply literal_ci_snoc in Hl as (rest' & -> & ->).
  2: { repeat constructor. }
  apply letter_snoc.
Qed.

(** *** Searching and cutting *)

Lemma has_match_app_l m l x :
  extends m -> has_match m (l ++ x) = false -> has_match m l = false.
Proof.
  intros Hm. induction l as [|c l IH]; [done|].
  cbn [has_match app]. intros [H1 H2]%orb_false_iff.
  rewrite (IH H2), orb_false_r.
  destruct (m (c :: l)) eqn:H; [|done].
  apply (Hm _ x) in H. simpl in H. congruence.
Qed.

Lemma has_match_app_r m a l :
  has_match m (a ++ l) = false -> has_match m l = false.
Proof.
  induction a as [|c a IH]; [done|].
  cbn [has_match app]. intros [_ H]%orb_false_iff. by apply IH.
Qed.

Lemma has_match_snoc m l :
  unmarked m -> has_match m l = false -> has_match m (l ++ ["?"%char]) = false.
Proof.
  intros [Hnil Hm]. induction l as [|c l IH]; cbn [has_match app].
  - intros _. rewrite orb_false_r.
    destruct (m ["?"%char]) eqn:H; [|done].
    apply (Hm []) in H. congruence.
  - intros [H1 H2]%orb_false_iff. rewrite (IH H2), orb_false_r.
    destruct (m (c :: l ++ _)) eqn:H; [|done].
    apply (Hm (c :: l)) in H. congruence.
Qed.

Lemma cut_at_prefix m l : exists rest, l = Regex.cut_at m l ++ rest.
Proof.
  induction l as [|c l [rest IH]]; [by exists []|].
  cbn [Regex.cut_at]. destruct (m (c :: l)); [by eexists|].
  exists rest. simpl. by rewrite <- IH.
Qed.

(** What is left of the cut holds no match. *)
Lemma has_match_cut_at m l : extends m -> has_match m (Regex.cut_at m l) = false.
Proof.
  intros Hm. induction l as [|c l IH]; [done|].
  cbn [Regex.cut_at]. destruct (m (c :: l)) eqn:H; [done|].
  cbn [has_match]. rewrite IH, orb_false_r.
  destruct (m (c :: Regex.cut_at m l)) eqn:H'; [|done].
  destruct (cut_at_prefix m l) as [rest Hr].
  apply (Hm _ rest) in H'. simpl in H'. rewrite <- Hr in H'. congruence.
Qed.

(** Without a match nothing is cut. *)
Lemma cut_at_no_match m l : has_match m l = false -> Regex.cut_at m l = l.
Proof.
  induction l as [|c l IH]; [done|].
  cbn [has_match Regex.cut_at]. intros [-> H]%orb_false_iff. by rewrite IH.
Qed.

Lemma has_match_strip m l :
  extends m -> has_match m l = false ->
  has_match m (Py.strip_with Py.isspace l) = false.
Proof.
  intros Hm H. destruct (strip_with_infix Py.isspace l) as (a & b & Hl).
  rewrite Hl in H. apply has_match_app_r in H. by apply has_match_app_l in H.
Qed.

Lemma literal_split p l rest : Regex.literal p l = Some rest -> l = p ++ rest.
Proof.
  revert l. induction p as [|a p IH]; intros l; simpl; [by intros [= ->]|].
  destruct l as [|c l]; [done|].
  destruct (Ascii.eqb_spec c a) as [->|]; [|done].
  intros H. by rewrite (IH _ H).
Qed.

Lemma strip_label_suffix l : exists a, l = a ++ Regex.strip_label l.
Proof.
  unfold Regex.strip_label.
  destruct (Regex.literal _ l) as [rest|] eqn:H1.
  { apply literal_split in H1. destruct (dropwhile_split Py.isspace rest) as [b Hb].
    eexists (_ ++ b). rewrite <- app_assoc, <- Hb. exact H1. }
  destruct (Regex.literal (Py.chars "Q:") l) as [rest|] eqn:H2.
  { apply literal_split in H2. destruct (dropwhile_split Py.isspace rest) as [b Hb].
    eexists (_ ++ b). rewrite <- app_assoc, <- Hb. exact H2. }
  by exists [].
Qed.

(** *** Strings that end with a question mark *)

Lemma chars_rev_app s acc :
  Py.chars (String.rev_app s acc) = rev (Py.chars s) ++ Py.chars acc.
Proof.
  revert acc. induction s as [|c s IH]; intros acc; [done|].
  cbn [String.rev_app]. rewrite IH. simpl. by rewrite <- app_assoc.
Qed.

Lemma str_chars s : Py.str (Py.chars s) = s.
Proof. apply string_of_list_ascii_of_string. Qed.

Lemma chars_append s t : Py.chars (s +:+ t) = Py.chars s ++ Py.chars t.
Proof. induction s as [|c s IH]; [done|]. rewrite append_cons. simpl. by rewrite IH. Qed.

Lemma prefix_mark t :
  String.prefix "?" t = true <-> exists t', t = String "?"%char t'.
Proof.
  destruct t as [|c t]; cbn [String.prefix].
  - split; [done|]. by intros [t' ?].
  - destruct (ascii_dec "?" c) as [<-|Hc].
    + split; [by eexists|]. intros _. apply prefix_nil.
    + split; [done|]. intros [t' [= ? _]]. by destruct Hc.
Qed.

Lemma endswith_mark s :
  Py.endswith s "?" = true <-> exists d, Py.chars s = d ++ ["?"%char].
Proof.
  unfold Py.endswith. change (String.rev "?") with "?"%string.
  pose proof (chars_rev_app s "") as Hr. fold (String.rev s) in Hr.
  rewrite app_nil_r in Hr. rewrite prefix_mark. split.
  - intros [t' Ht]. rewrite Ht in Hr. simpl in Hr.
    exists (rev (Py.chars t')).
    rewrite <- (rev_involutive (Py.chars s)), <- Hr. done.
  - intros [d Hd]. rewrite Hd, rev_app_distr in Hr. simpl in Hr.
    exists (Py.str (rev d)).
    rewrite <- (str_chars (String.rev s)), Hr. done.
Qed.

Lemma dropwhile_snoc p l q :
  p q = false -> exists d, Py.dropwhile p (l ++ [q]) = d ++ [q].
Proof.
  intros Hq. induction l as [|c l [d IH]]; simpl.
  - rewrite Hq. by exists [].
  - destruct (p c); [by exists d|]. by exists (c :: l).
Qed.

(** Stripping keeps a last character that is not white space. *)
Lemma strip_with_snoc p l q :
  p q = false -> exists d, Py.strip_with p (l ++ [q]) = d ++ [q].
Proof.
  intros Hq. unfold Py.strip_with.
  destruct (dropwhile_snoc p l q Hq) as [d ->].
  exists d. rewrite rev_app_distr. simpl. rewrite Hq. simpl.
  by rewrite rev_involutive.
Qed.

(** X17. What [_clean_question_text] returns holds no "Options:" section
    and no "Answer:" section any more, and has no white space at either
    end. *)
Theorem clean_question_text_no_section question_text :
  has_options_section (Generator._clean_question_text question_text) = false
  /\ has_answer_section (Generator._clean_question_text question_text) = false
  /\ Py.strip (Generator._clean_question_text question_text)
     = Generator._clean_question_text question_text.
Proof.
  unfold Generator._clean_question_text. cbv zeta.
  set (marked := if negb _ then _ else _).
  unfold has_options_section, has_answer_section.
  rewrite chars_str.
  set (l3 := Regex.cut_at Regex.options_section (Py.chars marked)).
  set (l4 := Regex.cut_at Regex.answer_section l3).
  assert (has_match Regex.options_section l4 = false) as Ho.
  { destruct (cut_at_prefix Regex.answer_section l3) as [rest Hr].
    apply (has_match_app_l _ _ rest); [apply options_section_extends|].
    fold l4 in Hr. rewrite <- Hr.
    apply has_match_cut_at, options_section_extends. }
  assert (has_match Regex.answer_section l4 = false) as Ha
    by apply has_match_cut_at, answer_section_extends.
  unfold Py.strip at 1 2. rewrite !chars_str.
  split; [by apply has_match_strip; [apply options_section_extends|]|].
  split; [by apply has_match_strip; [apply answer_section_extends|]|].
  apply strip_idem.
Qed.

(** X18. When the generated text holds no "Options:" section and no
    "Answer:" section, [_clean_question_text] returns a text that ends with
    a question mark. *)
Theorem clean_question_text_marked question_text :
  has_options_section question_text = false ->
  has_answer_section question_text = false ->
  Py.endswith (Generator._clean_question_text question_text) "?" = true.
Proof.
  unfold has_options_section, has_answer_section. intros Ho Ha.
  unfold Generator._clean_question_text. cbv zeta.
  set (label_free := Py.str (Regex.strip_label (Py.chars (Py.strip question_text)))).
  assert (has_match Regex.options_section (Py.chars label_free) = false
          /\ has_match Regex.answer_section (Py.chars label_free) = false)
    as [Ho1 Ha1].
  { unfold label_free, Py.strip. rewrite !chars_str.
    destruct (strip_label_suffix
                (Py.strip_with Py.isspace (Py.chars question_text))) as [a Hs].
    split.
    - apply (has_match_app_r _ a). rewrite <- Hs.
      by apply has_match_strip; [apply options_section_extends|].
    - apply (has_match_app_r _ a). rewrite <- Hs.
      by apply has_match_strip; [apply answer_section_extends|]. }
  set (marked := if negb _ then _ else _).
  assert (exists d, Py.chars marked = d ++ ["?"%char]
                    /\ has_match Regex.options_section (Py.chars marked) = false
                    /\ has_match Regex.answer_section (Py.chars marked) = false)
    as (d & Hd & Ho2 & Ha2).
  { unfold marked. destruct (Py.endswith label_free "?") eqn:He; cbn [negb].
    - apply endswith_mark in He as [d Hd]. by exists d.
    - exists (Py.chars label_free). rewrite chars_append.
      split; [done|]. split.
      + by apply has_match_snoc; [apply options_section_unmarked|].
      + by apply has_match_snoc; [apply answer_section_unmarked|]. }
  rewrite (cut_at_no_match _ _ Ho2), str_chars.
  rewrite (cut_at_no_match _ _ Ha2), str_chars.
  apply endswith_mark. unfold Py.strip. rewrite chars_str, Hd.
  by apply strip_with_snoc.
Qed.

(** A generated question with a label and no mark. *)
Lemma clean_question_text_marked_witness :
  Py.endswith (Generator._clean_question_text "Q:  Which planet is largest ") "?"
  = true.
Proof.
  apply (clean_question_text_marked "Q:  Which planet is largest ");
    reflexivity.
Defined.

(** ** The endpoints of main.py *)

Lemma gemini_generate_mcq_total model_loaded text n requested w :
  exists qs w', Gemini.generate_mcq model_loaded text n requested w = (Ok qs, w').
Proof.
  unfold Gemini.generate_mcq. apply try_except_total. intros e w1.
  destruct (Gemini_mock_spec text n w1) as (qs & w' & Hrun & _).
  exists (Mocked <$> qs), w'. by rewrite (bind_ok _ _ _ _ _ Hrun).
Qed.

(** The loop that saves the questions goes through, whatever the database
    does. *)
Lemma save_loop_total (save_question : GeminiQuestion -> M Z)
  (generated : list GeminiQuestion) w :
  exists w',
    for_each generated
      (fun question (_ : unit) =>
         try_except (_ ← save_question question; mret tt) (fun _ => mret tt)) tt w
    = (Ok tt, w').
Proof.
  destruct (for_each_invariant
              (fun question (_ : unit) =>
                 try_except (_ ← save_question question; mret tt)
                            (fun _ => mret tt))
              (fun _ _ _ => True) generated) with (acc := tt) (w := w)
    as ([] & w' & Hrun & _); [|done|by exists w'].
  intros k question [] w1 _ _.
  destruct (try_except_total (_ ← save_question question; mret tt)
              (fun _ => mret tt) w1) as ([] & w2 & H).
  { intros e w2. by exists tt, w2. }
  by exists tt, w2.
Qed.

(** X19. [POST /api/generate-questions] has two outcomes only. A request
    that passes the three checks (model loaded, at least 50 characters of
    text once stripped, 1 to 20 questions) is answered with the questions
    of [generate_mcq], all of them counted in [total_generated], even when
    the database refuses every one of them. Any other request is answered
    with status 500, without a call of the generator: the statuses 503 and
    400 of the checks are raised inside the [try] and replaced by its
    handler. *)
Theorem generate_questions_outcomes model_loaded save_question request w :
  if model_loaded
     && (50 <=? Py.len (Py.strip (Main.text request)))
     && (1 <=? Main.num_questions request)%Z
     && (Main.num_questions request <=? 20)%Z
  then exists response w',
         Main.generate_questions model_loaded save_question request w
         = (Ok response, w')
         /\ fst (Gemini.generate_mcq true (Main.text request)
                   (Main.num_questions request) (Main.difficulty request) w)
            = Ok (Main.questions response)
         /\ Main.total_generated response = length (Main.questions response)
  else Main.generate_questions model_loaded save_question request w
       = (Raise (Main.HTTPException 500), w).
Proof.
  unfold Main.generate_questions.
  destruct model_loaded; cbn [negb andb]; [|done].
  destruct (Nat.leb_spec 50 (Py.len (Py.strip (Main.text request)))) as [H50|H50];
    cbn [andb].
  2: { rewrite (proj2 (Nat.ltb_lt _ _) H50). done. }
  rewrite (proj2 (Nat.ltb_ge _ _) H50).
  destruct (Z.leb_spec 1 (Main.num_questions request)) as [H1|H1]; cbn [andb].
  2: { rewrite (proj2 (Z.ltb_lt _ _) H1). done. }
  rewrite (proj2 (Z.ltb_ge _ _) H1). cbn [orb].
  destruct (Z.leb_spec (Main.num_questions request) 20) as [H20|H20].
  2: { rewrite (proj2 (Z.ltb_lt _ _) H20). done. }
  rewrite (proj2 (Z.ltb_ge _ _) H20).
  destruct (gemini_generate_mcq_total true (Main.text request)
              (Main.num_questions request) (Main.difficulty request) w)
    as (qs & w1 & Hgen).
  destruct (save_loop_total save_question qs w1) as (w2 & Hsave).
  eexists _, w2. split.
  - apply try_except_ok. rewrite (bind_ok _ _ _ _ _ Hgen).
    rewrite (bind_ok _ _ _ _ _ Hsave). reflexivity.
  - rewrite Hgen. by split.
Qed.

(** *** Validation of a list of questions *)

Lemma validate_multiple_scores sim (questions : list Validator.QuestionDict) :
  exists results,
    Validator.validate_multiple_questions sim questions = Ok results
    /\ length results = length questions
    /\ Forall (fun r => (0 <= Validator.score r <= 100)%Z) results.
Proof.
  destruct (validate_multiple_questions_spec sim questions) as (results & Hres & Hall).
  exists results. split; [done|]. split; [symmetry; by eapply Forall2_length|].
  clear Hres. induction Hall as [|question result qs rs Hq _ IH]; [done|].
  apply Forall_cons. split; [|done]. clear IH.
  revert Hq. unfold Validator.validate_question_quality.
  destruct (avg_option_length_ok (default [] (Validator.get_options question)))
    as [avg Havg].
  cbv zeta. monad_unfold. rewrite Havg.
  destruct (4 <=? length (default [] (Validator.get_options question))).
  - destruct (score_distractor_quality_ok sim
                (default [] (Validator.get_options question))
                (default "" (Validator.get_correct_answer question))) as [d Hd].
    rewrite Hd. intros [= <-]. cbn [Validator.score]. lia.
  - intros [= <-]. cbn [Validator.score]. lia.
Qed.

Lemma sum_scores_range (results : list Validator.ValidationResult) :
  Forall (fun r => (0 <= Validator.score r <= 100)%Z) results ->
  (0 <= Main.sum_scores results <= 100 * Z.of_nat (length results))%Z.
Proof.
  unfold Main.sum_scores.
  induction 1 as [|r results Hr _ IH]; [simpl; lia|].
  change (0 <= Validator.score r + foldr Z.add 0 (Validator.score <$> results)
          <= 100 * Z.of_nat (S (length results)))%Z.
  lia.
Qed.

Lemma round_half_even_range (y : Q) (n : Z) :
  (0 <= y <= inject_Z n)%Q -> (0 <= Main.round_half_even y <= n)%Z.
Proof.
  intros [H0 Hn]. unfold Main.round_half_even. cbv zeta.
  assert (0 <= Qfloor y)%Z as Hf0.
  { rewrite <- (Qfloor_Z 0). by apply Qfloor_resp_le. }
  assert (Qfloor y <= n)%Z as Hfn.
  { rewrite <- (Qfloor_Z n). by apply Qfloor_resp_le. }
  destruct (Processors.Qlt_bool (y - inject_Z (Qfloor y)) (1 # 2)) eqn:Hlt; [lia|].
  assert (Qfloor y < n)%Z.
  { destruct (Z.eq_dec (Qfloor y) n) as [He|]; [|lia]. exfalso.
    unfold Processors.Qlt_bool in Hlt. apply negb_false_iff in Hlt.
    apply Qle_bool_iff in Hlt. rewrite He in Hlt. lra. }
  destruct (Processors.Qlt_bool (1 # 2) _); [lia|]. destruct (Z.even _); lia.
Qed.

Lemma round2_range (x : Q) : (0 <= x <= 100)%Q -> (0 <= Main.round2 x <= 100)%Q.
Proof.
  intros Hx. unfold Main.round2.
  destruct (round_half_even_range (x * 100) 10000) as [H0 H1].
  { change (inject_Z 10000) with 10000%Q. lra. }
  rewrite Zle_Qle in H0, H1.
  change (inject_Z 0) with 0%Q in H0. change (inject_Z 10000) with 10000%Q in H1.
  split.
  - apply Qle_shift_div_l; [done|]. lra.
  - apply Qle_shift_div_r; [done|]. lra.
Qed.

(** X20. [POST /api/validate-questions] with an empty list of questions is
    answered with status 500: the mean of the scores divides by zero. With
    at least one question it returns one result for each question, and an
    overall score, also given as [avg_score], between 0 and 100. *)
Theorem validate_questions_outcomes sim (request_questions : list Question) :
  match request_questions with
  | [] => Main.validate_questions sim request_questions
          = Raise (Main.HTTPException 500)
  | _ => exists response,
           Main.validate_questions sim request_questions = Ok response
           /\ length (Main.individual_results response) = length request_questions
           /\ Main.total_questions response = length request_questions
           /\ (0 <= Main.overall_score response <= 100)%Q
           /\ Main.avg_score response = Main.overall_score response
  end.
Proof.
  destruct request_questions as [|q qs]; [done|].
  unfold Main.validate_questions. cbv zeta.
  destruct (validate_multiple_scores sim (Validator.dict_of <$> q :: qs))
    as (results & Hres & Hlen & Hall).
  rewrite length_fmap in Hlen.
  monad_unfold. rewrite Hres. unfold Validator.true_div.
  destruct (Z.eqb_spec (Z.of_nat (length results)) 0) as [H0|H0];
    [rewrite Hlen in H0; simpl in H0; lia|].
  eexists. split; [reflexivity|].
  cbn [Main.individual_results Main.total_questions Main.overall_score
       Main.avg_score].
  split; [done|]. split; [done|]. split; [|done].
  apply round2_range.
  destruct (sum_scores_range results Hall) as [Hs0 Hs1].
  assert (0 < inject_Z (Z.of_nat (length results)))%Q as Hpos.
  { change 0%Q with (inject_Z 0). rewrite <- Zlt_Qlt. lia. }
  rewrite Zle_Qle in Hs0, Hs1. rewrite inject_Z_mult in Hs1.
  change (inject_Z 0) with 0%Q in Hs0. change (inject_Z 100) with 100%Q in Hs1.
  split.
  - apply Qle_shift_div_l; [exact Hpos|]. lra.
  - apply Qle_shift_div_r; [exact Hpos|]. lra.
Qed.

(** ** The size of the chunks *)

Lemma word_count_app a b : word_count (a ++ b) = word_count a + word_count b.
Proof. unfold word_count. by rewrite map_app, list_sum_app. Qed.

Lemma word_count_single sentence :
  word_count [sentence] = length (Py.split sentence).
Proof. unfold word_count. simpl. lia. Qed.

(** Groups that lie in a text lie in every longer one. *)
Lemma consecutive_runs_more groups sentences more :
  consecutive_runs groups sentences -> consecutive_runs groups (sentences ++ more).
Proof.
  destruct groups as [|group groups]; [done|].
  intros (before & after & -> & Hrest). exists before, (after ++ more).
  split; [by rewrite <- !app_assoc|].
  clear before group. revert after Hrest.
  induction groups as [|group groups IH]; intros after Hrest; [done|].
  destruct Hrest as (before & after' & -> & Hrest).
  exists before, (after' ++ more). split; [by rewrite <- !app_assoc|].
  by apply IH.
Qed.

(** A run that follows the text comes after the groups that lie in it. *)
Lemma consecutive_runs_snoc groups sentences group :
  consecutive_runs groups sentences ->
  consecutive_runs (groups ++ [group]) (sentences ++ group).
Proof.
  revert sentences. induction groups as [|g groups IH]; intros sentences H.
  - exists sentences, []. by rewrite app_nil_r.
  - destruct H as (before & after & -> & Hrest).
    exists before, (after ++ group). split; [by rewrite <- !app_assoc|].
    by apply IH.
Qed.

(** The current chunk, when it has 200 words, is a full group. *)
Lemma current_chunk_full (st : Processors.ChunkState) :
  word_count (Processors.current_chunk st) <= 300
    \/ length (Processors.current_chunk st) <= 1 ->
  Processors.current_chunk st <> [] ->
  200 <= word_count (Processors.current_chunk st) ->
  full_group (Processors.current_chunk st).
Proof.
  intros Hsize Hnil H200. split; [done|].
  destruct Hsize as [?|Hlen]; [by left|right].
  destruct (Processors.current_chunk st) as [|s [|s' l]];
    [done|done|simpl in Hlen; lia].
Qed.

(** One turn of the loop keeps the invariant. *)
Lemma chunk_step_invariant seen st sentence :
  chunk_invariant seen st ->
  chunk_invariant (seen ++ [sentence]) (Processors.chunk_step st sentence).
Proof.
  intros (Hcount & Hsize & groups & before & Hchunks & Hfull & Hseen & Hruns).
  assert (chunk_invariant (seen ++ [sentence])
            (Processors.mkChunkState (Processors.chunks st)
               (Processors.current_chunk st ++ [sentence])
               (Processors.current_word_count st + length (Py.split sentence)))
          \/ (300 < Processors.current_word_count st + length (Py.split sentence)
              /\ Processors.current_chunk st = [])
          \/ (300 < Processors.current_word_count st + length (Py.split sentence)
              /\ Processors.current_chunk st <> [])) as [Happend|Hcase].
  { destruct (Nat.ltb_spec 300 (Processors.current_word_count st
                                 + length (Py.split sentence))) as [Hover|Hfits].
    - right. destruct (decide (Processors.current_chunk st = [])); [by left|by right].
    - left. split; cbn [Processors.current_word_count Processors.current_chunk
                        Processors.chunks].
      { rewrite word_count_app, word_count_single, <- Hcount. lia. }
      split.
      { left. rewrite word_count_app, word_count_single, <- Hcount. lia. }
      exists groups, before. split; [done|]. split; [done|].
      split; [by rewrite Hseen, <- app_assoc|done]. }
  { unfold Processors.chunk_step. cbv zeta.
    destruct (300 <? _) eqn:Hover; cbn [andb]; [|exact Happend].
    destruct (bool_decide (Processors.current_chunk st = [])) eqn:Hnil;
      cbn [negb]; [exact Happend|].
    apply bool_decide_eq_false_1 in Hnil. apply Nat.ltb_lt in Hover.
    destruct Happend as (_ & [Hle|Hlen] & _);
      cbn [Processors.current_chunk] in *.
    - rewrite word_count_app, word_count_single, <- Hcount in Hle. lia.
    - rewrite length_app in Hlen. simpl in Hlen.
      destruct (Processors.current_chunk st); [done|simpl in Hlen; lia]. }
  unfold Processors.chunk_step. cbv zeta.
  destruct Hcase as [[Hover Hnil]|[Hover Hnil]].
  - rewrite (proj2 (Nat.ltb_lt _ _) Hover), (bool_decide_eq_true_2 _ Hnil).
    cbn [andb negb].
    split; cbn [Processors.current_word_count Processors.current_chunk
                Processors.chunks].
    { rewrite word_count_app, word_count_single, <- Hcount. lia. }
    split; [right; rewrite Hnil; simpl; lia|].
    exists groups, before. split; [done|]. split; [done|].
    split; [by rewrite Hseen, <- app_assoc|done].
  - rewrite (proj2 (Nat.ltb_lt _ _) Hover), (bool_decide_eq_false_2 _ Hnil).
    cbn [andb negb].
    split; cbn [Processors.current_word_count Processors.current_chunk
                Processors.chunks].
    { by rewrite word_count_single. }
    split; [right; simpl; lia|].
    destruct (200 <=? Processors.current_word_count st) eqn:H200.
    + apply Nat.leb_le in H200.
      exists (groups ++ [Processors.current_chunk st]), seen.
      split; [by rewrite fmap_app, Hchunks|].
      split.
      { apply Forall_app. split; [done|]. apply Forall_singleton.
        apply current_chunk_full; [done|done|lia]. }
      split; [done|]. rewrite Hseen. by apply consecutive_runs_snoc.
    + exists groups, seen. split; [done|]. split; [done|].
      split; [done|]. rewrite Hseen. by apply consecutive_runs_more.
Qed.

Lemma chunk_loop_invariant rest seen st :
  chunk_invariant seen st ->
  chunk_invariant (seen ++ rest) (fold_left Processors.chunk_step rest st).
Proof.
  revert seen st. induction rest as [|sentence rest IH]; intros seen st H.
  - by rewrite app_nil_r.
  - simpl. rewrite cons_middle, app_assoc. apply IH.
    by apply chunk_step_invariant.
Qed.

(** The chunks collected are the texts of full groups that lie in the
    sentences one after the other. *)
Lemma grouped_chunks_full sentences :
  exists groups,
    Processors.grouped_chunks sentences = Processors.chunk_text_of <$> groups
    /\ Forall full_group groups
    /\ consecutive_runs groups sentences.
Proof.
  unfold Processors.grouped_chunks. cbv zeta.
  destruct (chunk_loop_invariant sentences [] (Processors.mkChunkState [] [] 0))
    as (Hcount & Hsize & groups & before & Hchunks & Hfull & Hseen & Hruns).
  { split; [done|]. split; [left; unfold word_count; simpl; lia|].
    by exists [], []. }
  rewrite app_nil_l in Hseen.
  set (st := fold_left Processors.chunk_step sentences _) in *.
  destruct (bool_decide (Processors.current_chunk st = [])) eqn:Hnil;
    cbn [negb andb].
  { exists groups. split; [done|]. split; [done|].
    rewrite Hseen. by apply consecutive_runs_more. }
  apply bool_decide_eq_false_1 in Hnil.
  destruct (200 <=? Processors.current_word_count st) eqn:H200.
  - apply Nat.leb_le in H200.
    exists (groups ++ [Processors.current_chunk st]).
    split; [by rewrite fmap_app, Hchunks|].
    split.
    { apply Forall_app. split; [done|]. apply Forall_singleton.
      apply current_chunk_full; [done|done|lia]. }
    rewrite Hseen. by apply consecutive_runs_snoc.
  - exists groups. split; [done|]. split; [done|].
    rewrite Hseen. by apply consecutive_runs_more.
Qed.

(** X21. [preprocess_text] returns the cleaned text as its only chunk, or
    chunks that are each the text of a group of consecutive sentences of
    the cleaned text, joined with ". " and closed with "."; each group has
    at least 200 words in all, and at most 300 unless it is a single
    sentence, and the groups lie in the text one after the other, without
    overlapping. *)
Theorem preprocess_text_chunk_sizes text :
  Processors.preprocess_text text = [Processors.clean_text text]
  \/ exists groups,
       Processors.preprocess_text text = Processors.chunk_text_of <$> groups
       /\ Forall full_group groups
       /\ consecutive_runs groups
            (Processors.sentences_of (Processors.clean_text text)).
Proof.
  unfold Processors.preprocess_text. cbv zeta.
  destruct (grouped_chunks_full
              (Processors.sentences_of (Processors.clean_text text)))
    as (groups & Hchunks & Hfull & Hruns).
  destruct (Processors.grouped_chunks _) as [|c cs]; [by left|right].
  by exists groups.
Qed.

(** ** Grouping the questions by topic *)

(** *** The keys of the dictionary *)

Lemma add_key_elem k keys x : x ∈ add_key k keys <-> x = k \/ x ∈ keys.
Proof.
  unfold add_key. destruct (bool_decide (k ∈ keys)) eqn:H.
  - apply bool_decide_eq_true_1 in H. split; [by right|]. by intros [->|?].
  - rewrite elem_of_app, list_elem_of_singleton. tauto.
Qed.

Lemma add_key_NoDup k keys : NoDup keys -> NoDup (add_key k keys).
Proof.
  intros Hnd. unfold add_key. destruct (bool_decide (k ∈ keys)) eqn:H; [done|].
  apply bool_decide_eq_false_1 in H.
  apply NoDup_app. split; [done|]. split; [|apply NoDup_singleton].
  intros x Hx ->%list_elem_of_singleton. done.
Qed.

Lemma add_key_cons k t ts : t <> k -> add_key k (t :: ts) = t :: add_key k ts.
Proof.
  intros Hne. unfold add_key.
  rewrite (bool_decide_ext (k ∈ t :: ts) (k ∈ ts)).
  - by destruct (bool_decide (k ∈ ts)).
  - rewrite elem_of_cons. split; [intros [?|?]; [congruence|done]|by right].
Qed.

Lemma add_keys_elem topics keys x :
  x ∈ fold_left (fun ks c => add_key c ks) topics keys <-> x ∈ topics \/ x ∈ keys.
Proof.
  revert keys. induction topics as [|c topics IH]; intros keys; simpl.
  - rewrite elem_of_nil. tauto.
  - rewrite IH, add_key_elem, elem_of_cons. tauto.
Qed.

Lemma add_keys_NoDup topics keys :
  NoDup keys -> NoDup (fold_left (fun ks c => add_key c ks) topics keys).
Proof.
  revert keys. induction topics as [|c topics IH]; intros keys H; simpl; [done|].
  by apply IH, add_key_NoDup.
Qed.

(** *** The dictionary in closed form *)

Lemma grouped_keys concepts questions keys :
  (grouped concepts questions keys).*1 = keys.
Proof.
  induction keys as [|t ts IH]; [done|].
  exact (f_equal (cons t) IH).
Qed.

Lemma dict_set_grouped concepts k keys :
  Grouping.dict_set k [] (grouped concepts [] keys)
  = grouped concepts [] (add_key k keys).
Proof.
  induction keys as [|t ts IH].
  - reflexivity.
  - cbn [grouped map Grouping.dict_set]. fold (grouped concepts [] ts).
    destruct (String.eqb_spec t k) as [->|Hne].
    + unfold add_key. rewrite bool_decide_eq_true_2 by apply list_elem_of_here.
      reflexivity.
    + rewrite IH, add_key_cons by done. reflexivity.
Qed.

Lemma dict_init_grouped concepts topics keys :
  fold_left (fun d concept => Grouping.dict_set concept [] d) topics
    (grouped concepts [] keys)
  = grouped concepts [] (fold_left (fun ks c => add_key c ks) topics keys).
Proof.
  revert keys. induction topics as [|c topics IH]; intros keys; simpl; [done|].
  by rewrite dict_set_grouped, IH.
Qed.

Lemma questions_of_snoc concepts seen q topic :
  questions_of concepts (seen ++ [q]) topic
  = questions_of concepts seen topic
    ++ (if decide (topic_of concepts q = topic) then [q] else []).
Proof.
  unfold questions_of. by rewrite filter_app.
Qed.

(** Filing a question under its topic. *)
Lemma dict_append_grouped concepts seen q keys :
  NoDup keys -> topic_of concepts q ∈ keys ->
  Grouping.dict_append (topic_of concepts q) q (grouped concepts seen keys)
  = Ok (grouped concepts (seen ++ [q]) keys).
Proof.
  induction keys as [|t ts IH]; intros Hnd Hin; [by apply elem_of_nil in Hin|].
  apply NoDup_cons in Hnd as [Hnt Hnd].
  cbn [grouped map Grouping.dict_append].
  fold (grouped concepts seen ts). fold (grouped concepts (seen ++ [q]) ts).
  destruct (String.eqb_spec t (topic_of concepts q)) as [Heq|Hne].
  - f_equal. f_equal.
    + by rewrite questions_of_snoc, decide_True.
    + apply map_ext_in. intros t' Ht'. apply list_elem_of_In in Ht'.
      rewrite questions_of_snoc, decide_False, app_nil_r; [done|].
      intros Heq'. apply Hnt. by rewrite Heq, Heq'.
  - apply elem_of_cons in Hin as [Heq|Hin]; [congruence|].
    rewrite (IH Hnd Hin). cbn [mbind Res_bind]. f_equal. f_equal.
    by rewrite questions_of_snoc, decide_False, app_nil_r.
Qed.

Lemma first_concept_elem concepts question_text concept :
  Grouping.first_concept concepts question_text = Some concept -> concept ∈ concepts.
Proof.
  unfold Grouping.first_concept. intros H. apply find_some in H as [H _].
  by apply list_elem_of_In.
Qed.

Lemma assign_grouped concepts seen q keys :
  NoDup keys -> "general" ∈ keys -> (forall c, c ∈ concepts -> c ∈ keys) ->
  Grouping.assign concepts (grouped concepts seen keys) q
  = Ok (grouped concepts (seen ++ [q]) keys).
Proof.
  intros Hnd Hg Hc.
  rewrite <- (dict_append_grouped concepts seen q keys Hnd).
  - unfold Grouping.assign, topic_of. cbv zeta.
    by destruct (Grouping.first_concept concepts _).
  - unfold topic_of.
    destruct (Grouping.first_concept concepts _) as [c|] eqn:H; [|done].
    apply Hc. by eapply first_concept_elem.
Qed.

Lemma assign_all_grouped concepts rest seen keys :
  NoDup keys -> "general" ∈ keys -> (forall c, c ∈ concepts -> c ∈ keys) ->
  Grouping.assign_all concepts rest (grouped concepts seen keys)
  = Ok (grouped concepts (seen ++ rest) keys).
Proof.
  intros Hnd Hg Hc. revert seen.
  induction rest as [|q rest IH]; intros seen; simpl.
  - by rewrite app_nil_r.
  - rewrite assign_grouped by done. cbn [mbind Res_bind].
    rewrite IH, <- app_assoc. done.
Qed.

(** *** The groups share out the questions *)

Lemma eq_perm {A} (l l' : list A) : l = l' -> l ≡ₚ l'.
Proof. by intros ->. Qed.

Lemma concat_nonempty (d : Grouping.TopicGroups) :
  concat (filter (fun '(topic, questions) =>
                    negb (Grouping.is_empty questions)) d).*2
  = concat d.*2.
Proof.
  induction d as [|[t [|q qs]] d IH]; [done| |].
  - exact IH.
  - exact (f_equal (app (q :: qs)) IH).
Qed.

Lemma file_one {A} (k : string) (x : A) (G : string -> list A) (keys : list string) :
  NoDup keys ->
  concat (map (fun t => G t ++ (if decide (k = t) then [x] else [])) keys)
  ≡ₚ concat (map G keys) ++ (if bool_decide (k ∈ keys) then [x] else []).
Proof.
  induction keys as [|t ts IH]; intros Hnd; [done|].
  apply NoDup_cons in Hnd as [Hnt Hnd]. simpl. rewrite (IH Hnd).
  destruct (decide (k = t)) as [->|Hne].
  - rewrite (bool_decide_eq_true_2 (t ∈ t :: ts)) by apply list_elem_of_here.
    rewrite (bool_decide_eq_false_2 (t ∈ ts)) by done.
    rewrite app_nil_r, <- !app_assoc. apply Permutation_app_head.
    apply Permutation_app_comm.
  - rewrite app_nil_r, <- app_assoc.
    rewrite (bool_decide_ext (k ∈ t :: ts) (k ∈ ts)); [done|].
    rewrite elem_of_cons. split; [intros [?|?]; [congruence|done]|by right].
Qed.

Lemma grouped_partition concepts questions keys :
  NoDup keys -> (forall q, topic_of concepts q ∈ keys) ->
  concat (grouped concepts questions keys).*2 ≡ₚ questions.
Proof.
  intros Hnd Hin. unfold grouped.
  rewrite <- list_fmap_compose.
  change (concat (map (questions_of concepts questions) keys) ≡ₚ questions).
  induction questions as [|q questions IH] using rev_ind.
  - clear. induction keys as [|t ts IH]; [done|]. exact IH.
  - rewrite (map_ext _ (fun t => questions_of concepts questions t
                                 ++ (if decide (topic_of concepts q = t)
                                     then [q] else [])))
      by (intros t; apply questions_of_snoc).
    rewrite (file_one _ _ _ _ Hnd), IH.
    by rewrite (bool_decide_eq_true_2 _ (Hin q)).
Qed.

(** X22. [group_questions_by_topic] never raises (no [KeyError]) and shares
    the questions out: the topics it returns are distinct, each is
    "general" or one of the first five key concepts of the text, no group
    is empty, the group of a topic holds, in their order, the questions
    whose lower-cased text contains that concept and none of the concepts
    before it ("general": the questions that contain none), and the groups
    together are the questions, each once. *)
Theorem group_questions_by_topic_partition ln (questions : list Question) text :
  let concepts := take 5 (Processors.extract_key_concepts ln text) in
  exists groups,
    Grouping.group_questions_by_topic ln questions text = Ok groups
    /\ NoDup groups.*1
    /\ Forall (fun '(topic, qs) =>
                 (topic = "general" \/ topic ∈ concepts)
                 /\ qs <> []
                 /\ qs = questions_of concepts questions topic) groups
    /\ concat groups.*2 ≡ₚ questions.
Proof.
  intros concepts.
  set (keys := add_key "general" (fold_left (fun ks c => add_key c ks) concepts [])).
  assert (NoDup keys) as Hnd by apply add_key_NoDup, add_keys_NoDup, NoDup_nil_2.
  assert ("general" ∈ keys) as Hg by (apply add_key_elem; by left).
  assert (forall c, c ∈ concepts -> c ∈ keys) as Hc.
  { intros c H. apply add_key_elem. right. apply add_keys_elem. by left. }
  assert (forall t, t ∈ keys -> t = "general" \/ t ∈ concepts) as Hk.
  { intros t [->|H]%add_key_elem; [by left|].
    apply add_keys_elem in H as [H|H]; [by right|by apply elem_of_nil in H]. }
  exists (filter (fun '(topic, questions) => negb (Grouping.is_empty questions))
            (grouped concepts questions keys)).
  split; [|split; [|split]].
  - unfold Grouping.group_questions_by_topic. cbv zeta. fold concepts.
    change (@nil (string * list Question)) with (grouped concepts [] []) at 1.
    rewrite dict_init_grouped, dict_set_grouped. fold keys.
    rewrite (assign_all_grouped concepts questions [] keys Hnd Hg Hc).
    reflexivity.
  - assert (NoDup (grouped concepts questions keys).*1) as Hkeys.
    { by rewrite grouped_keys. }
    eapply sublist_NoDup; [exact Hkeys|]. apply fmap_sublist, sublist_filter.
  - apply Forall_forall. intros [topic qs] [Hne Hin]%list_elem_of_filter.
    unfold grouped in Hin. apply list_elem_of_fmap in Hin as (t & [= -> ->] & Ht).
    split; [by apply Hk|]. split; [|done].
    by destruct (questions_of concepts questions t).
  - etrans; [apply eq_perm, concat_nonempty|]. apply grouped_partition; [done|].
    intros q. unfold topic_of.
    destruct (Grouping.first_concept concepts _) as [c|] eqn:H; [|done].
    apply Hc. by eapply first_concept_elem.
Qed.

(** ** No repeated punctuation in a cleaned text *)

Lemma has_double_cons p a b l :
  has_double p (a :: b :: l)
  = (Ascii.eqb a p && Ascii.eqb b p) || has_double p (b :: l).
Proof. reflexivity. Qed.

Lemma has_double_tail p a l : has_double p (a :: l) = false -> has_double p l = false.
Proof.
  destruct l as [|b l]; [done|]. rewrite has_double_cons.
  by intros [_ ?]%orb_false_iff.
Qed.

Lemma has_double_other p a l :
  Ascii.eqb a p = false -> has_double p (a :: l) = has_double p l.
Proof. intros H. destruct l as [|b l]; [done|]. by rewrite has_double_cons, H. Qed.

(** Squeezing the runs of [p] leaves no [p] twice in a row; [x] is the
    character before the text. *)
Lemma squeeze_same p l : forall b x,
  (Ascii.eqb x p = true -> b = true) ->
  has_double p (x :: Processors.squeeze p b l) = false.
Proof.
  induction l as [|c l IH]; intros b x Hx; [done|].
  cbn [Processors.squeeze]. destruct (Ascii.eqb c p) eqn:Hc.
  - destruct b.
    + by apply IH.
    + rewrite has_double_cons, (IH true c) by done.
      destruct (Ascii.eqb x p); [by discriminate Hx|done].
  - rewrite has_double_cons, Hc, andb_false_r. apply IH. by rewrite Hc.
Qed.

(** Squeezing the runs of another character brings no two [p] together. *)
Lemma squeeze_other p q l : forall b x,
  Ascii.eqb q p = false ->
  (b = true -> x = q) ->
  has_double p (x :: l) = false ->
  has_double p (x :: Processors.squeeze q b l) = false.
Proof.
  induction l as [|c l IH]; intros b x Hqp Hb H; [done|].
  rewrite has_double_cons in H. apply orb_false_iff in H as [Hxc H].
  cbn [Processors.squeeze]. destruct (Ascii.eqb_spec c q) as [->|Hcq].
  - destruct b.
    + apply IH; [done|done|]. rewrite (Hb eq_refl).
      by rewrite has_double_other in H |- *.
    + rewrite has_double_cons, Hxc. by apply IH.
  - rewrite has_double_cons, Hxc. by apply IH.
Qed.

Lemma space_after_punct_head c l :
  exists t, Processors.space_after_punct (c :: l) = c :: t.
Proof.
  cbn [Processors.space_after_punct]. destruct l as [|d l]; [by eexists|].
  destruct (_ && _); by eexists.
Qed.

(** The spaces put after the punctuation bring no two [p] together. *)
Lemma space_after_punct_double p l :
  Ascii.eqb space p = false ->
  has_double p l = false ->
  has_double p (Processors.space_after_punct l) = false.
Proof.
  intros Hsp. induction l as [|c l IH]; [done|].
  destruct l as [|d l]; [done|].
  rewrite has_double_cons. intros [Hcd H]%orb_false_iff.
  specialize (IH H).
  change (Processors.space_after_punct (c :: d :: l))
    with (if Py.mem_char c ".!?" && Py.is_upper_az d
          then c :: " "%char :: Processors.space_after_punct (d :: l)
          else c :: Processors.space_after_punct (d :: l)).
  destruct (space_after_punct_head d l) as [t Ht]. rewrite Ht in IH |- *.
  destruct (Py.mem_char c ".!?" && Py.is_upper_az d).
  - rewrite has_double_cons. fold space. rewrite Hsp, andb_false_r.
    by rewrite has_double_other.
  - by rewrite has_double_cons, Hcd.
Qed.

Lemma has_double_app_l p l x : has_double p (l ++ x) = false -> has_double p l = false.
Proof.
  induction l as [|a l IH]; [done|]. destruct l as [|b l]; [done|].
  cbn [app]. rewrite !has_double_cons. intros [-> H]%orb_false_iff. by apply IH.
Qed.

Lemma has_double_app_r p a l : has_double p (a ++ l) = false -> has_double p l = false.
Proof.
  induction a as [|c a IH]; [done|]. intros H. apply IH.
  by eapply has_double_tail.
Qed.

Lemma has_double_strip p f l :
  has_double p l = false -> has_double p (Py.strip_with f l) = false.
Proof.
  intros H. destruct (strip_with_infix f l) as (a & b & Hl).
  rewrite Hl in H. by apply has_double_app_r, has_double_app_l in H.
Qed.

(** X23. In the text [clean_text] returns, no full stop, exclamation mark
    or question mark is followed by the same mark. *)
Theorem clean_text_no_repeated_mark text p :
  p ∈ ["."%char; "!"%char; "?"%char] ->
  has_double p (Py.chars (Processors.clean_text text)) = false.
Proof.
  intros Hp. unfold Processors.clean_text, Py.strip. cbv zeta.
  rewrite !chars_str. apply has_double_strip.
  apply space_after_punct_double.
  { repeat (apply elem_of_cons in Hp as [->|Hp]; [done|]).
    by apply elem_of_nil in Hp. }
  set (l0 := Processors.keep_basic _).
  pose proof (squeeze_same "." l0 false space ltac:(done)) as H1.
  apply has_double_tail in H1.
  pose proof (squeeze_same "!" (Processors.squeeze "." false l0) false space
                ltac:(done)) as H2.
  apply has_double_tail in H2.
  pose proof (squeeze_same "?" (Processors.squeeze "!" false
                                  (Processors.squeeze "." false l0)) false space
                ltac:(done)) as H3.
  apply has_double_tail in H3.
  apply elem_of_cons in Hp as [->|Hp].
  { apply (has_double_tail _ space), squeeze_other; [done|done|].
    rewrite has_double_other by done.
    apply (has_double_tail _ space), squeeze_other; [done|done|].
    by rewrite has_double_other. }
  apply elem_of_cons in Hp as [->|Hp].
  { apply (has_double_tail _ space), squeeze_other; [done|done|].
    by rewrite has_double_other. }
  apply list_elem_of_singleton in Hp as ->. exact H3.
Qed.

Lemma clean_text_no_repeated_mark_witness :
  has_double "!" (Py.chars (Processors.clean_text "Stop!!! Now?? Yes...")) = false.
Proof.
  apply (clean_text_no_repeated_mark "Stop!!! Now?? Yes..." "!").
  apply list_elem_of_further, list_elem_of_here.
Defined.

(** ** The complexity of a text *)

Lemma remove_dups_length {A} `{EqDecision A} (l : list A) :
  length (remove_dups l) <= length l.
Proof.
  induction l as [|x l IH]; [done|]. cbn [remove_dups].
  destruct (decide_rel elem_of x l); simpl; lia.
Qed.

(** A ratio of two lengths lies between 0 and its numerator, and is at
    most 1 when the numerator is not the greater. *)
Lemma ratio_range a b :
  (0 <= Complexity.ratio a b <= inject_Z (Z.of_nat a))%Q
  /\ (a <= b -> (Complexity.ratio a b <= 1)%Q).
Proof.
  unfold Complexity.ratio. destruct (Nat.ltb_spec 0 b) as [Hb|Hb].
  - assert (0 < inject_Z (Z.of_nat b))%Q as Hpos.
    { change 0%Q with (inject_Z 0). rewrite <- Zlt_Qlt. lia. }
    assert (1 <= inject_Z (Z.of_nat b))%Q as Hone.
    { change 1%Q with (inject_Z 1). rewrite <- Zle_Qle. lia. }
    assert (0 <= inject_Z (Z.of_nat a))%Q as Ha.
    { change 0%Q with (inject_Z 0). rewrite <- Zle_Qle. lia. }
    split; [split|].
    + apply Qle_shift_div_l; [exact Hpos|]. lra.
    + apply Qle_shift_div_r; [exact Hpos|]. nra.
    + intros Hab. apply Qle_shift_div_r; [exact Hpos|].
      rewrite Qmult_1_l, <- Zle_Qle. lia.
  - split; [split; [lra|]|intros _; lra].
    change 0%Q with (inject_Z 0). rewrite <- Zle_Qle. lia.
Qed.

Lemma round1_range (x : Q) (n : Z) :
  (0 <= x <= inject_Z n)%Q -> (0 <= Complexity.round1 x <= inject_Z n)%Q.
Proof.
  intros Hx. unfold Complexity.round1.
  destruct (round_half_even_range (x * 10) (10 * n)) as [H0 H1].
  { rewrite inject_Z_mult. change (inject_Z 10) with 10%Q. lra. }
  rewrite Zle_Qle in H0, H1. rewrite inject_Z_mult in H1.
  change (inject_Z 0) with 0%Q in H0. change (inject_Z 10) with 10%Q in H1.
  split.
  - apply Qle_shift_div_l; [done|]. lra.
  - apply Qle_shift_div_r; [done|]. lra.
Qed.

Lemma round2_unit (x : Q) : (0 <= x <= 1)%Q -> (0 <= Main.round2 x <= 1)%Q.
Proof.
  intros Hx. unfold Main.round2.
  destruct (round_half_even_range (x * 100) 100) as [H0 H1].
  { change (inject_Z 100) with 100%Q. lra. }
  rewrite Zle_Qle in H0, H1.
  change (inject_Z 0) with 0%Q in H0. change (inject_Z 100) with 100%Q in H1.
  split.
  - apply Qle_shift_div_l; [done|]. lra.
  - apply Qle_shift_div_r; [done|]. lra.
Qed.

(** X24. The measures of [analyze_text_complexity] are in range for every
    text: the rounded share of distinct words lies between 0 and 1, the
    rounded mean number of words of a sentence between 0 and the number of
    words, the two keys of the level hold the same value, one of "low",
    "medium" and "high", and a text of at most 15 words is always "low". *)
Theorem analyze_text_complexity_ranges ln text :
  let c := Complexity.analyze_text_complexity ln text in
  (0 <= Complexity.vocabulary_complexity c <= 1)%Q
  /\ (0 <= Complexity.avg_words_per_sentence c
      <= inject_Z (Z.of_nat (Complexity.word_count c)))%Q
  /\ Complexity.difficulty c = Complexity.complexity_level c
  /\ Complexity.difficulty c ∈ ["low"; "medium"; "high"]
  /\ (Complexity.word_count c <= 15 -> Complexity.difficulty c = "low").
Proof.
  intros c. unfold c, Complexity.analyze_text_complexity. cbv zeta.
  cbn [Complexity.vocabulary_complexity Complexity.avg_words_per_sentence
       Complexity.word_count Complexity.difficulty Complexity.complexity_level].
  set (words := Py.split text).
  set (sentences := Processors.sentences_of text).
  destruct (ratio_range (length (remove_dups (map Py.lower words))) (length words))
    as [[Hv0 _] Hv1].
  specialize (Hv1 ltac:(etrans; [apply remove_dups_length|by rewrite length_map])).
  destruct (ratio_range (length words) (length sentences)) as [Ha _].
  split; [by apply round2_unit|].
  split; [by apply round1_range|].
  split; [done|]. split.
  - destruct (_ && _); [do 2 apply list_elem_of_further; apply list_elem_of_here|].
    destruct (_ && _); [apply list_elem_of_further|]; apply list_elem_of_here.
  - intros H15.
    assert (Processors.Qlt_bool 15 (Complexity.ratio (length words) (length sentences))
            = false) as H.
    { unfold Processors.Qlt_bool. apply negb_false_iff, Qle_bool_iff.
      eapply Qle_trans; [apply Ha|]. change 15%Q with (inject_Z 15). rewrite <- Zle_Qle. lia. }
    assert (Processors.Qlt_bool 20 (Complexity.ratio (length words) (length sentences))
            = false) as H'.
    { unfold Processors.Qlt_bool. apply negb_false_iff, Qle_bool_iff.
      eapply Qle_trans; [apply Ha|]. change 20%Q with (inject_Z 20). rewrite <- Zle_Qle. lia. }
    by rewrite H, H'.
Qed.
